(** * frame-customizer-v2: the variant provisioner and the cleanup worker

    A shallow embedding of

    - [app/routes/api.custom-product.js] (the provisioning route: price
      validation, the request de-duplication cache, the reuse path, the
      creation path with its price polling loop), and
    - [scripts/cleanupWorker.js] (the frequent sweep, the daily full scan,
      the shared deletion primitive and the error tracker).

    Conventions of the model.

    - JavaScript numbers are IEEE doubles.  They are modelled by exact
      rationals ([Q]) together with [NaN] and the two infinities; the
      constants [0.01], [999999.99] and the per-area weights stand for the
      rationals they denote.
    - Times are integers: milliseconds since the epoch.
    - [async] code is sequential state passing.  Every [await] of the
      session store, of the REST client or of a timer appends one [Call] to
      the trace of the world, so “no catalog call is made” is a statement
      about the trace.  The replies come from an environment that may depend
      on the whole history of calls.
    - The persistent store (Prisma) is in-memory state: the rows of
      [temporary_products] and of [cleanup_logs].  A write is immediate and
      succeeds, except where Prisma itself rejects it (an [update] whose
      [where] matches no row, a [create] whose integer column is [NaN]).
    - [JSON.stringify] of the tracker's error list and of the sweep counters
      is kept symbolic: the serialised value is recorded, not its text.
    - Of the console output only [console.error] is recorded. *)

From Stdlib Require Import ZArith QArith Qround Qabs List String Ascii Bool Lia.
From Stdlib Require Import Permutation Sorted DecimalString Lqa.
Import ListNotations.

Local Open Scope string_scope.
Local Open Scope Z_scope.

(** ** JavaScript values and built-ins used by the two files *)

Module Js.

(** The values a JavaScript number can take. *)
Inductive number : Type :=
| NaN
| PosInf
| NegInf
| Fin (q : Q).

Definition of_Z (z : Z) : number := Fin (inject_Z z).

Definition Qltb (a b : Q) : bool := negb (Qle_bool b a).

(** [a < b] on numbers: every comparison with [NaN] is false. *)
Definition ltb (a b : number) : bool :=
  match a, b with
  | NaN, _ | _, NaN => false
  | NegInf, NegInf => false
  | NegInf, _ => true
  | _, NegInf => false
  | PosInf, _ => false
  | Fin _, PosInf => true
  | Fin x, Fin y => Qltb x y
  end.

Definition isNaN (a : number) : bool :=
  match a with NaN => true | _ => false end.

Definition Qsign (q : Q) : Z := Z.sgn (Qnum q).

Definition mul (a b : number) : number :=
  match a, b with
  | NaN, _ | _, NaN => NaN
  | Fin x, Fin y => Fin (x * y)
  | Fin x, PosInf | PosInf, Fin x =>
      match Qsign x with 0 => NaN | Zpos _ => PosInf | Zneg _ => NegInf end
  | Fin x, NegInf | NegInf, Fin x =>
      match Qsign x with 0 => NaN | Zpos _ => NegInf | Zneg _ => PosInf end
  | PosInf, PosInf | NegInf, NegInf => PosInf
  | PosInf, NegInf | NegInf, PosInf => NegInf
  end.

(** [a / b] for a finite, positive divisor. *)
Definition div_pos (a : number) (b : Q) : number :=
  match a with
  | Fin x => Fin (x / b)
  | other => other
  end.

(** [Math.round]: the nearest integer, halves towards plus infinity. *)
Definition Qround_half_up (q : Q) : Z := Qfloor (q + (1 # 2)).

Definition Math_round (a : number) : number :=
  match a with
  | Fin q => of_Z (Qround_half_up q)
  | other => other
  end.

Definition Math_min (a b : number) : number :=
  match a, b with
  | NaN, _ | _, NaN => NaN
  | _, _ => if ltb b a then b else a
  end.

Definition Math_max (a b : number) : number :=
  match a, b with
  | NaN, _ | _, NaN => NaN
  | _, _ => if ltb a b then b else a
  end.

(** [Math.abs(a - b) < eps] for a finite [eps]; false as soon as one side is
    not finite. *)
Definition abs_diff_ltb (a b : number) (eps : Q) : bool :=
  match a, b with
  | Fin x, Fin y => Qltb (Qabs (x - y)) eps
  | _, _ => false
  end.

(** *** Strings *)

Definition string_of_Z (z : Z) : string := NilZero.string_of_int (Z.to_int z).

Definition is_digit (c : ascii) : bool :=
  let n := nat_of_ascii c in (48 <=? n)%nat && (n <=? 57)%nat.

Definition digit_val (c : ascii) : Z := Z.of_nat (nat_of_ascii c) - 48.

(** The ASCII part of [StrWhiteSpaceChar]: tab, line feed, vertical tab,
    form feed, carriage return and space. *)
Definition is_space (c : ascii) : bool :=
  let n := nat_of_ascii c in
  ((9 <=? n)%nat && (n <=? 13)%nat) || (n =? 32)%nat.

Fixpoint trim_start (s : string) : string :=
  match s with
  | String c s' => if is_space c then trim_start s' else s
  | EmptyString => s
  end.

(** The longest prefix of digits: its value so far, how many digits were
    read, and the rest of the string. *)
Fixpoint digits (s : string) (acc : Z) (n : nat) : Z * nat * string :=
  match s with
  | String c s' =>
      if is_digit c then digits s' (10 * acc + digit_val c) (S n)
      else (acc, n, s)
  | EmptyString => (acc, n, s)
  end.

Definition sign_of (s : string) : bool * string :=
  match s with
  | String "-" s' => (true, s')
  | String "+" s' => (false, s')
  | _ => (false, s)
  end.

Fixpoint starts_with (p s : string) : bool :=
  match p, s with
  | EmptyString, _ => true
  | String a p', String b s' => Ascii.eqb a b && starts_with p' s'
  | String _ _, EmptyString => false
  end.

(** [s.includes(p)] *)
Fixpoint includes (s p : string) : bool :=
  starts_with p s ||
  match s with
  | String _ s' => includes s' p
  | EmptyString => false
  end.

(** [parseInt(s, 10)]: leading white space, a sign, then the longest run of
    digits; [NaN] when there is no digit. *)
Definition parseInt (s : string) : number :=
  let '(neg, s1) := sign_of (trim_start s) in
  let '(v, n, _) := digits s1 0 0 in
  match n with
  | O => NaN
  | S _ => of_Z (if neg then - v else v)
  end.

Definition pow10 (e : Z) : Q :=
  match e with
  | Zneg p => 1 # (10 ^ p)
  | _ => inject_Z (10 ^ e)
  end.

(** The exponent part of a decimal literal; it is read only when at least
    one digit follows the [e]. *)
Definition exponent (s : string) : Z :=
  match s with
  | String c s' =>
      if Ascii.eqb c "e" || Ascii.eqb c "E" then
        let '(neg, s2) := sign_of s' in
        let '(v, n, _) := digits s2 0 0 in
        match n with O => 0 | S _ => if neg then - v else v end
      else 0
  | EmptyString => 0
  end.

(** [parseFloat(s)]: leading white space, a sign, then [Infinity] or the
    longest prefix that is a decimal literal. *)
Definition parseFloat (s : string) : number :=
  let '(neg, s1) := sign_of (trim_start s) in
  if starts_with "Infinity" s1 then (if neg then NegInf else PosInf)
  else
    let '(ip, ni, s2) := digits s1 0 0 in
    let '(m, nf, s3) :=
      match s2 with
      | String "." s2' =>
          let '(m, nf, s3) := digits s2' ip 0 in
          match ni, nf with
          | O, O => (ip, O, s2)
          | _, _ => (m, nf, s3)
          end
      | _ => (ip, O, s2)
      end in
    match ni, nf with
    | O, O => NaN
    | _, _ =>
        let v := (inject_Z m * pow10 (exponent s3 - Z.of_nat nf))%Q in
        Fin (Qred (if neg then (- v)%Q else v))
    end.

(** Truthiness of a string: the empty string is falsy. *)
Definition truthy (s : string) : bool :=
  match s with EmptyString => false | _ => true end.

(** Truthiness of a value read from a form or from a JSON body: [null] and
    [undefined] ([None]) and the empty string are falsy. *)
Definition truthy_opt (o : option string) : bool :=
  match o with Some s => truthy s | None => false end.

(** A value inside a template literal: [null] prints as the word. *)
Definition tpl (o : option string) : string :=
  match o with Some s => s | None => "null" end.

Fixpoint frac_digits (fuel : nat) (num den : Z) : string :=
  match fuel with
  | O => ""
  | S fuel' =>
      if num =? 0 then ""
      else string_of_Z (10 * num / den) ++ frac_digits fuel' (10 * num mod den) den
  end.

(** [String(n)] for a number.  Exact for the numbers whose decimal expansion
    ends within twenty places, which covers integers and amounts with two
    decimals. *)
Definition String_of_number (a : number) : string :=
  match a with
  | NaN => "NaN"
  | PosInf => "Infinity"
  | NegInf => "-Infinity"
  | Fin q =>
      let n := Z.abs (Qnum q) in
      let d := Zpos (Qden q) in
      let fr := frac_digits 20 (n mod d) d in
      (if Qnum q <? 0 then "-" else "") ++ string_of_Z (n / d) ++
      (if truthy fr then "." ++ fr else "")
  end.

Definition pad2 (z : Z) : string :=
  if z <? 10 then "0" ++ string_of_Z z else string_of_Z z.

(** [n.toFixed(2)] for a non-negative finite number. *)
Definition toFixed2 (q : Q) : string :=
  let cents := Qround_half_up (q * 100) in
  string_of_Z (cents / 100) ++ "." ++ pad2 (cents mod 100).

(** [n.toFixed(2)] *)
Definition toFixed_2 (a : number) : string :=
  match a with
  | Fin q => toFixed2 q
  | NaN => "NaN"
  | PosInf => "Infinity"
  | NegInf => "-Infinity"
  end.

Definition lower (c : ascii) : ascii :=
  let n := nat_of_ascii c in
  if (65 <=? n)%nat && (n <=? 90)%nat then ascii_of_nat (n + 32) else c.

(** [s.toLowerCase()], on the ASCII letters. *)
Fixpoint toLowerCase (s : string) : string :=
  match s with
  | String c s' => String (lower c) (toLowerCase s')
  | EmptyString => EmptyString
  end.

(** An [Error] as the code inspects it: its name and message, and the
    [response] that the REST client attaches to a failed call. *)
Record ErrResponse : Type := {
  code : option Z;
  errors_base : list string
}.

Record Error : Type := {
  name : string;
  message : string;
  response : option ErrResponse
}.

Definition new_Error (msg : string) : Error :=
  {| name := "Error"; message := msg; response := None |}.

(** [String(err)], that is [Error.prototype.toString]. *)
Definition String_of_Error (e : Error) : string :=
  if truthy (name e) then
    (if truthy (message e) then name e ++ ": " ++ message e else name e)
  else message e.

(** [err.response?.code] *)
Definition response_code (e : Error) : option Z :=
  match response e with Some r => code r | None => None end.

End Js.

(** ** The process: its collaborators, its state, and the effect monad *)

Module Sys.

(** A catalog variant as the code reads it from a JSON body. *)
Record Variant : Type := {
  v_id : Z;
  price : option string;
  product_id : Z;
  option1 : option string;
  option2 : option string;
  option3 : option string
}.

(** [response.body]: the code reads [body?.variant] and [body?.variants]. *)
Record Body : Type := {
  variant : option Variant;
  variants : option (list Variant)
}.

(** The [variant] object of a create-variant request. *)
Record VariantData : Type := {
  d_product_id : Z;
  d_price : string;
  d_sku : string;
  d_option1 : string;
  d_option2 : string;
  d_option3 : string;
  d_weight : Js.number
}.

(** What the process awaits: a session lookup, a REST call, a timer. *)
Inductive Call : Type :=
| LoadSession (sessionId : option string)
| Get (path : string)
| Put (path : string) (id : Z) (new_price : string)
| Post (path : string) (data : VariantData)
| Delete (path : string)
| SetTimeout (ms : Z).

Definition is_rest (c : Call) : bool :=
  match c with
  | Get _ | Put _ _ _ | Post _ _ | Delete _ => true
  | LoadSession _ | SetTimeout _ => false
  end.

Record Session : Type := {
  session_id : option string;
  shop : option string
}.

(** The reply to a REST call: how long it took, and a body or an error. *)
Record Reply : Type := {
  latency : Z;
  outcome : Js.Error + Body
}.

(** The collaborators.  Each answer may depend on the calls made so far. *)
Record Env : Type := {
  sessions : list Call -> option string -> option Session;
  rest : list Call -> Call -> Reply;
  math_random : list Call -> string;
  new_id : nat -> string
}.

(** *** The persistent store *)

Record TemporaryProduct : Type := {
  id : string;
  productId : string;
  variantId : string;
  createdAt : Z;
  scheduledDeletionAt : Z;
  deletedAt : option Z;
  boy : Z;
  en : Z;
  materyal : string;
  calculatedPrice : Q;
  area : Z;
  isOrdered : bool;
  orderIds : list string;
  cleanupAttempts : Z;
  lastCleanupError : option string;
  shopDomain : string;
  sessionId : option string
}.

Definition set_deletedAt (t : option Z) (r : TemporaryProduct) : TemporaryProduct :=
  {| id := id r; productId := productId r; variantId := variantId r;
     createdAt := createdAt r; scheduledDeletionAt := scheduledDeletionAt r;
     deletedAt := t;
     boy := boy r; en := en r; materyal := materyal r;
     calculatedPrice := calculatedPrice r; area := area r;
     isOrdered := isOrdered r; orderIds := orderIds r;
     cleanupAttempts := cleanupAttempts r;
     lastCleanupError := lastCleanupError r;
     shopDomain := shopDomain r; sessionId := sessionId r |}.

Definition set_cleanup_failure (msg : string) (r : TemporaryProduct) : TemporaryProduct :=
  {| id := id r; productId := productId r; variantId := variantId r;
     createdAt := createdAt r; scheduledDeletionAt := scheduledDeletionAt r;
     deletedAt := deletedAt r;
     boy := boy r; en := en r; materyal := materyal r;
     calculatedPrice := calculatedPrice r; area := area r;
     isOrdered := isOrdered r; orderIds := orderIds r;
     cleanupAttempts := cleanupAttempts r + 1;
     lastCleanupError := Some msg;
     shopDomain := shopDomain r; sessionId := sessionId r |}.

(** The tracker's context object: [{variantId, productId}] or [{stage}]. *)
Inductive Context : Type :=
| CtxItem (variantId productId : string)
| CtxStage (stage : string).

Record ErrorLog : Type := {
  timestamp : Z;
  error : string;
  context : Context
}.

Record Stats : Type := {
  checked : Z;
  deleted : Z;
  errors : Z;
  skipped : Z
}.

(** A logged or printed value.  [JsonErrors] and [JsonStats] stand for the
    [JSON.stringify] of the value they carry. *)
Inductive Details : Type :=
| Text (s : string)
| JsonErrors (l : list ErrorLog)
| JsonStats (s : Stats)
| ErrorValue (e : Js.Error)
| ErrorLogValue (e : ErrorLog).

Record CleanupLog : Type := {
  l_createdAt : Z;
  action : string;
  l_productId : option string;
  l_variantId : option string;
  l_message : string;
  errorDetails : option Details
}.

(** An entry of the route's [requestCache]. *)
Record CacheEntry : Type := {
  c_timestamp : Z;
  c_requestId : string
}.

(** *** The world *)

Record World : Type := {
  now : Z;
  trace : list Call;
  temporaryProduct : list TemporaryProduct;
  cleanupLog : list CleanupLog;
  recentErrors : list ErrorLog;
  console : list (string * Details);
  requestCache : list (string * CacheEntry)
}.

Definition set_clock (t : Z) (tr : list Call) (w : World) : World :=
  {| now := t; trace := tr; temporaryProduct := temporaryProduct w;
     cleanupLog := cleanupLog w; recentErrors := recentErrors w;
     console := console w; requestCache := requestCache w |}.

Definition set_temporaryProduct (rows : list TemporaryProduct) (w : World) : World :=
  {| now := now w; trace := trace w; temporaryProduct := rows;
     cleanupLog := cleanupLog w; recentErrors := recentErrors w;
     console := console w; requestCache := requestCache w |}.

Definition set_cleanupLog (rows : list CleanupLog) (w : World) : World :=
  {| now := now w; trace := trace w; temporaryProduct := temporaryProduct w;
     cleanupLog := rows; recentErrors := recentErrors w;
     console := console w; requestCache := requestCache w |}.

Definition set_recentErrors (l : list ErrorLog) (w : World) : World :=
  {| now := now w; trace := trace w; temporaryProduct := temporaryProduct w;
     cleanupLog := cleanupLog w; recentErrors := l;
     console := console w; requestCache := requestCache w |}.

Definition set_console (l : list (string * Details)) (w : World) : World :=
  {| now := now w; trace := trace w; temporaryProduct := temporaryProduct w;
     cleanupLog := cleanupLog w; recentErrors := recentErrors w;
     console := l; requestCache := requestCache w |}.

Definition set_requestCache (c : list (string * CacheEntry)) (w : World) : World :=
  {| now := now w; trace := trace w; temporaryProduct := temporaryProduct w;
     cleanupLog := cleanupLog w; recentErrors := recentErrors w;
     console := console w; requestCache := c |}.

(** *** Effects: state, and exceptions as results *)

Inductive result (A : Type) : Type :=
| Ok (a : A)
| Threw (e : Js.Error).

Arguments Ok {A} a.
Arguments Threw {A} e.

Definition M (A : Type) : Type := World -> result A * World.

Definition ret {A} (a : A) : M A := fun w => (Ok a, w).

Definition bind {A B} (m : M A) (k : A -> M B) : M B :=
  fun w =>
    match m w with
    | (Ok a, w') => k a w'
    | (Threw e, w') => (Threw e, w')
    end.

Definition throw {A} (e : Js.Error) : M A := fun w => (Threw e, w).

(** [try { m } catch (err) { h err }] *)
Definition try_catch {A} (m : M A) (h : Js.Error -> M A) : M A :=
  fun w =>
    match m w with
    | (Ok a, w') => (Ok a, w')
    | (Threw e, w') => h e w'
    end.

(** Runs [m] and hands back the exception it ended with, if any. *)
Definition attempt {A} (m : M A) : M (option Js.Error) :=
  fun w =>
    match m w with
    | (Ok _, w') => (Ok None, w')
    | (Threw e, w') => (Ok (Some e), w')
    end.

(** Runs [m] and hands back its value or the exception it ended with. *)
Definition reify {A} (m : M A) : M (Js.Error + A) :=
  fun w =>
    match m w with
    | (Ok a, w') => (Ok (inr a), w')
    | (Threw e, w') => (Ok (inl e), w')
    end.

Definition gets {A} (f : World -> A) : M A := fun w => (Ok (f w), w).

Definition modify (f : World -> World) : M unit := fun w => (Ok tt, f w).

Declare Scope js_scope.
Delimit Scope js_scope with js.

Notation "x <- m ;; k" := (bind m (fun x => k))
  (at level 61, m at next level, right associativity) : js_scope.
Notation "m ;; k" := (bind m (fun _ => k))
  (at level 61, right associativity) : js_scope.

Local Open Scope js_scope.

Definition Date_now : M Z := gets now.

Definition console_error (label : string) (d : Details) : M unit :=
  modify (fun w => set_console (console w ++ [(label, d)]) w).

Section Collaborators.

Variable env : Env.

(** [await sessionStorage.loadSession(id)] *)
Definition loadSession (sid : option string) : M (option Session) :=
  fun w =>
    (Ok (sessions env (trace w) sid),
     set_clock (now w) (trace w ++ [LoadSession sid]) w).

(** [await admin.get(...)] and the like: the call is issued, the clock
    advances by the latency of the reply, and the reply is a body or an
    exception. *)
Definition admin (c : Call) : M Body :=
  fun w =>
    let r := rest env (trace w) c in
    let w' := set_clock (now w + Z.max 0 (latency r)) (trace w ++ [c]) w in
    match outcome r with
    | inl e => (Threw e, w')
    | inr b => (Ok b, w')
    end.

Definition API_TIMEOUT : Z := 10000.

Definition timeout_message : string := "API isteği zaman aşımına uğradı".

(** [await withTimeout(admin.get(...))]: the call is issued all the same;
    when its reply does not arrive before the timer, the timer's rejection
    wins the race. *)
Definition withTimeout (c : Call) : M Body :=
  fun w =>
    let r := rest env (trace w) c in
    if API_TIMEOUT <=? latency r then
      (Threw (Js.new_Error timeout_message),
       set_clock (now w + API_TIMEOUT) (trace w ++ [c]) w)
    else admin c w.

(** [await new Promise((resolve) => setTimeout(resolve, ms))] *)
Definition sleep (ms : Z) : M unit :=
  modify (fun w => set_clock (now w + ms) (trace w ++ [SetTimeout ms]) w).

End Collaborators.

(** *** Prisma *)

(** [prisma.temporaryProduct.update({ where: { id }, data })]: rejected when
    no row has this id. *)
Definition prisma_temporaryProduct_update
    (key : string) (f : TemporaryProduct -> TemporaryProduct) : M unit :=
  fun w =>
    if existsb (fun r => String.eqb (id r) key) (temporaryProduct w) then
      (Ok tt,
       set_temporaryProduct
         (map (fun r => if String.eqb (id r) key then f r else r)
              (temporaryProduct w)) w)
    else
      (Threw (Js.new_Error "Record to update not found."), w).

(** [prisma.cleanupLog.create({ data })]; [createdAt] defaults to the
    current time. *)
Definition prisma_cleanupLog_create
    (act : string) (pid vid : option string) (msg : string)
    (det : option Details) : M unit :=
  modify (fun w =>
    set_cleanupLog
      (cleanupLog w ++
       [{| l_createdAt := now w; action := act; l_productId := pid;
           l_variantId := vid; l_message := msg; errorDetails := det |}]) w).

End Sys.

(** ** scripts/cleanupWorker.js *)

Module CleanupWorker.

Import Sys.
Local Open Scope js_scope.

Definition CLEANUP_INTERVAL_MS : Z := 120 * 60 * 1000.
Definition ERROR_THRESHOLD : Z := 3.
Definition ERROR_WINDOW_MS : Z := 5 * 60 * 1000.

Definition alarm_message : string :=
  "Cleanup sistemi " ++ Js.string_of_Z ERROR_THRESHOLD ++ " hataya ulaştı!".

(** [sendAlarm(message, errors)] *)
Definition sendAlarm (message : string) (errs : list ErrorLog) : M unit :=
  console_error "🚨 ALARM:" (Text message) ;;
  console_error "Recent errors:" (JsonErrors errs) ;;
  try_catch
    (prisma_cleanupLog_create "alarm" None None message (Some (JsonErrors errs)))
    (fun err => console_error "Alarm log yazılamadı:" (ErrorValue err)).

(** [trackError(error, context)] *)
Definition trackError (err : Js.Error) (ctx : Context) : M unit :=
  t <- Date_now ;;
  let errorLog := {| timestamp := t; error := Js.message err; context := ctx |} in
  modify (fun w => set_recentErrors (recentErrors w ++ [errorLog]) w) ;;
  t' <- Date_now ;;
  let cutoff := t' - ERROR_WINDOW_MS in
  modify (fun w =>
    set_recentErrors (filter (fun e => cutoff <? timestamp e) (recentErrors w)) w) ;;
  errs <- gets recentErrors ;;
  (if ERROR_THRESHOLD <=? Z.of_nat (List.length errs)
   then sendAlarm alarm_message errs
   else ret tt) ;;
  console_error "Cleanup error tracked:" (ErrorLogValue errorLog).

(** [logCleanupAction(action, productId, variantId, message, errorDetails)] *)
Definition logCleanupAction
    (act : string) (pid vid : option string) (msg : string)
    (det : option Details) : M unit :=
  try_catch
    (prisma_cleanupLog_create act pid vid msg det)
    (fun err => console_error "Log yazma hatası:" (ErrorValue err)).

Definition is_404 (err : Js.Error) : bool :=
  match Js.response_code err with
  | Some c => c =? 404
  | None => false
  end.

Section WithEnv.

Variable env : Env.

(** [deleteTemporaryVariant(item)] *)
Definition deleteTemporaryVariant (item : TemporaryProduct) : M unit :=
  adminSession <- loadSession env (sessionId item) ;;
  match adminSession with
  | None => throw (Js.new_Error "Admin session not found")
  | Some _ =>
      try_catch
        (admin env (Get ("variants/" ++ variantId item)) ;;
         admin env
           (Delete ("products/" ++ productId item ++ "/variants/" ++ variantId item)) ;;
         ret tt)
        (fun err => if is_404 err then ret tt else throw err) ;;
      t <- Date_now ;;
      prisma_temporaryProduct_update (id item) (set_deletedAt (Some t))
  end.

(** *** The frequent sweep *)

Fixpoint insert_asc (r : TemporaryProduct) (l : list TemporaryProduct)
  : list TemporaryProduct :=
  match l with
  | [] => [r]
  | x :: l' =>
      if scheduledDeletionAt r <=? scheduledDeletionAt x then r :: l
      else x :: insert_asc r l'
  end.

(** [orderBy: { scheduledDeletionAt: "asc" }]; rows with equal keys keep
    the order of the table. *)
Definition orderBy_scheduledDeletionAt_asc (l : list TemporaryProduct)
  : list TemporaryProduct := fold_right insert_asc [] l.

Definition is_null {A} (o : option A) : bool :=
  match o with None => true | Some _ => false end.

(** The [where] clause of the sweep. *)
Definition sweep_where (t : Z) (r : TemporaryProduct) : bool :=
  (scheduledDeletionAt r <=? t) && is_null (deletedAt r) && negb (isOrdered r).

(** [prisma.temporaryProduct.findMany({ where, orderBy })] of the sweep. *)
Definition sweep_findMany (t : Z) (rows : list TemporaryProduct)
  : list TemporaryProduct :=
  orderBy_scheduledDeletionAt_asc (filter (sweep_where t) rows).

Definition incr_deleted (s : Stats) : Stats :=
  {| checked := checked s; deleted := deleted s + 1; errors := errors s;
     skipped := skipped s |}.

Definition incr_errors (s : Stats) : Stats :=
  {| checked := checked s; deleted := deleted s; errors := errors s + 1;
     skipped := skipped s |}.

Definition deleted_message (item : TemporaryProduct) : string :=
  "Temporary variant deleted successfully (" ++ Js.string_of_Z (boy item) ++ "×"
  ++ Js.string_of_Z (en item) ++ "cm, " ++ materyal item ++ ")".

(** [String(err.message || err)] *)
Definition failure_text (err : Js.Error) : string :=
  if Js.truthy (Js.message err) then Js.message err else Js.String_of_Error err.

(** One turn of [for (const item of toDelete)].  The counters are a mutable
    local of the pass, so they survive an exception: the turn returns them
    together with the exception that left the [catch] block, if any. *)
Definition sweep_item (item : TemporaryProduct) (stats : Stats)
  : M (Stats * option Js.Error) :=
  try_catch
    (deleteTemporaryVariant item ;;
     logCleanupAction "deleted" (Some (productId item)) (Some (variantId item))
       (deleted_message item) None ;;
     ret (incr_deleted stats, None))
    (fun err =>
       escaped <- attempt
         (trackError err (CtxItem (variantId item) (productId item)) ;;
          prisma_temporaryProduct_update (id item)
            (set_cleanup_failure (failure_text err)) ;;
          logCleanupAction "error" (Some (productId item)) (Some (variantId item))
            "Cleanup failed" (Some (Text (Js.String_of_Error err)))) ;;
       ret (incr_errors stats, escaped)).

Fixpoint sweep_loop (items : list TemporaryProduct) (stats : Stats)
  : M (Stats * option Js.Error) :=
  match items with
  | [] => ret (stats, None)
  | item :: items' =>
      r <- sweep_item item stats ;;
      match r with
      | (stats', None) => sweep_loop items' stats'
      | (stats', Some e) => ret (stats', Some e)
      end
  end.

Definition summary_message (s : Stats) : string :=
  "Cleanup pass completed: " ++ Js.string_of_Z (deleted s) ++ " deleted, "
  ++ Js.string_of_Z (errors s) ++ " errors".

(** [runCleanupPass()] *)
Definition runCleanupPass : M Stats :=
  t <- Date_now ;;
  let stats :=
    {| checked := 0; deleted := 0; errors := 0; skipped := 0 |} in
  toDelete <- gets (fun w => sweep_findMany t (temporaryProduct w)) ;;
  let stats :=
    {| checked := Z.of_nat (List.length toDelete); deleted := deleted stats;
       errors := errors stats; skipped := skipped stats |} in
  match toDelete with
  | [] =>
      logCleanupAction "cleanup_run" None None "No items to delete" None ;;
      ret stats
  | _ :: _ =>
      r <- sweep_loop toDelete stats ;;
      match r with
      | (stats', None) =>
          logCleanupAction "cleanup_run" None None (summary_message stats')
            (Some (JsonStats stats')) ;;
          ret stats'
      | (stats', Some err) =>
          console_error "Cleanup pass global hatası:" (ErrorValue err) ;;
          trackError err (CtxStage "cleanup_pass") ;;
          ret stats'
      end
  end.

(** *** The daily full scan *)

Definition daily_where (r : TemporaryProduct) : bool := is_null (deletedAt r).

(** [ageHours >= 24] where [ageHours = age / (1000 * 60 * 60)] *)
Definition old_enough (age : Z) : bool :=
  Qle_bool 24 (inject_Z age / inject_Z (1000 * 60 * 60)).

(** One turn of [for (const item of allRecords)], on the counters
    [(cleaned, errors)]. *)
Definition daily_item (item : TemporaryProduct) (counters : Z * Z) : M (Z * Z) :=
  let '(cleaned, errs) := counters in
  try_catch
    (t <- Date_now ;;
     let age := t - createdAt item in
     if old_enough age then
       deleteTemporaryVariant item ;;
       ret (cleaned + 1, errs)
     else ret (cleaned, errs))
    (fun err =>
       console_error ("Günlük tarama hatası (" ++ variantId item ++ "):")
         (ErrorValue err) ;;
       ret (cleaned, errs + 1)).

Fixpoint daily_loop (items : list TemporaryProduct) (counters : Z * Z) : M (Z * Z) :=
  match items with
  | [] => ret counters
  | item :: items' =>
      counters' <- daily_item item counters ;;
      daily_loop items' counters'
  end.

Definition daily_message (cleaned errs : Z) (total : nat) : string :=
  "Daily full scan completed: " ++ Js.string_of_Z cleaned ++ " deleted, "
  ++ Js.string_of_Z errs ++ " errors from " ++ Js.string_of_Z (Z.of_nat total)
  ++ " total".

(** [runDailyFullScan()] *)
Definition runDailyFullScan : M unit :=
  try_catch
    (allRecords <- gets (fun w => filter daily_where (temporaryProduct w)) ;;
     counters <- daily_loop allRecords (0, 0) ;;
     logCleanupAction "daily_scan" None None
       (daily_message (fst counters) (snd counters) (List.length allRecords)) None)
    (fun err =>
       console_error "Günlük tarama global hatası:" (ErrorValue err) ;;
       trackError err (CtxStage "daily_scan")).

End WithEnv.

End CleanupWorker.

(** ** scripts/cleanupWorker.js: the stats query and the daily schedule *)

Module CleanupWorkerStats.

Import Sys CleanupWorker.
Local Open Scope js_scope.

Definition DAY_MS : Z := 24 * 60 * 60 * 1000.

Definition DAILY_CLEANUP_HOUR : Z := 3.
Definition DAILY_CLEANUP_MINUTE : Z := 0.

(** *** [getCleanupStats] *)

Fixpoint bump (a : string) (groups : list (string * Z)) : list (string * Z) :=
  match groups with
  | [] => [(a, 1)]
  | (b, n) :: groups' =>
      if String.eqb b a then (b, n + 1) :: groups'
      else (b, n) :: bump a groups'
  end.

(** [prisma.cleanupLog.groupBy({ by: ["action"], where, _count: true })]:
    one group per action, here in the order in which the actions first
    occur. *)
Definition groupBy_action (since : Z) (rows : list CleanupLog) : list (string * Z) :=
  fold_left (fun groups r => bump (action r) groups)
            (filter (fun r => since <=? l_createdAt r) rows) [].

Fixpoint insert_desc (r : CleanupLog) (l : list CleanupLog) : list CleanupLog :=
  match l with
  | [] => [r]
  | x :: l' =>
      if l_createdAt x <=? l_createdAt r then r :: l
      else x :: insert_desc r l'
  end.

(** [orderBy: { createdAt: "desc" }] *)
Definition orderBy_createdAt_desc (l : list CleanupLog) : list CleanupLog :=
  fold_right insert_desc [] l.

(** The [findMany] of the recent errors: [where], [orderBy], [take: 10]. *)
Definition recent_error_logs (since : Z) (rows : list CleanupLog) : list CleanupLog :=
  firstn 10
    (orderBy_createdAt_desc
       (filter (fun r => String.eqb (action r) "error" && (since <=? l_createdAt r))
               rows)).

(** [prisma.temporaryProduct.count({ where: { deletedAt: null,
    scheduledDeletionAt: { lte: new Date() } } })] *)
Definition pending_count (t : Z) (rows : list TemporaryProduct) : Z :=
  Z.of_nat
    (List.length
       (filter (fun r => is_null (deletedAt r) && (scheduledDeletionAt r <=? t)) rows)).

Record CleanupStats : Type := {
  stats : list (string * Z);
  s_recentErrors : list CleanupLog;
  pendingDeletion : Z;
  lastRun : Z
}.

(** [getCleanupStats()] *)
Definition getCleanupStats : M CleanupStats :=
  t <- Date_now ;;
  let last24h := t - 24 * 60 * 60 * 1000 in
  groups <- gets (fun w => groupBy_action last24h (cleanupLog w)) ;;
  recent <- gets (fun w => recent_error_logs last24h (cleanupLog w)) ;;
  t' <- Date_now ;;
  pending <- gets (fun w => pending_count t' (temporaryProduct w)) ;;
  t'' <- Date_now ;;
  ret {| stats := groups; s_recentErrors := recent; pendingDeletion := pending;
         lastRun := t'' |}.

(** *** [scheduleDailyCleanup] *)

(** The local clock is the epoch clock moved by [offset] milliseconds; the
    offset is taken to be the same today and tomorrow. *)
Definition local_midnight (offset t : Z) : Z :=
  (t + offset) - (t + offset) mod DAY_MS - offset.

(** [new Date(year, month, date, hour, minute, 0)], then one day later when
    that is not after [now]; the result is [msUntilScheduled]. *)
Definition msUntilScheduled (offset t : Z) : Z :=
  let scheduled :=
    local_midnight offset t
    + DAILY_CLEANUP_HOUR * 60 * 60 * 1000 + DAILY_CLEANUP_MINUTE * 60 * 1000 in
  let scheduled := if scheduled <=? t then scheduled + DAY_MS else scheduled in
  scheduled - t.

End CleanupWorkerStats.

(** ** What the worker's properties are stated about *)

Module CleanupWorkerView.

Import Sys CleanupWorker.

Definition ids (w : World) : list string := map id (temporaryProduct w).

Definition alarm_entry (t : Z) (errs : list ErrorLog) : CleanupLog :=
  {| l_createdAt := t; action := "alarm"; l_productId := None;
     l_variantId := None; l_message := alarm_message;
     errorDetails := Some (JsonErrors errs) |}.

(** The log entries that report the outcome of one deletion attempt. *)
Definition is_attempt (l : CleanupLog) : bool :=
  String.eqb (action l) "deleted" || String.eqb (action l) "error".

(** The variants whose deletion was attempted, in the order of the log. *)
Definition attempts (w : World) : list (option string) :=
  map l_variantId (filter is_attempt (cleanupLog w)).

Definition is_alarm (l : CleanupLog) : bool := String.eqb (action l) "alarm".

Definition alarms (w : World) : list CleanupLog := filter is_alarm (cleanupLog w).

Definition tracked_entry (err : Js.Error) (ctx : Context) (w : World) : ErrorLog :=
  {| timestamp := now w; error := Js.message err; context := ctx |}.

Definition pruned (err : Js.Error) (ctx : Context) (w : World) : list ErrorLog :=
  filter (fun e => now w - ERROR_WINDOW_MS <? timestamp e)
         (recentErrors w ++ [tracked_entry err ctx w]).

Definition alarm_due (err : Js.Error) (ctx : Context) (w : World) : bool :=
  ERROR_THRESHOLD <=? Z.of_nat (List.length (pruned err ctx w)).


Definition is_load (c : Call) : bool :=
  match c with LoadSession _ => true | _ => false end.

(** The session lookups made so far; each deletion attempt starts with one. *)
Definition loads (w : World) : list Call := filter is_load (trace w).

Definition rest_calls (w : World) : list Call := filter is_rest (trace w).

Section WithEnv.

Variable env : Env.

Definition get_path (item : TemporaryProduct) : string :=
  "variants/" ++ variantId item.

Definition delete_path (item : TemporaryProduct) : string :=
  "products/" ++ productId item ++ "/variants/" ++ variantId item.

(** The three answers the deletion primitive asks for, in order. *)
Definition session_reply (item : TemporaryProduct) (w : World) : option Session :=
  sessions env (trace w) (sessionId item).

Definition get_reply (item : TemporaryProduct) (w : World) : Reply :=
  rest env (trace w ++ [LoadSession (sessionId item)])%list (Get (get_path item)).

Definition delete_reply (item : TemporaryProduct) (w : World) : Reply :=
  rest env (trace w ++ [LoadSession (sessionId item)] ++ [Get (get_path item)])%list
    (Delete (delete_path item)).

(** The error with which the read-then-delete ends, if it ends with one. *)
Definition catalog_error (item : TemporaryProduct) (w : World) : option Js.Error :=
  match outcome (get_reply item w) with
  | inl e => Some e
  | inr _ =>
      match outcome (delete_reply item w) with
      | inl e => Some e
      | inr _ => None
      end
  end.

(** The deletion primitive fails in exactly these two ways. *)
Definition primitive_failure (item : TemporaryProduct) (w : World) : option Js.Error :=
  match session_reply item w with
  | None => Some (Js.new_Error "Admin session not found")
  | Some _ =>
      match catalog_error item w with
      | Some e => if is_404 e then None else Some e
      | None => None
      end
  end.

End WithEnv.

End CleanupWorkerView.

(** ** Relations between the world before and after a run *)

Module Invariants.

Import Sys.

(** The columns that no part of the worker writes. *)
Definition descriptive (r : TemporaryProduct) :=
  (id r, productId r, variantId r, createdAt r, scheduledDeletionAt r,
   (boy r, en r, materyal r, calculatedPrice r, area r),
   (isOrdered r, orderIds r, shopDomain r, sessionId r)).

(** How one row may change: its descriptive columns stay, its attempt
    counter does not decrease, and [deletedAt] and [lastCleanupError], once
    set, stay set. *)
Definition row_evolves (r r' : TemporaryProduct) : Prop :=
  descriptive r' = descriptive r /\
  cleanupAttempts r <= cleanupAttempts r' /\
  (deletedAt r <> None -> deletedAt r' <> None) /\
  (lastCleanupError r <> None -> lastCleanupError r' <> None).

(** Row by row: no row is added, removed or moved. *)
Definition table_evolves (t t' : list TemporaryProduct) : Prop :=
  Forall2 row_evolves t t'.

Definition log_grows (l l' : list CleanupLog) : Prop :=
  exists more, l' = (l ++ more)%list.

(** What the worker may do to the world. *)
Definition worker_step (w w' : World) : Prop :=
  table_evolves (temporaryProduct w) (temporaryProduct w') /\
  log_grows (cleanupLog w) (cleanupLog w') /\
  now w <= now w' /\
  requestCache w' = requestCache w.

(** A computation every run of which is related by [R] to its start. *)
Definition preserves (R : World -> World -> Prop) {A} (m : M A) : Prop :=
  forall w, R w (snd (m w)).

(** The tracker is left alone: no error is added to its log. *)
Definition tracker_untouched (w w' : World) : Prop :=
  recentErrors w' = recentErrors w.

(** The number of log entries with the action [a]. *)
Definition count_action (a : string) (w : World) : Z :=
  Z.of_nat (List.length (filter (fun l => String.eqb (action l) a) (cleanupLog w))).


(** What the daily scan's loop may do: it leaves the tracker, the audit log
    and the failure columns of every row alone. *)
Definition daily_step (w w' : World) : Prop :=
  recentErrors w' = recentErrors w /\
  cleanupLog w' = cleanupLog w /\
  map cleanupAttempts (temporaryProduct w') = map cleanupAttempts (temporaryProduct w) /\
  map lastCleanupError (temporaryProduct w') =
    map lastCleanupError (temporaryProduct w).

(** What a sweep has done to a record that it selected: the record is
    marked deleted, or its failure is counted and recorded. *)
Definition settled (r r' : TemporaryProduct) : Prop :=
  deletedAt r' <> None \/
  (cleanupAttempts r + 1 <= cleanupAttempts r' /\ lastCleanupError r' <> None).

(** The route only appends to the two tables. *)
Definition store_grows (w w' : World) : Prop :=
  (exists rows, temporaryProduct w' = (temporaryProduct w ++ rows)%list) /\
  log_grows (cleanupLog w) (cleanupLog w').


End Invariants.

(** ** What the further properties are stated about *)

Module ExtraView.

Import Sys CleanupWorker CleanupWorkerStats.

(** An entry that the tracker keeps at time [t]. *)
Definition fresh_at (t : Z) (e : ErrorLog) : bool :=
  t - ERROR_WINDOW_MS <? timestamp e.

(** The count that a grouping holds for the action [a]; 0 without a
    group. *)
Definition group_count (a : string) (groups : list (string * Z)) : Z :=
  match find (fun g => String.eqb (fst g) a) groups with
  | Some g => snd g
  | None => 0
  end.

(** The number of log entries with the action [a] written at or after
    [since]. *)
Definition entries_since (since : Z) (a : string) (rows : list CleanupLog) : Z :=
  Z.of_nat
    (List.length
       (filter (fun r => String.eqb (action r) a)
               (filter (fun r => since <=? l_createdAt r) rows))).

(** Newest first. *)
Definition newest_first (a b : CleanupLog) : Prop := l_createdAt b <= l_createdAt a.

(** Live, due and ordered: counted as pending, never selected. *)
Definition due_but_ordered (t : Z) (r : TemporaryProduct) : bool :=
  is_null (deletedAt r) && (scheduledDeletionAt r <=? t) && isOrdered r.

End ExtraView.

(** ** app/routes/api.custom-product.js *)

Module CustomProduct.

Import Sys.
Local Open Scope js_scope.

Definition CACHE_DURATION : Z := 5000.
Definition MAX_CACHE_SIZE : Z := 1000.

Definition MIN_PRICE : Q := 1 # 100.
Definition MAX_PRICE : Q := 99999999 # 100.

(** [WEIGHT_PER_AREA[key]]: the table's own entries.  The two lower-case
    names that every object inherits are objects, not numbers. *)
Inductive Property : Type :=
| Weight (q : Q)
| Inherited
| Undefined.

Definition WEIGHT_PER_AREA (key : string) : Property :=
  match key with
  | "pamuk" => Weight (15 # 100)
  | "polyester" => Weight (12 # 100)
  | "keten" => Weight (18 # 100)
  | "ipek" => Weight (8 # 100)
  | "default" => Weight (15 # 100)
  | "constructor" | "__proto__" => Inherited
  | _ => Undefined
  end.

(** [generateRequestId(boy, en, materyal)] *)
Definition generateRequestId (boy en materyal : option string) (t : Z) : string :=
  Js.tpl boy ++ "-" ++ Js.tpl en ++ "-" ++ Js.tpl materyal ++ "-" ++ Js.string_of_Z t.

(** *** The request cache, a [Map] in insertion order *)

Definition Cache : Type := list (string * CacheEntry).

Definition cache_get (key : string) (c : Cache) : option CacheEntry :=
  match find (fun kv => String.eqb (fst kv) key) c with
  | Some kv => Some (snd kv)
  | None => None
  end.

Definition cache_delete (key : string) (c : Cache) : Cache :=
  filter (fun kv => negb (String.eqb (fst kv) key)) c.

(** [requestCache.set(key, v)]: an existing key keeps its place. *)
Fixpoint cache_set (key : string) (v : CacheEntry) (c : Cache) : Cache :=
  match c with
  | [] => [(key, v)]
  | kv :: c' =>
      if String.eqb (fst kv) key then (key, v) :: c'
      else kv :: cache_set key v c'
  end.

Fixpoint insert_oldest_first (kv : string * CacheEntry) (l : Cache) : Cache :=
  match l with
  | [] => [kv]
  | x :: l' =>
      if c_timestamp (snd kv) <=? c_timestamp (snd x) then kv :: l
      else x :: insert_oldest_first kv l'
  end.

(** [entries.sort((a, b) => a[1].timestamp - b[1].timestamp)]; the sort is
    stable. *)
Definition sort_oldest_first (c : Cache) : Cache :=
  fold_right insert_oldest_first [] c.

(** [cleanupCache()] on the cache, at time [t]. *)
Definition cleanupCache_at (t : Z) (c : Cache) : Cache :=
  let live := filter (fun kv => negb (CACHE_DURATION <? t - c_timestamp (snd kv))) c in
  if MAX_CACHE_SIZE <? Z.of_nat (List.length live) then
    let entries := sort_oldest_first live in
    let toDelete := Qfloor (inject_Z MAX_CACHE_SIZE * (2 # 10)) in
    fold_left (fun m kv => cache_delete (fst kv) m)
              (firstn (Z.to_nat toDelete) entries) live
  else live.

Definition cleanupCache : M unit :=
  t <- Date_now ;;
  modify (fun w => set_requestCache (cleanupCache_at t (requestCache w)) w).

Definition requestCache_delete (key : string) : M unit :=
  modify (fun w => set_requestCache (cache_delete key (requestCache w)) w).

(** *** Price and weight *)

(** [validatePrice(price)]: the validated price, or the error thrown. *)
Definition validatePrice (price : string) : Js.Error + Js.number :=
  let numPrice := Js.parseFloat price in
  if Js.isNaN numPrice then
    inl (Js.new_Error "Geçersiz fiyat formatı")
  else if Js.ltb numPrice (Js.Fin MIN_PRICE) then
    inl (Js.new_Error
           ("Fiyat minimum " ++ Js.String_of_number (Js.Fin MIN_PRICE) ++ " TL olmalıdır"))
  else if Js.ltb (Js.Fin MAX_PRICE) numPrice then
    inl (Js.new_Error
           ("Fiyat maximum " ++ Js.String_of_number (Js.Fin MAX_PRICE) ++ " TL olmalıdır"))
  else
    inr (Js.div_pos (Js.Math_round (Js.mul numPrice (Js.of_Z 100))) 100).

(** [calculateWeight(boy, en, materyal)] *)
Definition calculateWeight (boy en : Js.number) (materyal : string) : Js.number :=
  let area := Js.mul boy en in
  let weightPerCm2 :=
    match WEIGHT_PER_AREA (Js.toLowerCase materyal) with
    | Weight q => Js.Fin q
    | Inherited => Js.NaN
    | Undefined => Js.Fin (15 # 100)
    end in
  let calculatedWeight := Js.mul area weightPerCm2 in
  Js.Math_max (Js.of_Z 50) (Js.Math_min (Js.of_Z 50000) (Js.Math_round calculatedWeight)).

(** *** The JSON of a response *)

Record VariantJson : Type := {
  j_id : string;
  gid : string;
  j_price : string;
  price_numeric : option Js.number;
  formatted_price : string;
  weight : option Js.number
}.

Record ProductJson : Type := {
  pj_id : string;
  variant_id : string;
  pj_price : string
}.

Record DebugJson : Type := {
  originalPrice : option string;
  dbg_calculatedPrice : Js.number;
  priceString : string
}.

Record Json : Type := {
  success : bool;
  r_message : option string;
  r_error : option string;
  errorType : option string;
  retryAfter : option Z;
  details : option string;
  r_variant : option VariantJson;
  r_product : option ProductJson;
  debug : option DebugJson;
  usedExisting : option bool;
  r_requestId : option string
}.

Record Response : Type := {
  status : Z;
  json : Json
}.

Definition failure (st : Z) (err type : string) (retry : option Z)
    (det : option string) : Response :=
  {| status := st;
     json := {| success := false; r_message := None; r_error := Some err;
                errorType := Some type; retryAfter := retry; details := det;
                r_variant := None; r_product := None; debug := None;
                usedExisting := None; r_requestId := None |} |}.

(** The response of the reuse path and of the already-exists fallback. *)
Definition existing_response (vid : Z) (shown_price : string) (productId : Z)
    (requestId : string) : Response :=
  {| status := 200;
     json := {| success := true; r_message := Some "Mevcut ürün kullanıldı";
                r_error := None; errorType := None; retryAfter := None;
                details := None;
                r_variant :=
                  Some {| j_id := Js.string_of_Z vid;
                          gid := "gid://shopify/ProductVariant/" ++ Js.string_of_Z vid;
                          j_price := shown_price; price_numeric := None;
                          formatted_price := shown_price ++ " TL";
                          weight := None |};
                r_product :=
                  Some {| pj_id := Js.string_of_Z productId;
                          variant_id := Js.string_of_Z vid;
                          pj_price := shown_price |};
                debug := None; usedExisting := Some true;
                r_requestId := Some requestId |} |}.

(** [p || calculatedPrice], then [String(...)] *)
Definition price_or (p : option string) (calculatedPrice : Js.number) : string :=
  match p with
  | Some s => if Js.truthy s then s else Js.String_of_number calculatedPrice
  | None => Js.String_of_number calculatedPrice
  end.

(** The response of the creation path. *)
Definition created_response (newVariant : Variant) (productId : Z)
    (calculatedPrice calculatedWeight : Js.number) (priceStr requestId : string)
  : Response :=
  let finalPriceString := price_or (price newVariant) calculatedPrice in
  {| status := 200;
     json := {| success := true; r_message := Some "Yeni ürün oluşturuldu";
                r_error := None; errorType := None; retryAfter := None;
                details := None;
                r_variant :=
                  Some {| j_id := Js.string_of_Z (v_id newVariant);
                          gid := "gid://shopify/ProductVariant/"
                                 ++ Js.string_of_Z (v_id newVariant);
                          j_price := finalPriceString;
                          price_numeric := Some (Js.parseFloat finalPriceString);
                          formatted_price := finalPriceString ++ " TL";
                          weight := Some calculatedWeight |};
                r_product :=
                  Some {| pj_id := Js.string_of_Z productId;
                          variant_id := Js.string_of_Z (v_id newVariant);
                          pj_price := finalPriceString |};
                debug :=
                  Some {| originalPrice := price newVariant;
                          dbg_calculatedPrice := calculatedPrice;
                          priceString := priceStr |};
                usedExisting := Some false;
                r_requestId := Some requestId |} |}.

Definition duplicate_response : Response :=
  failure 429 "İşlem zaten devam ediyor. Lütfen bekleyin..." "duplicate" (Some 3) None.

Definition validation_response : Response :=
  failure 400 "Eksik bilgi: Lütfen tüm alanları doldurun." "validation" None None.

Definition session_not_found_response : Response :=
  failure 401 "Sistem hatası: Oturum bulunamadı. Lütfen sayfayı yenileyin."
    "session_not_found" None None.

Definition system_error_response : Response :=
  failure 500 "Sistem hatası: Lütfen daha sonra tekrar deneyin." "system_error"
    None None.

(** [err.message.includes("zaman aşımı")] *)
Definition isTimeout (err : Js.Error) : bool :=
  Js.includes (Js.message err) "zaman aşımı".

(** [err.response?.body?.errors?.base?.[0]?.includes("already exists")] *)
Definition already_exists (err : Js.Error) : bool :=
  match Js.response err with
  | Some r =>
      match Js.errors_base r with
      | first :: _ => Js.includes first "already exists"
      | [] => false
      end
  | None => false
  end.

(** *** The request *)

Record Form : Type := {
  f_baseVariantId : option string;
  f_boy : option string;
  f_en : option string;
  f_materyal : option string;
  f_calculatedPrice : option string;
  f_requestId : option string
}.

(** The session that [authenticate.public.appProxy] resolves to ([None]:
    it rejects, or resolves without a session), and the form. *)
Record Request : Type := {
  proxy : option Session;
  form : Form
}.

(** [variant.option1 === `${boy}`] *)
Definition option_is (o : option string) (s : string) : bool :=
  match o with Some x => String.eqb x s | None => false end.

(** [!p || p === "0" || p === "0.00"] *)
Definition price_blank (p : option string) : bool :=
  negb (Js.truthy_opt p) || option_is p "0" || option_is p "0.00".

(** [a || b] on two ids: zero is falsy. *)
Definition id_or (a : option Z) (b : Z) : Z :=
  match a with
  | Some x => if x =? 0 then b else x
  | None => b
  end.

Section WithEnv.

Variable env : Env.

(** [findExistingVariant(admin, productId, boy, en, materyal)] *)
Definition findExistingVariant (productId : Z) (boy en materyal : string)
  : M (option Variant) :=
  try_catch
    (productResponse <-
       withTimeout env (Get ("products/" ++ Js.string_of_Z productId ++ "/variants")) ;;
     let allVariants :=
       match variants productResponse with Some l => l | None => [] end in
     ret (find (fun v => option_is (option1 v) boy && option_is (option2 v) en
                         && option_is (option3 v) materyal) allVariants))
    (fun err =>
       console_error "Mevcut varyant arama hatası:" (ErrorValue err) ;;
       ret None).

(** One turn of the polling loop of [waitForVariantReady], with the loop
    index [i]: the variant when its price matches, nothing otherwise. *)
Definition poll_once (variantId : Z) (expectedPrice : Js.number) (i : Z)
  : M (option Variant) :=
  try_catch
    (sleep (600 * (i + 1)) ;;
     response <- withTimeout env (Get ("variants/" ++ Js.string_of_Z variantId)) ;;
     match variant response with
     | Some v =>
         match price v with
         | Some p =>
             let variantPrice := Js.parseFloat p in
             let expected := expectedPrice in
             if Js.abs_diff_ltb variantPrice expected (1 # 100)
             then ret (Some v)
             else ret None
         | None => ret None
         end
     | None => ret None
     end)
    (fun err =>
       console_error
         ("❌ Varyant kontrol hatası (" ++ Js.string_of_Z (i + 1) ++ ". deneme):")
         (Text (Js.message err)) ;;
       ret None).

(** [for (let i = 0; i < maxRetries; i++)], with [retries = maxRetries - i]
    turns left. *)
Fixpoint poll_loop (retries : nat) (variantId : Z) (expectedPrice : Js.number)
    (i : Z) : M (option Variant) :=
  match retries with
  | O => ret None
  | S retries' =>
      r <- poll_once variantId expectedPrice i ;;
      match r with
      | Some v => ret (Some v)
      | None => poll_loop retries' variantId expectedPrice (i + 1)
      end
  end.

(** [waitForVariantReady(admin, variantId, expectedPrice, maxRetries)] *)
Definition waitForVariantReady (variantId : Z) (expectedPrice : Js.number)
    (maxRetries : nat) : M (option Variant) :=
  r <- poll_loop maxRetries variantId expectedPrice 0 ;;
  match r with
  | Some v => ret (Some v)
  | None =>
      try_catch
        (finalResponse <- admin env (Get ("variants/" ++ Js.string_of_Z variantId)) ;;
         ret (variant finalResponse))
        (fun err =>
           console_error "❌ Final variant kontrolü başarısız:" (ErrorValue err) ;;
           ret None)
  end.

Definition maxRetries_default : nat := 8.

(** *** [action]: the admission of a request *)

(** Lines 415-435: prune the cache, refuse a key seen less than three
    seconds ago, record the request otherwise. *)
Definition dedup (cacheKey requestId : string) : M (option Response) :=
  cleanupCache ;;
  cached <- gets (fun w => cache_get cacheKey (requestCache w)) ;;
  t <- Date_now ;;
  match cached with
  | Some cachedRequest =>
      if t - c_timestamp cachedRequest <? 3000 then ret (Some duplicate_response)
      else
        modify (fun w =>
          set_requestCache
            (cache_set cacheKey {| c_timestamp := t; c_requestId := requestId |}
               (requestCache w)) w) ;;
        ret None
  | None =>
      modify (fun w =>
        set_requestCache
          (cache_set cacheKey {| c_timestamp := t; c_requestId := requestId |}
             (requestCache w)) w) ;;
      ret None
  end.

(** *** [action]: the reuse path (lines 480-564) *)

Definition reuse_path (existingVariant : Variant) (productId : Z)
    (calculatedPrice : Js.number) (cacheKey requestId : string) : M Response :=
  r <- reify
    (withTimeout env
       (Put ("variants/" ++ Js.string_of_Z (v_id existingVariant))
            (v_id existingVariant) (Js.String_of_number calculatedPrice)) ;;
     sleep 300 ;;
     updatedResponse <-
       admin env (Get ("variants/" ++ Js.string_of_Z (v_id existingVariant))) ;;
     let updatedVariant := variant updatedResponse in
     requestCache_delete cacheKey ;;
     ret (existing_response
            (id_or (option_map v_id updatedVariant) (v_id existingVariant))
            (price_or (match updatedVariant with Some u => price u | None => None end)
                      calculatedPrice)
            productId requestId)) ;;
  match r with
  | inr resp => ret resp
  | inl err =>
      console_error "Fiyat güncelleme hatası:" (ErrorValue err) ;;
      requestCache_delete cacheKey ;;
      ret (existing_response (v_id existingVariant)
             (price_or (price existingVariant) calculatedPrice) productId requestId)
  end.

(** *** [action]: the creation path (lines 566-798) *)

(** Lines 634-657: the price is blank or zero, so it is written once more
    and the variant re-read.  The result is [newVariant] as the block
    leaves it: [undefined] when the re-read body has no variant. *)
Definition manual_price_update (newVariant : Variant) (priceStr : string)
  : M (option Variant) :=
  try_catch
    (admin env (Put ("variants/" ++ Js.string_of_Z (v_id newVariant))
                    (v_id newVariant) priceStr) ;;
     sleep 500 ;;
     updatedResponse <-
       admin env (Get ("variants/" ++ Js.string_of_Z (v_id newVariant))) ;;
     match variant updatedResponse with
     | Some v => ret (Some v)
     | None =>
         console_error "❌ Manuel fiyat güncelleme hatası:"
           (ErrorValue
              {| Js.name := "TypeError";
                 Js.message := "Cannot read properties of undefined (reading 'price')";
                 Js.response := None |}) ;;
         ret None
     end)
    (fun updateErr =>
       console_error "❌ Manuel fiyat güncelleme hatası:" (ErrorValue updateErr) ;;
       ret (Some newVariant)).

(** Lines 598-658, the [try] block: create, wait for the price, and write
    the price again when it is blank or zero. *)
Definition create_variant (productId : Z) (variantData : VariantData)
    (calculatedPrice : Js.number) (priceStr : string) : M (option Variant) :=
  variantResponse <-
    withTimeout env
      (Post ("products/" ++ Js.string_of_Z productId ++ "/variants") variantData) ;;
  match variant variantResponse with
  | None => throw (Js.new_Error "Shopify boş response döndü")
  | Some created =>
      readyVariant <-
        waitForVariantReady (v_id created) calculatedPrice maxRetries_default ;;
      let newVariant :=
        match readyVariant with Some v => v | None => created end in
      if price_blank (price newVariant)
      then manual_price_update newVariant priceStr
      else ret (Some newVariant)
  end.

(** Lines 659-715, the [catch] block of the creation. *)
Definition creation_failed (err : Js.Error) (productId : Z)
    (boy en materyal : string) (calculatedPrice : Js.number)
    (cacheKey requestId : string) : M Response :=
  console_error "❌ Variant oluşturma hatası:" (ErrorValue err) ;;
  requestCache_delete cacheKey ;;
  retryVariant <-
    (if already_exists err
     then findExistingVariant productId boy en materyal
     else ret None) ;;
  match retryVariant with
  | Some rv =>
      ret (existing_response (v_id rv) (price_or (price rv) calculatedPrice)
             productId requestId)
  | None =>
      ret (if isTimeout err
           then failure 504
                  "Ürün oluşturma zaman aşımına uğradı. Lütfen tekrar deneyin."
                  "timeout" None (Some (Js.message err))
           else failure 500 "Ürün oluşturulurken bir hata oluştu."
                  "creation_failed" None (Some (Js.message err)))
  end.

(** [prisma.temporaryProduct.create({ data })]: the defaults of the table
    fill the other columns.  Rejected when an integer column is [NaN]. *)
Definition prisma_temporaryProduct_create
    (productId variantId : string) (scheduled : Z) (boyInt enInt : Js.number)
    (materyal : string) (calculatedPrice area : Js.number)
    (shopDomain : string) (sessionId : option string) : M unit :=
  match boyInt, enInt, area, calculatedPrice with
  | Js.Fin b, Js.Fin e, Js.Fin a, Js.Fin p =>
      modify (fun w =>
        set_temporaryProduct
          (temporaryProduct w ++
           [{| id := new_id env (List.length (temporaryProduct w));
               productId := productId; variantId := variantId;
               createdAt := now w; scheduledDeletionAt := scheduled;
               deletedAt := None;
               boy := Qfloor b; en := Qfloor e; materyal := materyal;
               calculatedPrice := p; area := Qfloor a;
               isOrdered := false; orderIds := [];
               cleanupAttempts := 0; lastCleanupError := None;
               shopDomain := shopDomain; sessionId := sessionId |}]) w)
  | _, _, _, _ => throw (Js.new_Error "Invalid value provided. Expected Int.")
  end.

Definition first_truthy (a b : option string) : string :=
  if Js.truthy_opt a then Js.tpl a
  else if Js.truthy_opt b then Js.tpl b else "".

(** Lines 717-798: the variant exists; record it and answer. *)
Definition persist_and_respond (session adminSession : Session) (productId : Z)
    (boy en materyal : string) (boyInt enInt area : Js.number)
    (calculatedPrice calculatedWeight : Js.number)
    (cacheKey requestId priceStr : string) (newVariant : Variant) : M Response :=
  t <- Date_now ;;
  let scheduledDeletionAt := t + 2 * 60 * 60 * 1000 in
  try_catch
    (prisma_temporaryProduct_create
       (Js.string_of_Z productId) (Js.string_of_Z (v_id newVariant))
       scheduledDeletionAt boyInt enInt materyal calculatedPrice area
       (first_truthy (shop session) (shop adminSession))
       (session_id adminSession) ;;
     prisma_cleanupLog_create "variant_created"
       (Some (Js.string_of_Z productId))
       (Some (Js.string_of_Z (v_id newVariant)))
       ("Temporary variant created: " ++ boy ++ "×" ++ en ++ "cm, " ++ materyal
        ++ ", " ++ Js.String_of_number calculatedWeight ++ "g, "
        ++ Js.tpl (price newVariant) ++ " TL")
       None)
    (fun dbErr => console_error "DB kaydı oluşturulamadı:" (ErrorValue dbErr)) ;;
  requestCache_delete cacheKey ;;
  ret (created_response newVariant productId calculatedPrice calculatedWeight
         priceStr requestId).

(** The [variant] object of the create call, made at time [timestamp]. *)
Definition variantData_of (productId : Z) (boy en materyal : string)
    (calculatedPrice calculatedWeight : Js.number)
    (timestamp : Z) (randomSuffix : string) : VariantData :=
  {| d_product_id := productId; d_price := Js.toFixed_2 calculatedPrice;
     d_sku := "CUSTOM-" ++ Js.string_of_Z timestamp ++ "-" ++ randomSuffix;
     d_option1 := boy; d_option2 := en; d_option3 := materyal;
     d_weight := calculatedWeight |}.

Definition creation_path (session adminSession : Session) (productId : Z)
    (boy en materyal : string) (boyInt enInt area : Js.number)
    (calculatedPrice calculatedWeight : Js.number)
    (cacheKey requestId : string) : M Response :=
  timestamp <- Date_now ;;
  randomSuffix <- gets (fun w => math_random env (trace w)) ;;
  let priceStr := Js.toFixed_2 calculatedPrice in
  let variantData :=
    variantData_of productId boy en materyal calculatedPrice calculatedWeight
      timestamp randomSuffix in
  created <- reify (create_variant productId variantData calculatedPrice priceStr) ;;
  match created with
  | inl err =>
      creation_failed err productId boy en materyal calculatedPrice cacheKey requestId
  | inr None =>
      requestCache_delete cacheKey ;;
      throw (Js.new_Error "Shopify variant oluşturulamadı (boş response).")
  | inr (Some newVariant) =>
      persist_and_respond session adminSession productId boy en materyal
        boyInt enInt area calculatedPrice calculatedWeight cacheKey requestId
        priceStr newVariant
  end.

(** *** [action] *)

(** Lines 443-468: read the base variant; the response of the [catch]
    block when that fails. *)
Definition load_base_variant (baseVariantId cacheKey : string)
  : M (Response + Variant) :=
  r <- reify
    (variantResponse <- withTimeout env (Get ("variants/" ++ baseVariantId)) ;;
     match variant variantResponse with
     | Some baseVariant => ret baseVariant
     | None => throw (Js.new_Error "Base variant bulunamadı")
     end) ;;
  match r with
  | inr baseVariant => ret (inr baseVariant)
  | inl err =>
      console_error "Base variant getirme hatası:" (ErrorValue err) ;;
      requestCache_delete cacheKey ;;
      ret (inl (if isTimeout err
                then failure 504 "İstek zaman aşımına uğradı. Lütfen tekrar deneyin."
                       "timeout" None None
                else failure 400 "Ürün bilgileri alınamadı. Lütfen sayfayı yenileyin."
                       "product_not_found" None None))
  end.

(** Lines 415-798, once the form is complete and the price valid. *)
Definition provision (session adminSession : Session)
    (baseVariantId boy en materyal : string) (calculatedPrice : Js.number)
    (requestId : string) : M Response :=
  let cacheKey := boy ++ "-" ++ en ++ "-" ++ materyal in
  refused <- dedup cacheKey requestId ;;
  match refused with
  | Some resp => ret resp
  | None =>
      let boyInt := Js.parseInt boy in
      let enInt := Js.parseInt en in
      let area := Js.mul boyInt enInt in
      let calculatedWeight := calculateWeight boyInt enInt materyal in
      base <- load_base_variant baseVariantId cacheKey ;;
      match base with
      | inl resp => ret resp
      | inr baseVariant =>
          let productId := product_id baseVariant in
          existingVariant <- findExistingVariant productId boy en materyal ;;
          match existingVariant with
          | Some ev => reuse_path ev productId calculatedPrice cacheKey requestId
          | None =>
              creation_path session adminSession productId boy en materyal
                boyInt enInt area calculatedPrice calculatedWeight cacheKey requestId
          end
      end
  end.

(** [formData.get("requestId") || generateRequestId(boy, en, materyal)] *)
Definition requestId_of (fd : Form) (t : Z) : string :=
  if Js.truthy_opt (f_requestId fd) then Js.tpl (f_requestId fd)
  else generateRequestId (f_boy fd) (f_en fd) (f_materyal fd) t.

(** The outermost [catch] block. *)
Definition on_system_error (err : Js.Error) : M Response :=
  console_error "Variant oluşturma hatası:" (ErrorValue err) ;;
  ret system_error_response.

(** [action({ request })] *)
Definition action (request : Request) : M Response :=
  try_catch
    (match proxy request with
     | None =>
         throw {| Js.name := "TypeError";
                  Js.message := "Cannot read properties of undefined (reading 'id')";
                  Js.response := None |}
     | Some session =>
         adminSession <- loadSession env (session_id session) ;;
         match adminSession with
         | None => ret session_not_found_response
         | Some adminSession =>
             if negb (Js.truthy_opt (session_id adminSession))
             then ret session_not_found_response
             else
               let fd := form request in
               t <- Date_now ;;
               let requestId := requestId_of fd t in
               match f_baseVariantId fd, f_boy fd, f_en fd, f_materyal fd,
                     f_calculatedPrice fd with
               | Some baseVariantId, Some boy, Some en, Some materyal,
                 Some calculatedPriceRaw =>
                   if negb (Js.truthy baseVariantId) || negb (Js.truthy boy)
                      || negb (Js.truthy en) || negb (Js.truthy materyal)
                      || negb (Js.truthy calculatedPriceRaw)
                   then ret validation_response
                   else
                     match validatePrice calculatedPriceRaw with
                     | inl err =>
                         ret (failure 400 (Js.message err) "invalid_price" None None)
                     | inr calculatedPrice =>
                         provision session adminSession baseVariantId boy en
                           materyal calculatedPrice requestId
                     end
               | _, _, _, _, _ => ret validation_response
               end
         end
     end)
    on_system_error.

End WithEnv.

End CustomProduct.

(** ** What the route's properties are stated about *)

Module CustomProductView.

Import Sys CustomProduct.

(** The world once the admin session has been looked up. *)
Definition after_load (w : World) (sid : option string) : World :=
  set_clock (now w) (trace w ++ [LoadSession sid]) w.

Definition cacheKey_of (boy en materyal : string) : string :=
  boy ++ "-" ++ en ++ "-" ++ materyal.

(** A request that reaches the de-duplication stage: the proxy session
    resolves, its admin session is stored and has an id, the five form
    fields are present and not empty, and the price is valid. *)
Definition accepted (env : Env) (request : Request) (w : World)
    (session adminSession : Session) (baseVariantId boy en materyal : string)
    (calculatedPrice : Js.number) : Prop :=
  proxy request = Some session /\
  sessions env (trace w) (session_id session) = Some adminSession /\
  Js.truthy_opt (session_id adminSession) = true /\
  f_baseVariantId (form request) = Some baseVariantId /\
  f_boy (form request) = Some boy /\
  f_en (form request) = Some en /\
  f_materyal (form request) = Some materyal /\
  Js.truthy baseVariantId = true /\ Js.truthy boy = true /\
  Js.truthy en = true /\ Js.truthy materyal = true /\
  exists raw,
    f_calculatedPrice (form request) = Some raw /\ Js.truthy raw = true /\
    validatePrice raw = inr calculatedPrice.

(** The new calls of a run: the trace only grows. *)
Definition extends (w w' : World) : Prop :=
  exists calls, trace w' = (trace w ++ calls)%list.

(** A computation that only adds calls to the trace. *)
Definition mono {A} (m : M A) : Prop := forall w, extends w (snd (m w)).

Definition is_put (c : Call) : bool :=
  match c with Put _ _ _ => true | _ => false end.

Definition is_post (c : Call) : bool :=
  match c with Post _ _ => true | _ => false end.

(** The price of a variant is within 0.01 of the expected price. *)
Definition price_matches (expected : Js.number) (v : Variant) : bool :=
  match price v with
  | Some p => Js.abs_diff_ltb (Js.parseFloat p) expected (1 # 100)
  | None => false
  end.

(** [k] turns of the polling loop from index [i]: a timer of 600 ms times
    the number of the turn, then a read. *)
Fixpoint backoff_calls (path : string) (i : Z) (k : nat) : list Call :=
  match k with
  | O => []
  | S k' => SetTimeout (600 * (i + 1)) :: Get path :: backoff_calls path (i + 1) k'
  end.

Definition variant_path (variantId : Z) : string :=
  "variants/" ++ Js.string_of_Z variantId.

Definition listing_path (productId : Z) : string :=
  "products/" ++ Js.string_of_Z productId ++ "/variants".

(** The listing of the product's variants, asked in world [w], is answered
    too late or with an error. *)
Definition listing_fails (env : Env) (w : World) (productId : Z) : Prop :=
  API_TIMEOUT <= latency (rest env (trace w) (Get (listing_path productId))) \/
  exists e, outcome (rest env (trace w) (Get (listing_path productId))) = inl e.


Definition rest_calls (w : World) : list Call := filter is_rest (trace w).

End CustomProductView.

(** ** What the further properties of the route are stated about *)

Module CustomProductExtraView.

Import Sys CustomProduct CustomProductView.


(** An entry that the pruning at time [t] keeps: at most five seconds
    old. *)
Definition young (t : Z) (kv : string * CacheEntry) : bool :=
  negb (CACHE_DURATION <? t - c_timestamp (snd kv)).

(** The key of the entry is one of [keys]. *)
Definition key_in (keys : list string) (kv : string * CacheEntry) : bool :=
  existsb (String.eqb (fst kv)) keys.

(** No key occurs twice. *)
Fixpoint distinct (keys : list string) : bool :=
  match keys with
  | [] => true
  | k :: rest => negb (existsb (String.eqb k) rest) && distinct rest
  end.

Definition no_older (a b : string * CacheEntry) : Prop :=
  c_timestamp (snd a) <= c_timestamp (snd b).

(** The two tables and the tracker are as before. *)
Definition tables_kept (w w' : World) : Prop :=
  temporaryProduct w' = temporaryProduct w /\
  cleanupLog w' = cleanupLog w /\
  recentErrors w' = recentErrors w.

(** Only the trace, the clock and the console may differ. *)
Definition quiet (w w' : World) : Prop :=
  requestCache w' = requestCache w /\ tables_kept w w'.

(** The cache has lost the key and is otherwise as before. *)
Definition cache_released (key : string) (w w' : World) : Prop :=
  requestCache w' = cache_delete key (requestCache w).

(** One row and one log entry are appended; nothing else in the two
    tables, and nothing in the tracker, changes. *)
Definition recorded (w w' : World) (row : TemporaryProduct) (entry : CleanupLog)
  : Prop :=
  temporaryProduct w' = (temporaryProduct w ++ [row])%list /\
  cleanupLog w' = (cleanupLog w ++ [entry])%list /\
  recentErrors w' = recentErrors w.

(** A computation that never ends with an exception. *)
Definition total {A} (m : M A) : Prop :=
  forall w, exists a w', m w = (Ok a, w').





(** 1 when the call is counted by [f]. *)
Definition cost (f : Call -> bool) (c : Call) : nat :=
  if f c then 1%nat else 0%nat.

(** The run has only appended calls to the trace, at most [n] of them
    counted by [f]. *)
Definition calls_le (f : Call -> bool) (n : nat) (w w' : World) : Prop :=
  exists calls,
    trace w' = (trace w ++ calls)%list /\
    (List.length (filter f calls) <= n)%nat.

Definition bounded (f : Call -> bool) (n : nat) {A} (m : M A) : Prop :=
  forall w, calls_le f n w (snd (m w)).

Definition is_delete (c : Call) : bool :=
  match c with Delete _ => true | _ => false end.

End CustomProductExtraView.

(** ** Concrete collaborators and worlds *)

Module Scenarios.

Import Sys.

Definition empty_body : Body := {| variant := None; variants := None |}.

Definition replied (ms : Z) (b : Body) : Reply :=
  {| latency := ms; outcome := inr b |}.

Definition failed (ms : Z) (e : Js.Error) : Reply :=
  {| latency := ms; outcome := inl e |}.

(** The error the REST client throws for an HTTP status. *)
Definition http_error (status : Z) (base : list string) : Js.Error :=
  {| Js.name := "Error"; Js.message := "Received an error response";
     Js.response := Some {| Js.code := Some status; Js.errors_base := base |} |}.

(** Collaborators whose answers do not depend on the history. *)
Definition env_of (sess : option string -> option Session) (r : Call -> Reply) : Env :=
  {| sessions := fun _ => sess;
     rest := fun _ => r;
     math_random := fun _ => "k3x9qa";
     new_id := fun n => "tp" ++ Js.string_of_Z (Z.of_nat n) |}.

Definition the_session : Session :=
  {| session_id := Some "offline_shop.example"; shop := Some "shop.example" |}.

(** Only the session ["s1"] is stored. *)
Definition sessions_s1 (sid : option string) : option Session :=
  match sid with
  | Some "s1" => Some the_session
  | _ => None
  end.

(** A catalog that answers every call at once with an empty body. *)
Definition catalog_ok (c : Call) : Reply := replied 20 empty_body.

Definition env_ok : Env := env_of sessions_s1 catalog_ok.

Definition hour : Z := 60 * 60 * 1000.

Definition row (i v : string) (created : Z) (ordered : bool) (sid : option string)
  : TemporaryProduct :=
  {| id := i; productId := "p1"; variantId := v;
     createdAt := created; scheduledDeletionAt := created + 2 * hour;
     deletedAt := None;
     boy := 120; en := 80; materyal := "pamuk";
     calculatedPrice := 1999 # 100; area := 9600;
     isOrdered := ordered; orderIds := if ordered then ["1001"] else [];
     cleanupAttempts := 0; lastCleanupError := None;
     shopDomain := "shop.example"; sessionId := sid |}.

Definition world_at (t : Z) (rows : list TemporaryProduct) : World :=
  {| now := t; trace := []; temporaryProduct := rows; cleanupLog := [];
     recentErrors := []; console := []; requestCache := [] |}.

(** A variant that was ordered, created at time 0, looked at 25 hours later. *)
Definition ordered_row : TemporaryProduct := row "r1" "v1" 0 true (Some "s1").

Definition world_ordered : World := world_at (25 * hour) [ordered_row].

(** A variant never ordered whose session is no longer stored. *)
Definition orphan_row : TemporaryProduct := row "r2" "v2" 0 false (Some "gone").

Definition world_orphan : World := world_at (25 * hour) [orphan_row].

(** Three expired variants without a stored session, one already absent
    from the catalog, and one not yet due. *)
Definition world_three_failures : World :=
  world_at (3 * hour)
    [row "a" "va" 300 false None; row "b" "vb" 100 false (Some "gone");
     row "c" "vc" 200 false (Some "gone"); row "d" "vd" (2 * hour) false (Some "s1")].

(** A catalog in which the variant ["v404"] is gone and ["v500"] is broken. *)
Definition catalog_mixed (c : Call) : Reply :=
  match c with
  | Get "variants/v404" => failed 20 (http_error 404 [])
  | Get "variants/v500" => failed 20 (http_error 500 [])
  | _ => replied 20 empty_body
  end.

Definition env_mixed : Env := env_of sessions_s1 catalog_mixed.

Definition gone_row : TemporaryProduct := row "m1" "v404" 0 false (Some "s1").

Definition broken_row : TemporaryProduct := row "m2" "v500" 0 false (Some "s1").

Definition world_mixed : World := world_at (3 * hour) [gone_row; broken_row].

(** *** A shop for the provisioning route *)

Import CustomProduct.

(** The variant the storefront starts from: variant 100 of product 7. *)
Definition base_variant : Variant :=
  {| v_id := 100; price := Some "10.00"; product_id := 7;
     option1 := Some "Default"; option2 := None; option3 := None |}.

(** The variant 555 that the catalog creates, with the price it shows. *)
Definition new_variant (boy : string) (shown : option string) : Variant :=
  {| v_id := 555; price := shown; product_id := 7;
     option1 := Some boy; option2 := Some "80"; option3 := Some "pamuk" |}.

Definition with_variant (v : Variant) : Body :=
  {| variant := Some v; variants := None |}.

(** A catalog that creates the variant and then shows the price [shown]
    at every read of it. *)
Definition shop_catalog (boy : string) (shown : option string) (c : Call) : Reply :=
  match c with
  | Get "variants/100" => replied 50 (with_variant base_variant)
  | Get "products/7/variants" =>
      replied 50 {| variant := None; variants := Some [base_variant] |}
  | Post "products/7/variants" _ => replied 80 (with_variant (new_variant boy None))
  | Get "variants/555" => replied 50 (with_variant (new_variant boy shown))
  | Put "variants/555" _ _ => replied 60 (with_variant (new_variant boy shown))
  | _ => failed 20 (http_error 404 [])
  end.

Definition proxy_session : Session :=
  {| session_id := Some "s1"; shop := Some "shop.example" |}.

Definition request_for (boy en materyal calculatedPrice : string) : Request :=
  {| proxy := Some proxy_session;
     form := {| f_baseVariantId := Some "100"; f_boy := Some boy; f_en := Some en;
                f_materyal := Some materyal;
                f_calculatedPrice := Some calculatedPrice;
                f_requestId := Some "req-1" |} |}.


(** The catalog shows the requested price. *)
Definition env_settled : Env := env_of sessions_s1 (shop_catalog "120" (Some "20.00")).

(** The catalog shows a zero price, also after the update. *)
Definition env_zero_price : Env := env_of sessions_s1 (shop_catalog "120" (Some "0.00")).

Definition env_settled_abc : Env := env_of sessions_s1 (shop_catalog "abc" (Some "20.00")).

Definition world_idle : World := world_at 1000000 [].

(** The usual request: 120 x 80, pamuk, for 20. *)
Definition the_request : Request := request_for "120" "80" "pamuk" "20".

(** What [validatePrice] makes of ["20"]. *)
Definition twenty : Js.number := Js.Fin (2000 # 100).

(** A cache of 1001 requests, all admitted one second ago, the one for
    120 x 80 pamuk first. *)
Definition crowded_cache : Cache :=
  ("120-80-pamuk", {| c_timestamp := 999000; c_requestId := "req-0" |})
  :: map (fun i => (Js.string_of_Z (Z.of_nat i) ++ "-1-x",
                    {| c_timestamp := 999000; c_requestId := "other" |}))
         (seq 1 1000).



Definition count_calls (c : Call) (history : list Call) : nat :=
  List.length
    (filter (fun x => match x, c with
                      | Get a, Get b => String.eqb a b
                      | _, _ => false
                      end) history).

(** A catalog that already has the variant for 120 x 80 pamuk but whose
    first listing fails: the creation is refused as a duplicate, and the
    second listing works. *)
Definition env_flaky_listing : Env :=
  {| sessions := fun _ => sessions_s1;
     rest := fun history c =>
       match c with
       | Get "variants/100" => replied 50 (with_variant base_variant)
       | Get "products/7/variants" =>
           match count_calls c history with
           | O => failed 30 (http_error 503 [])
           | S _ =>
               replied 50 {| variant := None;
                             variants := Some [base_variant;
                                               new_variant "120" (Some "18.00")] |}
           end
       | Post _ _ =>
           failed 40 (http_error 422 ["Variant '120 / 80 / pamuk' already exists"])
       | _ => failed 20 (http_error 404 [])
       end;
     math_random := fun _ => "k3x9qa";
     new_id := fun n => "tp" ++ Js.string_of_Z (Z.of_nat n) |}.

End Scenarios.

(** ** More concrete worlds *)

Module MoreScenarios.

Import Sys Scenarios.



(** Two errors tracked one and two minutes ago. *)
Definition world_two_errors : World :=
  set_recentErrors
    [{| timestamp := 3 * hour - 120000; error := "e1"; context := CtxStage "a" |};
     {| timestamp := 3 * hour - 60000; error := "e2"; context := CtxStage "b" |}]
    (world_at (3 * hour) []).

(** A catalog that answers every call after 15 seconds. *)
Definition env_slow : Env :=
  env_of sessions_s1 (fun _ => replied 15000 (with_variant base_variant)).

(** A variant that the listing already has, priced at 18.00. *)
Definition listed_variant : Variant := new_variant "120" (Some "18.00").

(** A catalog that refuses every call. *)
Definition env_down : Env :=
  env_of sessions_s1 (fun _ => failed 20 (http_error 503 [])).

(** A catalog that creates the variant, but takes 12 seconds to say so. *)
Definition env_slow_create : Env :=
  env_of sessions_s1
    (fun c =>
       match c with
       | Post _ _ => replied 12000 (with_variant (new_variant "120" (Some "20.00")))
       | _ => shop_catalog "120" (Some "20.00") c
       end).

End MoreScenarios.

(** ** Checks of the JavaScript built-ins *)

Example parseInt_120 : Js.parseInt "120" = Js.of_Z 120.
Proof. reflexivity. Qed.

Example parseInt_abc : Js.parseInt "abc" = Js.NaN.
Proof. reflexivity. Qed.

Example parseInt_prefix : Js.parseInt " -12cm" = Js.of_Z (-12).
Proof. reflexivity. Qed.

Example parseFloat_19_999 : Js.parseFloat "19.999" = Js.Fin (19999 # 1000).
Proof. reflexivity. Qed.

Example parseFloat_exp : Js.parseFloat "1.5e3abc" = Js.Fin (1500 # 1).
Proof. reflexivity. Qed.

Example parseFloat_dot : Js.parseFloat "." = Js.NaN.
Proof. reflexivity. Qed.

Example parseFloat_dot5 : Js.parseFloat "-.5" = Js.Fin (-1 # 2).
Proof. reflexivity. Qed.

Example String_of_number_ex :
  Js.String_of_number (Js.Fin (1999 # 100)) = "19.99" /\
  Js.String_of_number (Js.Fin (20 # 1)) = "20" /\
  Js.String_of_number (Js.Fin (-5 # 2)) = "-2.5" /\
  Js.toFixed2 (20 # 1) = "20.00" /\ Js.toFixed2 (1 # 20) = "0.05".
Proof. repeat split; reflexivity. Qed.


(** ** Stepping through the effect monad *)

Module SysFacts.

Import Sys.

Lemma bind_ok {A B} (m : M A) (k : A -> M B) w a w' :
  m w = (Ok a, w') -> bind m k w = k a w'.
Proof. intros H. unfold bind. now rewrite H. Qed.

Lemma bind_threw {A B} (m : M A) (k : A -> M B) w e w' :
  m w = (Threw e, w') -> bind m k w = (Threw e, w').
Proof. intros H. unfold bind. now rewrite H. Qed.

Lemma try_catch_ok {A} (m : M A) h w a w' :
  m w = (Ok a, w') -> try_catch m h w = (Ok a, w').
Proof. intros H. unfold try_catch. now rewrite H. Qed.

Lemma try_catch_threw {A} (m : M A) h w e w' :
  m w = (Threw e, w') -> try_catch m h w = h e w'.
Proof. intros H. unfold try_catch. now rewrite H. Qed.

Lemma attempt_ok {A} (m : M A) w a w' :
  m w = (Ok a, w') -> attempt m w = (Ok None, w').
Proof. intros H. unfold attempt. now rewrite H. Qed.

End SysFacts.

(** ** Relations kept by every step of a computation *)

Module InvariantFacts.

Import Sys Invariants.
Local Open Scope js_scope.

Section Preorder.

Variable R : World -> World -> Prop.
Hypothesis R_refl : forall w, R w w.
Hypothesis R_trans : forall w1 w2 w3, R w1 w2 -> R w2 w3 -> R w1 w3.

Lemma preserves_ret {A} (a : A) : preserves R (ret a).
Proof. intros w. apply R_refl. Qed.

Lemma preserves_throw {A} e : preserves R (@throw A e).
Proof. intros w. apply R_refl. Qed.

Lemma preserves_gets {A} (f : World -> A) : preserves R (gets f).
Proof. intros w. apply R_refl. Qed.

Lemma preserves_Date_now : preserves R Date_now.
Proof. intros w. apply R_refl. Qed.

Lemma preserves_modify f : (forall w, R w (f w)) -> preserves R (modify f).
Proof. intros H w. apply H. Qed.

Lemma preserves_bind {A B} (m : M A) (k : A -> M B) :
  preserves R m -> (forall a, preserves R (k a)) -> preserves R (bind m k).
Proof.
  intros Hm Hk w. unfold bind. specialize (Hm w).
  destruct (m w) as [[a|e] w1]; cbn in *; [|exact Hm].
  eapply R_trans; [exact Hm | apply Hk].
Qed.

Lemma preserves_try_catch {A} (m : M A) h :
  preserves R m -> (forall e, preserves R (h e)) -> preserves R (try_catch m h).
Proof.
  intros Hm Hh w. unfold try_catch. specialize (Hm w).
  destruct (m w) as [[a|e] w1]; cbn in *; [exact Hm|].
  eapply R_trans; [exact Hm | apply Hh].
Qed.

Lemma preserves_reify {A} (m : M A) : preserves R m -> preserves R (reify m).
Proof.
  intros Hm w. unfold reify. specialize (Hm w).
  destruct (m w) as [[a|e] w1]; exact Hm.
Qed.

Lemma preserves_attempt {A} (m : M A) : preserves R m -> preserves R (attempt m).
Proof.
  intros Hm w. unfold attempt. specialize (Hm w).
  destruct (m w) as [[a|e] w1]; exact Hm.
Qed.

End Preorder.

(** Splits a goal [preserves R m] along the structure of [m]; [leaf] closes
    the primitives. *)
Ltac preserves_with refl trans leaf :=
  repeat
    match goal with
    | |- preserves _ (bind _ _) => apply (preserves_bind _ trans); [|intros]
    | |- preserves _ (try_catch _ _) => apply (preserves_try_catch _ trans); [|intros]
    | |- preserves _ (reify _) => apply preserves_reify
    | |- preserves _ (attempt _) => apply preserves_attempt
    | |- preserves _ (ret _) => apply (preserves_ret _ refl)
    | |- preserves _ (throw _) => apply (preserves_throw _ refl)
    | |- preserves _ (gets _) => apply (preserves_gets _ refl)
    | |- preserves _ Date_now => apply (preserves_Date_now _ refl)
    | |- preserves _ (match ?x with _ => _ end) => destruct x
    | |- preserves _ (let _ := _ in _) => cbv zeta
    | |- preserves _ _ => solve [leaf]
    end.

(** *** Rows *)

Lemma row_evolves_refl r : row_evolves r r.
Proof. unfold row_evolves. repeat split; auto; lia. Qed.

Lemma row_evolves_trans r1 r2 r3 :
  row_evolves r1 r2 -> row_evolves r2 r3 -> row_evolves r1 r3.
Proof.
  intros (D1 & A1 & X1 & E1) (D2 & A2 & X2 & E2).
  unfold row_evolves. repeat split; auto; try lia. congruence.
Qed.

Lemma table_evolves_refl t : table_evolves t t.
Proof. induction t; constructor; auto using row_evolves_refl. Qed.

Lemma table_evolves_trans t1 t2 t3 :
  table_evolves t1 t2 -> table_evolves t2 t3 -> table_evolves t1 t3.
Proof.
  unfold table_evolves. intros H. revert t3.
  induction H as [|a b ta tb Hab Ht IH]; intros t3 H3; inversion H3; subst.
  - constructor.
  - constructor; [eapply row_evolves_trans; eassumption | now apply IH].
Qed.

Lemma table_evolves_update key f t :
  (forall r, row_evolves r (f r)) ->
  table_evolves t (map (fun r => if String.eqb (id r) key then f r else r) t).
Proof.
  intros Hf. induction t as [|r t IH]; cbn; constructor; [|exact IH].
  destruct (String.eqb (id r) key); [apply Hf | apply row_evolves_refl].
Qed.

Lemma set_deletedAt_evolves t r : row_evolves r (set_deletedAt (Some t) r).
Proof. unfold row_evolves. cbn. repeat split; auto; try lia. discriminate. Qed.

Lemma set_cleanup_failure_evolves msg r : row_evolves r (set_cleanup_failure msg r).
Proof. unfold row_evolves. cbn. repeat split; auto; try lia. discriminate. Qed.

Lemma log_grows_refl l : log_grows l l.
Proof. exists []. now rewrite app_nil_r. Qed.

Lemma log_grows_trans l1 l2 l3 : log_grows l1 l2 -> log_grows l2 l3 -> log_grows l1 l3.
Proof.
  intros [a ->] [b ->]. exists (a ++ b)%list. now rewrite app_assoc.
Qed.

Lemma worker_step_refl w : worker_step w w.
Proof.
  unfold worker_step. repeat split;
    auto using table_evolves_refl, log_grows_refl; lia.
Qed.

Lemma worker_step_trans w1 w2 w3 :
  worker_step w1 w2 -> worker_step w2 w3 -> worker_step w1 w3.
Proof.
  intros (T1 & L1 & N1 & C1) (T2 & L2 & N2 & C2). unfold worker_step.
  repeat split; eauto using table_evolves_trans, log_grows_trans; try lia.
  congruence.
Qed.

End InvariantFacts.

(** ** Properties of the cleanup worker *)

Module CleanupWorkerFacts.

Import Sys SysFacts CleanupWorker CleanupWorkerView Scenarios.
Local Open Scope js_scope.

Lemma existsb_id_In key rows :
  existsb (fun r => String.eqb (id r) key) rows = true <-> In key (map id rows).
Proof.
  rewrite existsb_exists, in_map_iff. split.
  - intros [r [Hin Heq]]. apply String.eqb_eq in Heq. now exists r.
  - intros [r [Heq Hin]]. exists r. split; [assumption|]. now apply String.eqb_eq.
Qed.

Lemma map_id_update key f rows :
  (forall r, id (f r) = id r) ->
  map id (map (fun r => if String.eqb (id r) key then f r else r) rows) = map id rows.
Proof.
  intros Hf. rewrite map_map. apply map_ext. intros r.
  destruct (String.eqb (id r) key); [apply Hf | reflexivity].
Qed.

(** What a successful [update] leaves in the table. *)
Lemma update_run key f w :
  In key (ids w) ->
  prisma_temporaryProduct_update key f w =
  (Ok tt,
   set_temporaryProduct
     (map (fun r => if String.eqb (id r) key then f r else r) (temporaryProduct w)) w).
Proof.
  intros Hin. unfold prisma_temporaryProduct_update.
  apply existsb_id_In in Hin. unfold ids in *. now rewrite Hin.
Qed.



Lemma logCleanupAction_run act pid vid msg det w :
  logCleanupAction act pid vid msg det w =
  (Ok tt,
   set_cleanupLog
     (cleanupLog w ++
      [{| l_createdAt := now w; action := act; l_productId := pid;
          l_variantId := vid; l_message := msg; errorDetails := det |}]) w).
Proof. reflexivity. Qed.

Lemma filter_load_rest cs :
  forallb is_rest cs = true -> filter is_load cs = [].
Proof.
  induction cs as [|c cs IH]; cbn; [reflexivity|].
  intros H. apply andb_prop in H. destruct H as [Hc Hcs].
  destruct c; cbn in *; try discriminate; auto.
Qed.

Lemma loads_extended w w' sid cs :
  trace w' = (trace w ++ LoadSession sid :: cs)%list ->
  forallb is_rest cs = true ->
  loads w' = (loads w ++ [LoadSession sid])%list.
Proof.
  intros Ht Hcs. unfold loads. rewrite Ht, filter_app. cbn.
  now rewrite (filter_load_rest cs Hcs).
Qed.

(** *** The error tracker *)

Lemma trackError_run err ctx w :
  trackError err ctx w =
  (Ok tt,
   {| now := now w; trace := trace w; temporaryProduct := temporaryProduct w;
      cleanupLog :=
        cleanupLog w ++
        (if alarm_due err ctx w then [alarm_entry (now w) (pruned err ctx w)] else []);
      recentErrors := pruned err ctx w;
      console :=
        console w ++
        (if alarm_due err ctx w
         then [("🚨 ALARM:", Text alarm_message);
               ("Recent errors:", JsonErrors (pruned err ctx w))]
         else []) ++
        [("Cleanup error tracked:", ErrorLogValue (tracked_entry err ctx w))];
      requestCache := requestCache w |}).
Proof.
  cbv beta delta
    [trackError bind Date_now gets modify ret sendAlarm console_error try_catch
     prisma_cleanupLog_create alarm_due pruned tracked_entry set_console
     set_cleanupLog set_recentErrors] iota.
  cbn [now trace temporaryProduct cleanupLog recentErrors console requestCache].
  destruct (ERROR_THRESHOLD <=? _);
    cbn [now trace temporaryProduct cleanupLog recentErrors console requestCache];
    rewrite <- ?app_assoc; cbn [app]; rewrite ?app_nil_r; reflexivity.
Qed.


(** *** The tracker's alarm *)

Lemma filter_stale t l :
  (forall e, In e l -> timestamp e <= t) ->
  filter (fun e : ErrorLog => t <? timestamp e) l = [].
Proof.
  induction l as [|x l IH]; cbn; [reflexivity|]. intros H.
  destruct (Z.ltb_spec t (timestamp x)) as [Hlt|_].
  - specialize (H x (or_introl eq_refl)). lia.
  - apply IH. intros e He. apply H. now right.
Qed.

Lemma alarms_after_track err ctx w :
  alarms (snd (trackError err ctx w)) =
  (alarms w ++
   if alarm_due err ctx w then [alarm_entry (now w) (pruned err ctx w)] else [])%list.
Proof.
  rewrite trackError_run. unfold alarms. cbn. rewrite filter_app.
  now destruct (alarm_due err ctx w).
Qed.

(** C9.  After each tracked error the error log is the old log plus the new
    entry, pruned to the entries younger than five minutes; an alarm -- a log
    entry with action "alarm" that carries the pruned list, and two lines of
    diagnostic output -- is emitted exactly when the pruned log holds at
    least three entries.  Three errors tracked within five minutes, with no
    younger entry before them, raise exactly one alarm, when the third is
    tracked. *)
Theorem tracker_alarm_at_threshold :
  (forall err ctx w,
     let w' := snd (trackError err ctx w) in
     recentErrors w' = pruned err ctx w /\
     (forall e, In e (recentErrors w') -> now w - timestamp e < ERROR_WINDOW_MS) /\
     (alarm_due err ctx w = true <->
      ERROR_THRESHOLD <= Z.of_nat (List.length (recentErrors w'))) /\
     cleanupLog w' =
       (cleanupLog w ++
        if alarm_due err ctx w then [alarm_entry (now w) (recentErrors w')] else [])%list /\
     console w' =
       (console w ++
        (if alarm_due err ctx w
         then [("🚨 ALARM:", Text alarm_message);
               ("Recent errors:", JsonErrors (recentErrors w'))]
         else []) ++
        [("Cleanup error tracked:", ErrorLogValue (tracked_entry err ctx w))])%list) /\
  (forall e1 c1 e2 c2 e3 c3 w1 w2 w3,
     (forall e, In e (recentErrors w1) -> timestamp e <= now w1 - ERROR_WINDOW_MS) ->
     recentErrors w2 = recentErrors (snd (trackError e1 c1 w1)) ->
     recentErrors w3 = recentErrors (snd (trackError e2 c2 w2)) ->
     now w1 <= now w2 -> now w2 <= now w3 -> now w3 - now w1 < ERROR_WINDOW_MS ->
     alarms (snd (trackError e1 c1 w1)) = alarms w1 /\
     alarms (snd (trackError e2 c2 w2)) = alarms w2 /\
     alarms (snd (trackError e3 c3 w3)) =
       (alarms w3 ++
        [alarm_entry (now w3)
           [tracked_entry e1 c1 w1; tracked_entry e2 c2 w2; tracked_entry e3 c3 w3]])%list).
Proof.
  split.
  - intros err ctx w w'. subst w'. rewrite trackError_run. cbn.
    refine (conj eq_refl (conj _ (conj _ (conj eq_refl eq_refl)))).
    + intros e He. unfold pruned in He. apply filter_In in He.
      destruct He as [_ He]. apply Z.ltb_lt in He.
      unfold ERROR_WINDOW_MS in *. lia.
    + unfold alarm_due. apply Z.leb_le.
  - intros e1 c1 e2 c2 e3 c3 w1 w2 w3 Hstale H2 H3 H12 H23 Hwin.
    rewrite !alarms_after_track.
    rewrite trackError_run in H2. cbn in H2.
    rewrite trackError_run in H3. cbn in H3.
    change ERROR_WINDOW_MS with 300000 in *.
    assert (P1 : pruned e1 c1 w1 = [tracked_entry e1 c1 w1]).
    { unfold pruned. change ERROR_WINDOW_MS with 300000.
      rewrite filter_app, (filter_stale _ _ Hstale). cbn.
      destruct (Z.ltb_spec (now w1 - 300000) (now w1)) as [_|H];
        [reflexivity | lia]. }
    assert (P2 : pruned e2 c2 w2 = [tracked_entry e1 c1 w1; tracked_entry e2 c2 w2]).
    { unfold pruned. change ERROR_WINDOW_MS with 300000. rewrite H2, P1. cbn.
      destruct (Z.ltb_spec (now w2 - 300000) (now w1)) as [_|H]; [|lia].
      destruct (Z.ltb_spec (now w2 - 300000) (now w2)) as [_|H];
        [reflexivity | lia]. }
    assert (P3 : pruned e3 c3 w3 =
                 [tracked_entry e1 c1 w1; tracked_entry e2 c2 w2; tracked_entry e3 c3 w3]).
    { unfold pruned. change ERROR_WINDOW_MS with 300000. rewrite H3, P2. cbn.
      destruct (Z.ltb_spec (now w3 - 300000) (now w1)) as [_|H]; [|lia].
      destruct (Z.ltb_spec (now w3 - 300000) (now w2)) as [_|H]; [|lia].
      destruct (Z.ltb_spec (now w3 - 300000) (now w3)) as [_|H];
        [reflexivity | lia]. }
    unfold alarm_due. rewrite P1, P2, P3. cbn. rewrite !app_nil_r. auto.
Qed.

Ltac trace_tail :=
  eexists; split; [rewrite <- ?app_assoc; cbn; reflexivity | reflexivity].

Section WithEnv.

Variable env : Env.

Lemma deleteTemporaryVariant_fails item w e :
  primitive_failure env item w = Some e ->
  exists w',
    deleteTemporaryVariant env item w = (Threw e, w') /\
    temporaryProduct w' = temporaryProduct w /\
    cleanupLog w' = cleanupLog w /\
    recentErrors w' = recentErrors w /\
    console w' = console w /\
    now w <= now w' /\
    (session_reply env item w = None ->
     trace w' = (trace w ++ [LoadSession (sessionId item)])%list) /\
    exists cs, trace w' = (trace w ++ LoadSession (sessionId item) :: cs)%list /\
               forallb is_rest cs = true.
Proof.
  unfold primitive_failure, catalog_error, session_reply, get_reply, delete_reply,
    get_path, delete_path.
  unfold deleteTemporaryVariant, bind, try_catch, loadSession, admin, throw, ret.
  cbn. rewrite <- ?app_assoc. cbn.
  destruct (sessions env (trace w) (sessionId item)) as [s|]; cbn.
  - destruct (outcome (rest env _ (Get _))) as [e1|b1]; cbn.
    + destruct (is_404 e1) eqn:H404; [discriminate|].
      intros [= <-]. eexists. split; [reflexivity|]. cbn.
      repeat split; try lia; [discriminate|].
      trace_tail.
    + rewrite <- ?app_assoc. cbn.
      destruct (outcome (rest env _ (Delete _))) as [e2|b2]; cbn.
      * destruct (is_404 e2) eqn:H404; [discriminate|].
        intros [= <-]. eexists. split; [reflexivity|]. cbn.
        repeat split; try lia; [discriminate|].
        trace_tail.
      * discriminate.
  - intros [= <-]. eexists. split; [reflexivity|]. cbn.
    repeat split; try lia.
    exists []. split; reflexivity.
Qed.

Lemma deleteTemporaryVariant_succeeds item w :
  primitive_failure env item w = None ->
  In (id item) (ids w) ->
  exists w',
    deleteTemporaryVariant env item w = (Ok tt, w') /\
    temporaryProduct w' =
      map (fun r => if String.eqb (id r) (id item)
                    then set_deletedAt (Some (now w')) r else r)
          (temporaryProduct w) /\
    cleanupLog w' = cleanupLog w /\
    recentErrors w' = recentErrors w /\
    console w' = console w /\
    now w <= now w' /\
    exists cs, trace w' = (trace w ++ LoadSession (sessionId item) :: cs)%list /\
               forallb is_rest cs = true.
Proof.
  unfold primitive_failure, catalog_error, session_reply, get_reply, delete_reply,
    get_path, delete_path.
  intros Hok Hin. apply existsb_id_In in Hin.
  unfold deleteTemporaryVariant, bind, try_catch, loadSession, admin, throw, ret,
    Date_now, gets, prisma_temporaryProduct_update.
  cbn. rewrite <- ?app_assoc in Hok. cbn in Hok.
  destruct (sessions env (trace w) (sessionId item)) as [s|]; [|discriminate]. cbn.
  destruct (outcome (rest env _ (Get _))) as [e1|b1]; cbn.
  - destruct (is_404 e1) eqn:H404; [|discriminate]. cbn. rewrite Hin.
    eexists. split; [reflexivity|]. cbn. repeat split; try lia.
    trace_tail.
  - rewrite <- ?app_assoc. cbn.
    destruct (outcome (rest env _ (Delete _))) as [e2|b2]; cbn.
    + destruct (is_404 e2) eqn:H404; [|discriminate]. cbn. rewrite Hin.
      eexists. split; [reflexivity|]. cbn. repeat split; try lia.
      trace_tail.
    + rewrite Hin. eexists. split; [reflexivity|]. cbn. repeat split; try lia.
      trace_tail.
Qed.

Lemma In_updated_row key f rows r :
  In r (map (fun x => if String.eqb (id x) key then f x else x) rows) ->
  (forall x, id (f x) = id x) ->
  id r = key ->
  exists x, In x rows /\ id x = key /\ r = f x.
Proof.
  intros Hin Hf Hid. apply in_map_iff in Hin. destruct Hin as [x [Hx Hin]].
  exists x. destruct (String.eqb (id x) key) eqn:E.
  - apply String.eqb_eq in E. auto.
  - apply String.eqb_neq in E. subst r. contradiction.
Qed.

(** C6.  The shared deletion primitive, on a record of the table, throws
    exactly when the session lookup returns nothing (then with "Admin session
    not found", and no catalog call is made) or when the catalog read or
    delete ends with an error whose code is not 404 (then with that error).
    A 404 from the read or from the delete is swallowed.  On every successful
    return the record's [deletedAt] is set, whether or not a delete call was
    needed; so a variant that is already absent (404) never raises, and
    [cleanupAttempts] is left as it was. *)
Theorem deleteTemporaryVariant_fails_iff item w :
  In (id item) (ids w) ->
  let res := fst (deleteTemporaryVariant env item w) in
  let w' := snd (deleteTemporaryVariant env item w) in
  ((exists e, res = Threw e) <->
     (session_reply env item w = None \/
      (session_reply env item w <> None /\
       exists e, catalog_error env item w = Some e /\ is_404 e = false))) /\
  (session_reply env item w = None ->
     res = Threw (Js.new_Error "Admin session not found") /\
     trace w' = (trace w ++ [LoadSession (sessionId item)])%list) /\
  (forall e, session_reply env item w <> None -> catalog_error env item w = Some e ->
     if is_404 e then res = Ok tt else res = Threw e) /\
  (res = Ok tt ->
     (exists r, In r (temporaryProduct w') /\ id r = id item) /\
     (forall r, In r (temporaryProduct w') -> id r = id item ->
        deletedAt r = Some (now w')) /\
     map cleanupAttempts (temporaryProduct w') =
       map cleanupAttempts (temporaryProduct w)) /\
  ((exists e, res = Threw e) -> temporaryProduct w' = temporaryProduct w).
Proof.
  intros Hin res w'.
  destruct (primitive_failure env item w) as [e|] eqn:Hpf.
  - destruct (deleteTemporaryVariant_fails item w e Hpf)
      as [w1 [Hrun [Htab [_ [_ [_ [_ [Htr _]]]]]]]].
    subst res w'. rewrite Hrun. cbn.
    unfold primitive_failure in Hpf.
    destruct (session_reply env item w) as [s|] eqn:Hs.
    + destruct (catalog_error env item w) as [e1|] eqn:Hc; [|discriminate].
      destruct (is_404 e1) eqn:H404; [discriminate|]. injection Hpf as <-.
      repeat split.
      * intros _. right. split; [discriminate|]. now exists e1.
      * intros _. now exists e1.
      * discriminate.
      * discriminate.
      * intros e2 _ [= <-]. now rewrite H404.
      * discriminate.
      * discriminate.
      * discriminate.
      * intros _. exact Htab.
    + injection Hpf as <-. repeat split.
      * intros _. now left.
      * intros _. eexists. reflexivity.
      * apply Htr. reflexivity.
      * intros e2 Hne. now elim Hne.
      * discriminate.
      * discriminate.
      * discriminate.
      * intros _. exact Htab.
  - destruct (deleteTemporaryVariant_succeeds item w Hpf Hin)
      as [w1 [Hrun [Htab _]]].
    subst res w'. rewrite Hrun. cbn.
    unfold primitive_failure in Hpf.
    destruct (session_reply env item w) as [s|] eqn:Hs; [|discriminate].
    repeat split.
    + intros [e He]. discriminate.
    + intros [Hn | [_ [e [Hc H404]]]]; [discriminate|].
      rewrite Hc, H404 in Hpf. discriminate.
    + discriminate.
    + discriminate.
    + intros e _ Hc. rewrite Hc in Hpf.
      destruct (is_404 e); [reflexivity | discriminate].
    + unfold ids in Hin. apply in_map_iff in Hin. destruct Hin as [x [Hx Hin]].
      exists (set_deletedAt (Some (now w1)) x). split; [|exact Hx].
      rewrite Htab. apply in_map_iff. exists x. split; [|exact Hin].
      rewrite Hx, String.eqb_refl. reflexivity.
    + intros r Hr Hid. rewrite Htab in Hr.
      destruct (In_updated_row _ _ _ _ Hr (fun _ => eq_refl) Hid) as [x [_ [_ ->]]].
      reflexivity.
    + rewrite Htab, map_map. apply map_ext. intros x.
      now destruct (String.eqb (id x) (id item)).
    + intros [e He]. discriminate.
Qed.


(** *** The sweep's query: an ordered selection *)

Lemma insert_asc_perm r l : Permutation (insert_asc r l) (r :: l).
Proof.
  induction l as [|x l IH]; cbn; [reflexivity|].
  destruct (scheduledDeletionAt r <=? scheduledDeletionAt x); [reflexivity|].
  rewrite IH. apply perm_swap.
Qed.


Lemma orderBy_perm l : Permutation (orderBy_scheduledDeletionAt_asc l) l.
Proof.
  induction l as [|x l IH]; cbn; [reflexivity|].
  rewrite insert_asc_perm. now constructor.
Qed.


Lemma sweep_where_iff t r :
  sweep_where t r = true <->
  deletedAt r = None /\ isOrdered r = false /\ scheduledDeletionAt r <= t.
Proof.
  unfold sweep_where, is_null. rewrite !andb_true_iff, Z.leb_le, negb_true_iff.
  destruct (deletedAt r); intuition congruence.
Qed.

Lemma sweep_findMany_In t rows r :
  In r (sweep_findMany t rows) <->
  In r rows /\ deletedAt r = None /\ isOrdered r = false /\ scheduledDeletionAt r <= t.
Proof.
  unfold sweep_findMany. rewrite <- sweep_where_iff, <- filter_In. split.
  - apply Permutation_in, orderBy_perm.
  - apply Permutation_in. symmetry. apply orderBy_perm.
Qed.



(** *** The frequent sweep *)

Lemma sweep_item_run item stats w :
  In (id item) (ids w) ->
  exists stats' w',
    sweep_item env item stats w = (Ok (stats', None), w') /\
    attempts w' = (attempts w ++ [Some (variantId item)])%list /\
    loads w' = (loads w ++ [LoadSession (sessionId item)])%list /\
    ids w' = ids w /\
    deleted stats' + errors stats' = deleted stats + errors stats + 1 /\
    checked stats' = checked stats.
Proof.
  intros Hin. unfold sweep_item.
  destruct (primitive_failure env item w) as [e|] eqn:Hpf.
  - destruct (deleteTemporaryVariant_fails item w e Hpf)
      as [w1 [Hrun [Htab [Hlog [_ [_ [_ [_ [cs [Htr Hcs]]]]]]]]]].
    erewrite try_catch_threw by (apply bind_threw; exact Hrun).
    assert (Hin1 : In (id item) (ids w1)) by (unfold ids; now rewrite Htab).
    erewrite bind_ok.
    2:{ eapply attempt_ok. erewrite bind_ok by apply trackError_run.
        erewrite bind_ok by (apply update_run; exact Hin1).
        apply logCleanupAction_run. }
    eexists. eexists. split; [reflexivity|].
    unfold attempts, loads, ids. cbn. repeat split.
    + rewrite Hlog, !filter_app, !map_app. cbn.
      destruct (alarm_due e _ w1); cbn; now rewrite ?app_nil_r.
    + apply (loads_extended w w1 _ cs Htr Hcs).
    + rewrite Htab. apply map_id_update. reflexivity.
    + lia.
  - destruct (deleteTemporaryVariant_succeeds item w Hpf Hin)
      as [w1 [Hrun [Htab [Hlog [_ [_ [_ [cs [Htr Hcs]]]]]]]]].
    erewrite try_catch_ok.
    2:{ erewrite bind_ok by exact Hrun. erewrite bind_ok by apply logCleanupAction_run.
        reflexivity. }
    eexists. eexists. split; [reflexivity|].
    unfold attempts, loads, ids. cbn. repeat split.
    + rewrite Hlog, !filter_app, !map_app. reflexivity.
    + apply (loads_extended w w1 _ cs Htr Hcs).
    + rewrite Htab. apply map_id_update. reflexivity.
    + lia.
Qed.

(** In the sweep a failed deletion is written back to the record. *)
Lemma sweep_item_records_failure item stats w e :
  In (id item) (ids w) ->
  primitive_failure env item w = Some e ->
  temporaryProduct (snd (sweep_item env item stats w)) =
  map (fun r => if String.eqb (id r) (id item)
                then set_cleanup_failure (failure_text e) r else r)
      (temporaryProduct w).
Proof.
  intros Hin Hpf. unfold sweep_item.
  destruct (deleteTemporaryVariant_fails item w e Hpf)
    as [w1 [Hrun [Htab _]]].
  erewrite try_catch_threw by (apply bind_threw; exact Hrun).
  assert (Hin1 : In (id item) (ids w1)) by (unfold ids; now rewrite Htab).
  erewrite bind_ok.
  2:{ eapply attempt_ok. erewrite bind_ok by apply trackError_run.
      erewrite bind_ok by (apply update_run; exact Hin1).
      apply logCleanupAction_run. }
  cbn. now rewrite Htab.
Qed.

Lemma sweep_loop_run items : forall stats w,
  (forall item, In item items -> In (id item) (ids w)) ->
  exists stats' w',
    sweep_loop env items stats w = (Ok (stats', None), w') /\
    attempts w' = (attempts w ++ map (fun r => Some (variantId r)) items)%list /\
    loads w' = (loads w ++ map (fun r => LoadSession (sessionId r)) items)%list /\
    ids w' = ids w /\
    deleted stats' + errors stats' =
      deleted stats + errors stats + Z.of_nat (List.length items) /\
    checked stats' = checked stats.
Proof.
  induction items as [|item items IH]; intros stats w Hids.
  - exists stats, w. cbn. rewrite !app_nil_r. repeat split; lia.
  - destruct (sweep_item_run item stats w (Hids item (or_introl eq_refl)))
      as [s1 [w1 [Hrun [Hatt [Hld [Hid [Hcnt Hchk]]]]]]].
    destruct (IH s1 w1) as [s2 [w2 [Hrun2 [Hatt2 [Hld2 [Hid2 [Hcnt2 Hchk2]]]]]]].
    { intros x Hx. rewrite Hid. apply Hids. now right. }
    exists s2, w2. cbn [sweep_loop]. erewrite bind_ok by exact Hrun.
    split; [exact Hrun2|].
    rewrite Hatt2, Hatt, Hld2, Hld, Hid2, Hid, <- !app_assoc. cbn [map app].
    repeat split; try congruence.
    rewrite Hcnt2, Hcnt. cbn [List.length]. lia.
Qed.



End WithEnv.

(** *** The worker on concrete worlds *)

(** C6, at a variant that the catalog no longer has: the read answers 404,
    no delete is sent, and the record is marked deleted. *)
Lemma deleteTemporaryVariant_absent_variant :
  In (id gone_row) (ids world_mixed) /\
  fst (deleteTemporaryVariant env_mixed gone_row world_mixed) = Ok tt /\
  trace (snd (deleteTemporaryVariant env_mixed gone_row world_mixed)) =
    [LoadSession (Some "s1"); Get "variants/v404"] /\
  forall r,
    In r (temporaryProduct (snd (deleteTemporaryVariant env_mixed gone_row world_mixed))) ->
    id r = id gone_row ->
    deletedAt r = Some (now (snd (deleteTemporaryVariant env_mixed gone_row world_mixed))).
Proof.
  assert (Hin : In (id gone_row) (ids world_mixed)) by (vm_compute; auto).
  split; [exact Hin|].
  split; [reflexivity|].
  split; [reflexivity|].
  destruct (deleteTemporaryVariant_fails_iff env_mixed gone_row world_mixed Hin)
    as [_ [_ [_ [Hok _]]]].
  apply Hok. reflexivity.
Defined.

(** C9, at three records whose deletion fails in one sweep: one alarm. *)
Lemma three_failures_one_alarm :
  let w1 := world_at 1000 [] in
  let w2 := world_at 61000 [] in
  let w3 := world_at 121000 [] in
  let e := Js.new_Error "Admin session not found" in
  let c := CtxStage "cleanup_pass" in
  let after1 := snd (trackError e c w1) in
  let after2 := snd (trackError e c (set_recentErrors (recentErrors after1) w2)) in
  let after3 := snd (trackError e c (set_recentErrors (recentErrors after2) w3)) in
  alarms after1 = [] /\ alarms after2 = [] /\
  alarms after3 =
    [alarm_entry 121000
       [tracked_entry e c w1; tracked_entry e c w2; tracked_entry e c w3]] /\
  List.length (alarms (snd (runCleanupPass env_ok world_three_failures))) = 1%nat.
Proof.
  cbv zeta.
  destruct (proj2 tracker_alarm_at_threshold
              (Js.new_Error "Admin session not found") (CtxStage "cleanup_pass")
              (Js.new_Error "Admin session not found") (CtxStage "cleanup_pass")
              (Js.new_Error "Admin session not found") (CtxStage "cleanup_pass")
              (world_at 1000 [])
              (set_recentErrors
                 (recentErrors
                    (snd (trackError (Js.new_Error "Admin session not found")
                            (CtxStage "cleanup_pass") (world_at 1000 []))))
                 (world_at 61000 []))
              (set_recentErrors
                 (recentErrors
                    (snd (trackError (Js.new_Error "Admin session not found")
                            (CtxStage "cleanup_pass")
                            (set_recentErrors
                               (recentErrors
                                  (snd (trackError
                                          (Js.new_Error "Admin session not found")
                                          (CtxStage "cleanup_pass")
                                          (world_at 1000 []))))
                               (world_at 61000 [])))))
                 (world_at 121000 [])))
    as [H1 [H2 H3]].
  - intros x [].
  - reflexivity.
  - reflexivity.
  - vm_compute. discriminate.
  - vm_compute. discriminate.
  - vm_compute. reflexivity.
  - split; [exact H1|]. split; [exact H2|]. split; [exact H3|].
    vm_compute. reflexivity.
Defined.

(** C1, where the code departs from it.  A variant that was ordered, 25
    hours old: the frequent sweep does not select it, but the daily full
    scan reads it from the catalog, deletes it there and marks it deleted. *)
Theorem daily_scan_deletes_ordered_record :
  isOrdered ordered_row = true /\
  sweep_findMany (now world_ordered) (temporaryProduct world_ordered) = [] /\
  rest_calls (snd (runDailyFullScan env_ok world_ordered)) =
    [Get "variants/v1"; Delete "products/p1/variants/v1"] /\
  map (fun r => (id r, isOrdered r, deletedAt r))
      (temporaryProduct (snd (runDailyFullScan env_ok world_ordered))) =
    [("r1", true, Some 90000040)] /\
  map l_message (cleanupLog (snd (runDailyFullScan env_ok world_ordered))) =
    ["Daily full scan completed: 1 deleted, 0 errors from 1 total"].
Proof. vm_compute. repeat split; reflexivity. Qed.

(** C3, where the code departs from it.  A record whose session is gone, 25
    hours old: in the daily full scan the failed deletion is printed and
    counted, but the record keeps [cleanupAttempts = 0] and no
    [lastCleanupError], and the tracker is not told; the frequent sweep on
    the same world writes both fields. *)
Theorem daily_scan_failure_not_recorded :
  console (snd (runDailyFullScan env_ok world_orphan)) =
    [("Günlük tarama hatası (v2):",
      ErrorValue (Js.new_Error "Admin session not found"))] /\
  map l_message (cleanupLog (snd (runDailyFullScan env_ok world_orphan))) =
    ["Daily full scan completed: 0 deleted, 1 errors from 1 total"] /\
  map (fun r => (cleanupAttempts r, lastCleanupError r))
      (temporaryProduct (snd (runDailyFullScan env_ok world_orphan))) =
    [(0, None)] /\
  recentErrors (snd (runDailyFullScan env_ok world_orphan)) = [] /\
  map (fun r => (cleanupAttempts r, lastCleanupError r))
      (temporaryProduct (snd (runCleanupPass env_ok world_orphan))) =
    [(1, Some "Admin session not found")].
Proof. vm_compute. repeat split; reflexivity. Qed.

End CleanupWorkerFacts.

(** ** Properties of the provisioning route *)

Module CustomProductFacts.

Import Sys SysFacts CustomProduct CustomProductView Scenarios.
Local Open Scope js_scope.

(** *** Price validation *)

Lemma Qltb_lt a b : Js.Qltb a b = true <-> (a < b)%Q.
Proof.
  unfold Js.Qltb. rewrite negb_true_iff. split.
  - intros H. apply Qnot_le_lt. intros Hle. apply Qle_bool_iff in Hle. congruence.
  - intros H. destruct (Qle_bool b a) eqn:E; [|reflexivity].
    apply Qle_bool_iff in E. exfalso. exact (Qlt_not_le _ _ H E).
Qed.





(** *** The trace only grows *)

Lemma extends_refl w : extends w w.
Proof. exists []. now rewrite app_nil_r. Qed.

Lemma extends_trans w1 w2 w3 : extends w1 w2 -> extends w2 w3 -> extends w1 w3.
Proof.
  intros [a Ha] [b Hb]. exists (a ++ b)%list. now rewrite Hb, Ha, app_assoc.
Qed.

Lemma mono_ret {A} (a : A) : mono (ret a).
Proof. intros w. apply extends_refl. Qed.

Lemma mono_throw {A} e : mono (@throw A e).
Proof. intros w. apply extends_refl. Qed.

Lemma mono_gets {A} (f : World -> A) : mono (gets f).
Proof. intros w. apply extends_refl. Qed.

Lemma mono_Date_now : mono Date_now.
Proof. intros w. apply extends_refl. Qed.

Lemma mono_modify f : (forall w, trace (f w) = trace w) -> mono (modify f).
Proof. intros H w. exists []. cbn. now rewrite H, app_nil_r. Qed.

Lemma mono_bind {A B} (m : M A) (k : A -> M B) :
  mono m -> (forall a, mono (k a)) -> mono (bind m k).
Proof.
  intros Hm Hk w. unfold bind. specialize (Hm w).
  destruct (m w) as [[a|e] w1]; cbn in *; [|exact Hm].
  eapply extends_trans; [exact Hm | apply Hk].
Qed.

Lemma mono_try_catch {A} (m : M A) h :
  mono m -> (forall e, mono (h e)) -> mono (try_catch m h).
Proof.
  intros Hm Hh w. unfold try_catch. specialize (Hm w).
  destruct (m w) as [[a|e] w1]; cbn in *; [exact Hm|].
  eapply extends_trans; [exact Hm | apply Hh].
Qed.

Lemma mono_reify {A} (m : M A) : mono m -> mono (reify m).
Proof.
  intros Hm w. unfold reify. specialize (Hm w).
  destruct (m w) as [[a|e] w1]; exact Hm.
Qed.

Lemma mono_admin env c : mono (admin env c).
Proof.
  intros w. unfold admin. exists [c].
  destruct (outcome (rest env (trace w) c)); reflexivity.
Qed.

Lemma mono_withTimeout env c : mono (withTimeout env c).
Proof.
  intros w. unfold withTimeout.
  destruct (API_TIMEOUT <=? _); [exists [c]; reflexivity | apply mono_admin].
Qed.

Lemma mono_sleep ms : mono (sleep ms).
Proof. intros w. exists [SetTimeout ms]. reflexivity. Qed.

Lemma mono_loadSession env sid : mono (loadSession env sid).
Proof. intros w. exists [LoadSession sid]. reflexivity. Qed.

Lemma mono_console_error label d : mono (console_error label d).
Proof. apply mono_modify. reflexivity. Qed.

Lemma mono_requestCache_delete key : mono (requestCache_delete key).
Proof. apply mono_modify. reflexivity. Qed.

Lemma mono_cleanupLog_create a p v m d : mono (prisma_cleanupLog_create a p v m d).
Proof. apply mono_modify. reflexivity. Qed.

Lemma mono_temporaryProduct_create env a b c d e f g h i j :
  mono (prisma_temporaryProduct_create env a b c d e f g h i j).
Proof.
  unfold prisma_temporaryProduct_create.
  destruct d, e, h, g; try apply mono_throw. apply mono_modify. reflexivity.
Qed.

Create HintDb mono discriminated.

#[local] Hint Resolve mono_ret mono_throw mono_gets mono_Date_now mono_admin mono_withTimeout
  mono_sleep mono_loadSession mono_console_error mono_requestCache_delete
  mono_cleanupLog_create mono_temporaryProduct_create : mono.

(** Breaks a computation into its steps, down to the primitives. *)
Ltac mono_step :=
  match goal with
  | |- mono (bind _ _) => apply mono_bind; [|intros]
  | |- mono (try_catch _ _) => apply mono_try_catch; [|intros]
  | |- mono (reify _) => apply mono_reify
  | |- mono (match ?x with _ => _ end) => destruct x
  | |- mono (let _ := _ in _) => cbv zeta
  | |- mono (modify _) => apply mono_modify; reflexivity
  | |- mono _ => solve [auto with mono]
  end.

Ltac mono_auto := repeat mono_step.

Section WithEnv.

Variable env : Env.

Lemma mono_findExistingVariant pid boy en mat :
  mono (findExistingVariant env pid boy en mat).
Proof. unfold findExistingVariant. mono_auto. Qed.

Lemma mono_poll_loop n vid p : forall i, mono (poll_loop env n vid p i).
Proof.
  induction n as [|n IH]; intros i; cbn [poll_loop]; [apply mono_ret|].
  apply mono_bind; [unfold poll_once; mono_auto|].
  intros [v|]; [apply mono_ret | apply IH].
Qed.

Lemma mono_waitForVariantReady vid p n : mono (waitForVariantReady env vid p n).
Proof.
  unfold waitForVariantReady. apply mono_bind; [apply mono_poll_loop|].
  intros r. mono_auto.
Qed.

Lemma mono_create_variant pid data p ps : mono (create_variant env pid data p ps).
Proof.
  unfold create_variant. apply mono_bind; [auto with mono|]. intros b.
  destruct (variant b); [|apply mono_throw].
  apply mono_bind; [apply mono_waitForVariantReady|]. intros r.
  unfold manual_price_update. mono_auto.
Qed.

Lemma mono_creation_failed err pid boy en mat p key rid :
  mono (creation_failed env err pid boy en mat p key rid).
Proof.
  unfold creation_failed. apply mono_bind; [auto with mono|]. intros _.
  apply mono_bind; [auto with mono|]. intros _.
  apply mono_bind.
  - destruct (already_exists err); [apply mono_findExistingVariant | apply mono_ret].
  - intros r. mono_auto.
Qed.

Lemma mono_persist_and_respond s a pid boy en mat bi ei ar p wt key rid ps v :
  mono (persist_and_respond env s a pid boy en mat bi ei ar p wt key rid ps v).
Proof. unfold persist_and_respond. mono_auto. Qed.

Lemma mono_creation_path s a pid boy en mat bi ei ar p wt key rid :
  mono (creation_path env s a pid boy en mat bi ei ar p wt key rid).
Proof.
  unfold creation_path. apply mono_bind; [apply mono_gets|]. intros t.
  apply mono_bind; [apply mono_gets|]. intros sfx.
  apply mono_bind; [apply mono_reify, mono_create_variant|]. intros r.
  destruct r as [err|[v|]].
  - apply mono_creation_failed.
  - apply mono_persist_and_respond.
  - mono_auto.
Qed.

End WithEnv.

(** *** Admission *)

Section Admission.

Variable env : Env.

(** A request that is accepted runs [provision] right after the session
    lookup. *)
Lemma action_accepted request w session adminSession baseVariantId boy en materyal p :
  accepted env request w session adminSession baseVariantId boy en materyal p ->
  action env request w =
  try_catch
    (provision env session adminSession baseVariantId boy en materyal p
       (requestId_of (form request) (now w)))
    (on_system_error) (after_load w (session_id session)).
Proof.
  intros (Hp & Hs & Hid & Hbv & Hboy & Hen & Hmat & Tbv & Tboy & Ten & Tmat
          & raw & Hraw & Traw & Hval).
  unfold action, try_catch at 1. rewrite Hp.
  unfold bind at 1, loadSession. rewrite Hs. cbn iota beta. rewrite Hid.
  cbn [negb]. unfold bind at 1, Date_now, gets. cbn iota beta.
  rewrite Hbv, Hboy, Hen, Hmat, Hraw, Tbv, Tboy, Ten, Tmat, Traw. cbn [negb orb].
  rewrite Hval. reflexivity.
Qed.

(** The de-duplication stage, spelled out. *)
Lemma dedup_run key rid w :
  let pruned := cleanupCache_at (now w) (requestCache w) in
  let entry := {| c_timestamp := now w; c_requestId := rid |} in
  dedup key rid w =
  match cache_get key pruned with
  | Some c =>
      if now w - c_timestamp c <? 3000
      then (Ok (Some duplicate_response), set_requestCache pruned w)
      else (Ok None, set_requestCache (cache_set key entry pruned) w)
  | None => (Ok None, set_requestCache (cache_set key entry pruned) w)
  end.
Proof.
  cbv zeta. unfold dedup, cleanupCache, bind, Date_now, gets, modify, ret. cbn.
  destruct (cache_get key (cleanupCache_at (now w) (requestCache w))) as [c|];
    [|reflexivity].
  destruct (now w - c_timestamp c <? 3000); reflexivity.
Qed.







(** C4, as amended.  When the base variant, the width, the height, the
    material or the price is missing or empty, the request is answered with
    status 400, [errorType] "validation" and one message that names no
    field, before any catalog call.  (Nothing else is asked of the width
    and the height.) *)
Theorem incomplete_form_rejected request w session adminSession :
  proxy request = Some session ->
  sessions env (trace w) (session_id session) = Some adminSession ->
  Js.truthy_opt (session_id adminSession) = true ->
  Js.truthy_opt (f_baseVariantId (form request)) = false \/
  Js.truthy_opt (f_boy (form request)) = false \/
  Js.truthy_opt (f_en (form request)) = false \/
  Js.truthy_opt (f_materyal (form request)) = false \/
  Js.truthy_opt (f_calculatedPrice (form request)) = false ->
  action env request w =
    (Ok validation_response, after_load w (session_id session)) /\
  status validation_response = 400 /\
  errorType (json validation_response) = Some "validation" /\
  r_error (json validation_response) =
    Some "Eksik bilgi: Lütfen tüm alanları doldurun." /\
  rest_calls (after_load w (session_id session)) = rest_calls w.
Proof.
  intros Hp Hs Hid Hmissing.
  refine (conj _ (conj eq_refl (conj eq_refl (conj eq_refl _)))).
  - unfold action, try_catch at 1. rewrite Hp.
    unfold bind at 1, loadSession. rewrite Hs. cbn iota beta. rewrite Hid.
    cbn [negb]. unfold bind at 1, Date_now, gets. cbn iota beta.
    destruct (f_baseVariantId (form request)) as [bv|]; [|reflexivity].
    destruct (f_boy (form request)) as [boy|]; [|reflexivity].
    destruct (f_en (form request)) as [en|]; [|reflexivity].
    destruct (f_materyal (form request)) as [mat|]; [|reflexivity].
    destruct (f_calculatedPrice (form request)) as [raw|]; [|reflexivity].
    cbn in Hmissing.
    destruct (Js.truthy bv); [|reflexivity].
    destruct (Js.truthy boy); [|reflexivity].
    destruct (Js.truthy en); [|reflexivity].
    destruct (Js.truthy mat); [|reflexivity].
    destruct (Js.truthy raw); [|reflexivity].
    intuition discriminate.
  - unfold rest_calls. cbn. rewrite filter_app. cbn. now rewrite app_nil_r.
Qed.

End Admission.

(** *** The price polling loop *)

Section Polling.

Variable env : Env.

Lemma withTimeout_trace c w :
  trace (snd (withTimeout env c w)) = (trace w ++ [c])%list.
Proof.
  unfold withTimeout, admin. destruct (API_TIMEOUT <=? _); [reflexivity|].
  destruct (outcome _); reflexivity.
Qed.

Lemma admin_trace c w : trace (snd (admin env c w)) = (trace w ++ [c])%list.
Proof. unfold admin. destruct (outcome _); reflexivity. Qed.

Lemma poll_once_run vid p i w :
  exists r w',
    poll_once env vid p i w = (Ok r, w') /\
    trace w' =
      (trace w ++ [SetTimeout (600 * (i + 1)); Get (variant_path vid)])%list /\
    (forall v, r = Some v -> price_matches p v = true).
Proof.
  unfold poll_once, try_catch, bind, sleep, modify. cbn iota beta.
  set (w1 := set_clock _ _ w).
  pose proof (withTimeout_trace (Get ("variants/" ++ Js.string_of_Z vid)) w1) as Ht.
  destruct (withTimeout env _ w1) as [[b|e] w2]; cbn in Ht.
  - destruct (variant b) as [v|] eqn:Hv.
    + destruct (price v) as [pr|] eqn:Hp.
      * destruct (Js.abs_diff_ltb (Js.parseFloat pr) p (1 # 100)) eqn:Hm.
        -- eexists. eexists. split; [reflexivity|]. split.
           ++ rewrite Ht. unfold w1. cbn. now rewrite <- app_assoc.
           ++ intros v' [= <-]. unfold price_matches. now rewrite Hp.
        -- eexists. eexists. split; [reflexivity|]. split.
           ++ rewrite Ht. unfold w1. cbn. now rewrite <- app_assoc.
           ++ discriminate.
      * eexists. eexists. split; [reflexivity|]. split.
        -- rewrite Ht. unfold w1. cbn. now rewrite <- app_assoc.
        -- discriminate.
    + eexists. eexists. split; [reflexivity|]. split.
      * rewrite Ht. unfold w1. cbn. now rewrite <- app_assoc.
      * discriminate.
  - eexists. eexists. split; [reflexivity|]. split.
    + cbn. rewrite Ht. unfold w1. cbn. now rewrite <- app_assoc.
    + discriminate.
Qed.

Lemma poll_loop_run n vid p : forall i w,
  exists r w' k,
    poll_loop env n vid p i w = (Ok r, w') /\
    (k <= n)%nat /\
    trace w' = (trace w ++ backoff_calls (variant_path vid) i k)%list /\
    match r with
    | Some v => price_matches p v = true /\ (1 <= k)%nat
    | None => k = n
    end.
Proof.
  induction n as [|n IH]; intros i w.
  - exists None, w, O. cbn. rewrite app_nil_r. auto.
  - destruct (poll_once_run vid p i w) as [r [w1 [Hrun [Ht Hm]]]].
    cbn [poll_loop]. unfold bind at 1. rewrite Hrun.
    destruct r as [v|].
    + exists (Some v), w1, 1%nat. cbn. repeat split; auto; lia.
    + destruct (IH (i + 1) w1) as [r2 [w2 [k [Hrun2 [Hk [Ht2 Hr2]]]]]].
      exists r2, w2, (S k). split; [exact Hrun2|]. split; [lia|]. split.
      * rewrite Ht2, Ht, <- app_assoc. reflexivity.
      * destruct r2; [split; [apply Hr2 | lia] | lia].
Qed.

(** [waitForVariantReady] always returns: with a variant whose price
    matched at one of at most eight polls, or, after eight polls without a
    match, with whatever one more read gives. *)
Lemma waitForVariantReady_run vid p w :
  exists r w',
    waitForVariantReady env vid p maxRetries_default w = (Ok r, w') /\
    ((exists v k,
        r = Some v /\ price_matches p v = true /\ (1 <= k <= 8)%nat /\
        trace w' = (trace w ++ backoff_calls (variant_path vid) 0 k)%list) \/
     trace w' =
       (trace w ++ backoff_calls (variant_path vid) 0 8
                ++ [Get (variant_path vid)])%list).
Proof.
  unfold waitForVariantReady, maxRetries_default.
  destruct (poll_loop_run 8 vid p 0 w) as [r [w1 [k [Hrun [Hk [Ht Hr]]]]]].
  unfold bind at 1. rewrite Hrun. destruct r as [v|].
  - exists (Some v), w1. split; [reflexivity|]. left.
    exists v, k. destruct Hr. repeat split; auto.
  - subst k. unfold try_catch, bind.
    pose proof (admin_trace (Get ("variants/" ++ Js.string_of_Z vid)) w1) as Hta.
    destruct (admin env _ w1) as [[b|e] w2]; cbn in Hta.
    + eexists. eexists. split; [reflexivity|]. right.
      rewrite Hta, Ht, <- app_assoc. reflexivity.
    + eexists. eexists. split; [reflexivity|]. right. cbn.
      rewrite Hta, Ht, <- app_assoc. reflexivity.
Qed.

End Polling.

(** *** The creation path *)

Section Creation.

Variable env : Env.

Lemma manual_price_update_run nv ps w :
  exists r w' tail,
    manual_price_update env nv ps w = (Ok r, w') /\
    trace w' =
      (trace w ++ Put (variant_path (v_id nv)) (v_id nv) ps :: tail)%list /\
    (tail = [] \/ tail = [SetTimeout 500; Get (variant_path (v_id nv))]).
Proof.
  unfold manual_price_update, try_catch. unfold bind at 1.
  pose proof (admin_trace env
                (Put ("variants/" ++ Js.string_of_Z (v_id nv)) (v_id nv) ps) w) as Hp.
  destruct (admin env (Put _ _ _) w) as [[b|e] w1]; cbn in Hp.
  - unfold bind at 1, sleep, modify. cbn iota beta. set (w2 := set_clock _ _ w1).
    unfold bind at 1.
    pose proof (admin_trace env (Get ("variants/" ++ Js.string_of_Z (v_id nv))) w2) as Hg.
    assert (Hw2 : trace w2 =
                  (trace w ++ [Put (variant_path (v_id nv)) (v_id nv) ps;
                               SetTimeout 500])%list).
    { unfold w2. cbn. rewrite Hp, <- app_assoc. reflexivity. }
    destruct (admin env (Get _) w2) as [[b2|e2] w3]; cbn [snd] in Hg.
    + destruct (variant b2) as [v|].
      * eexists. eexists. eexists. split; [reflexivity|]. split; [|right; reflexivity].
        rewrite Hg, Hw2, <- app_assoc. reflexivity.
      * eexists. eexists. eexists. split; [reflexivity|]. split; [|right; reflexivity].
        cbn. rewrite Hg, Hw2, <- app_assoc. reflexivity.
    + eexists. eexists. eexists. split; [reflexivity|]. split; [|right; reflexivity].
      cbn. rewrite Hg, Hw2, <- app_assoc. reflexivity.
  - eexists. eexists. eexists. split; [reflexivity|]. split; [|left; reflexivity].
    cbn. rewrite Hp. reflexivity.
Qed.



Lemma persist_and_respond_run s a pid boy en mat bi ei ar p wt key rid ps v w :
  exists w',
    persist_and_respond env s a pid boy en mat bi ei ar p wt key rid ps v w =
      (Ok (created_response v pid p wt ps rid), w') /\
    trace w' = trace w.
Proof.
  unfold persist_and_respond, bind, try_catch, Date_now, gets,
    prisma_temporaryProduct_create, prisma_cleanupLog_create, requestCache_delete,
    console_error, modify, throw, ret.
  destruct bi, ei, ar, p; cbn; eexists; split; reflexivity.
Qed.

Lemma findExistingVariant_run pid boy en mat w :
  exists r w', findExistingVariant env pid boy en mat w = (Ok r, w').
Proof.
  unfold findExistingVariant, try_catch, bind.
  destruct (withTimeout env _ w) as [[b|e] w1]; eexists; eexists; reflexivity.
Qed.

(** The [catch] block of the creation answers; it answers with an existing
    variant only when the catalog said "already exists" and a second
    lookup found the variant. *)
Lemma creation_failed_run err pid boy en mat p key rid w :
  exists resp w',
    creation_failed env err pid boy en mat p key rid w = (Ok resp, w') /\
    (usedExisting (json resp) = None \/
     (already_exists err = true /\
      exists rv w1,
        findExistingVariant env pid boy en mat w1 = (Ok (Some rv), w') /\
        trace w1 = trace w /\
        resp = existing_response (v_id rv) (price_or (price rv) p) pid rid)).
Proof.
  unfold creation_failed. unfold bind at 1, console_error, modify. cbn iota beta.
  unfold bind at 1, requestCache_delete, modify. cbn iota beta.
  set (w1 := set_requestCache _ _).
  destruct (already_exists err) eqn:Hae.
  - destruct (findExistingVariant_run pid boy en mat w1) as [r [w2 Hrun]].
    unfold bind. rewrite Hrun. destruct r as [rv|].
    + eexists. eexists. split; [reflexivity|]. right. split; [reflexivity|].
      exists rv, w1. auto.
    + destruct (isTimeout err); eexists; eexists; (split; [reflexivity | now left]).
  - unfold bind, ret. cbn iota beta.
    destruct (isTimeout err); eexists; eexists; (split; [reflexivity | now left]).
Qed.

Lemma creation_path_run s a pid boy en mat bi ei ar p wt key rid w :
  creation_path env s a pid boy en mat bi ei ar p wt key rid w =
  match create_variant env pid
          (variantData_of pid boy en mat p wt (now w) (math_random env (trace w)))
          p (Js.toFixed_2 p) w with
  | (Threw err, w1) => creation_failed env err pid boy en mat p key rid w1
  | (Ok None, w1) =>
      (Threw (Js.new_Error "Shopify variant oluşturulamadı (boş response)."),
       set_requestCache (cache_delete key (requestCache w1)) w1)
  | (Ok (Some v), w1) =>
      persist_and_respond env s a pid boy en mat bi ei ar p wt key rid
        (Js.toFixed_2 p) v w1
  end.
Proof.
  unfold creation_path, bind, Date_now, gets, reify. cbn iota beta.
  destruct (create_variant env _ _ _ _ w) as [[[v|]|e] w1]; reflexivity.
Qed.

End Creation.

(** *** From the response back to the path that produced it *)

Section Paths.

Variable env : Env.

Lemma dedup_cases key rid w :
  exists r w',
    dedup key rid w = (Ok r, w') /\ trace w' = trace w /\
    (r = None \/ r = Some duplicate_response).
Proof.
  rewrite dedup_run. cbv zeta.
  destruct (cache_get key _) as [c|].
  - destruct (now w - c_timestamp c <? 3000); eexists; eexists;
      (split; [reflexivity|]); split; auto.
  - eexists; eexists; (split; [reflexivity|]); split; auto.
Qed.


Lemma load_base_variant_ok bv key w body w' base :
  withTimeout env (Get ("variants/" ++ bv)) w = (Ok body, w') ->
  variant body = Some base ->
  load_base_variant env bv key w = (Ok (inr base), w').
Proof.
  intros Hb Hv. unfold load_base_variant, bind, reify. rewrite Hb, Hv. reflexivity.
Qed.





End Paths.

(** *** The price of a created variant *)

Section Price.

Variable env : Env.


End Price.

(** *** The lookup of an existing variant *)

Section Lookup.

Variable env : Env.

Lemma findExistingVariant_fails pid boy en mat w :
  listing_fails env w pid ->
  exists e w',
    findExistingVariant env pid boy en mat w = (Ok None, w') /\
    trace w' = (trace w ++ [Get (listing_path pid)])%list /\
    console w' =
      (console w ++ [("Mevcut varyant arama hatası:", ErrorValue e)])%list /\
    requestCache w' = requestCache w.
Proof.
  unfold listing_fails, listing_path, findExistingVariant, try_catch, bind,
    withTimeout, admin.
  intros [Hslow | [e He]].
  - apply Z.leb_le in Hslow. rewrite Hslow.
    eexists. eexists. split; [reflexivity|]. cbn. auto.
  - destruct (API_TIMEOUT <=? _).
    + eexists. eexists. split; [reflexivity|]. cbn. auto.
    + rewrite He. eexists. eexists. split; [reflexivity|]. cbn. auto.
Qed.

Lemma create_variant_posts pid data p ps w :
  exists more,
    trace (snd (create_variant env pid data p ps w)) =
    (trace w ++ Post (listing_path pid) data :: more)%list.
Proof.
  unfold create_variant. unfold bind at 1.
  pose proof (withTimeout_trace env
                (Post ("products/" ++ Js.string_of_Z pid ++ "/variants") data) w) as Hpost.
  destruct (withTimeout env (Post _ _) w) as [[b|e] w1]; cbn [snd] in Hpost.
  - destruct (variant b) as [created|].
    + assert (Hm : mono
        (bind (waitForVariantReady env (v_id created) p maxRetries_default)
           (fun readyVariant =>
              if price_blank
                   (price match readyVariant with Some v => v | None => created end)
              then manual_price_update env
                     match readyVariant with Some v => v | None => created end ps
              else ret (Some match readyVariant with Some v => v | None => created end)))).
      { apply mono_bind; [apply mono_waitForVariantReady|]. intros r.
        unfold manual_price_update. mono_auto. }
      destruct (Hm w1) as [l Hl]. exists l. rewrite Hl, Hpost, <- app_assoc.
      reflexivity.
    + exists []. exact Hpost.
  - exists []. exact Hpost.
Qed.

Lemma creation_path_posts s a pid boy en mat bi ei ar p wt key rid w :
  exists more,
    trace (snd (try_catch
                  (creation_path env s a pid boy en mat bi ei ar p wt key rid)
                  on_system_error w)) =
    (trace w ++
     Post (listing_path pid)
       (variantData_of pid boy en mat p wt (now w) (math_random env (trace w)))
     :: more)%list.
Proof.
  unfold try_catch. rewrite creation_path_run.
  destruct (create_variant_posts pid
              (variantData_of pid boy en mat p wt (now w) (math_random env (trace w)))
              p (Js.toFixed_2 p) w) as [m1 H1].
  destruct (create_variant env _ _ _ _ w) as [[[v|]|err] w1]; cbn [snd] in H1.
  - destruct (persist_and_respond_run env s a pid boy en mat bi ei ar p wt key rid
                (Js.toFixed_2 p) v w1) as [w2 [Hp Ht]].
    rewrite Hp. exists m1. simpl snd. rewrite Ht. exact H1.
  - exists m1. simpl snd. exact H1.
  - destruct (creation_failed_run env err pid boy en mat p key rid w1)
      as [resp [w2 [Hf _]]].
    pose proof (mono_creation_failed env err pid boy en mat p key rid w1) as [l Hl].
    rewrite Hf in *. simpl snd in *. exists (m1 ++ l)%list.
    rewrite Hl, H1, <- app_assoc. reflexivity.
Qed.

(** C10.  The lookup of an existing variant never throws: when the listing
    of the product's variants fails, by an error or by the time limit, the
    error is printed and the lookup answers "no match".  The provisioner
    then goes on exactly as if the product had no such variant: it enters
    the creation path and sends the create call; the failure of the listing
    is not part of the response.  After that, an existing variant can only
    come back through the fallback: the create call failed with "already
    exists" and a second lookup found the variant. *)
Theorem lookup_failure_swallowed :
  (forall pid boy en mat w,
     exists r w', findExistingVariant env pid boy en mat w = (Ok r, w')) /\
  (forall pid boy en mat w,
     listing_fails env w pid ->
     exists e w',
       findExistingVariant env pid boy en mat w = (Ok None, w') /\
       trace w' = (trace w ++ [Get (listing_path pid)])%list /\
       console w' =
         (console w ++ [("Mevcut varyant arama hatası:", ErrorValue e)])%list /\
       requestCache w' = requestCache w) /\
  (forall request w session adm bv boy en mat p w1 body w2 base,
     accepted env request w session adm bv boy en mat p ->
     dedup (cacheKey_of boy en mat) (requestId_of (form request) (now w))
       (after_load w (session_id session)) = (Ok None, w1) ->
     withTimeout env (Get ("variants/" ++ bv)) w1 = (Ok body, w2) ->
     variant body = Some base ->
     listing_fails env w2 (product_id base) ->
     exists w3,
       action env request w =
         try_catch
           (creation_path env session adm (product_id base) boy en mat
              (Js.parseInt boy) (Js.parseInt en)
              (Js.mul (Js.parseInt boy) (Js.parseInt en)) p
              (calculateWeight (Js.parseInt boy) (Js.parseInt en) mat)
              (cacheKey_of boy en mat) (requestId_of (form request) (now w)))
           on_system_error w3 /\
       trace w3 =
         (trace w ++ [LoadSession (session_id session); Get ("variants/" ++ bv);
                      Get (listing_path (product_id base))])%list /\
       exists data more,
         trace (snd (action env request w)) =
         (trace w3 ++ Post (listing_path (product_id base)) data :: more)%list) /\
  (forall s a pid boy en mat bi ei ar p wt key rid w resp w',
     creation_path env s a pid boy en mat bi ei ar p wt key rid w = (Ok resp, w') ->
     usedExisting (json resp) = Some true ->
     exists data err w1 w2 rv,
       create_variant env pid data p (Js.toFixed_2 p) w = (Threw err, w1) /\
       already_exists err = true /\
       trace w2 = trace w1 /\
       findExistingVariant env pid boy en mat w2 = (Ok (Some rv), w') /\
       resp = existing_response (v_id rv) (price_or (price rv) p) pid rid).
Proof.
  refine (conj (findExistingVariant_run env) (conj findExistingVariant_fails (conj _ _))).
  - intros request w session adm bv boy en mat p w1 body w2 base
      Hacc Hd Hbase Hvar Hfail.
    destruct (findExistingVariant_fails (product_id base) boy en mat w2 Hfail)
      as [e [w3 [Hf [Ht3 _]]]].
    exists w3.
    assert (Hprov :
      provision env session adm bv boy en mat p (requestId_of (form request) (now w))
        (after_load w (session_id session)) =
      creation_path env session adm (product_id base) boy en mat
        (Js.parseInt boy) (Js.parseInt en)
        (Js.mul (Js.parseInt boy) (Js.parseInt en)) p
        (calculateWeight (Js.parseInt boy) (Js.parseInt en) mat)
        (cacheKey_of boy en mat) (requestId_of (form request) (now w)) w3).
    { unfold provision. fold (cacheKey_of boy en mat).
      erewrite bind_ok by exact Hd. cbn iota beta.
      erewrite bind_ok by (eapply load_base_variant_ok; eassumption). cbn iota beta.
      erewrite bind_ok by exact Hf. reflexivity. }
    assert (Hact :
      action env request w =
      try_catch
        (creation_path env session adm (product_id base) boy en mat
           (Js.parseInt boy) (Js.parseInt en)
           (Js.mul (Js.parseInt boy) (Js.parseInt en)) p
           (calculateWeight (Js.parseInt boy) (Js.parseInt en) mat)
           (cacheKey_of boy en mat) (requestId_of (form request) (now w)))
        on_system_error w3).
    { rewrite (action_accepted env _ _ _ _ _ _ _ _ _ Hacc).
      unfold try_catch. now rewrite Hprov. }
    assert (Htr : trace w3 =
      (trace w ++ [LoadSession (session_id session); Get ("variants/" ++ bv);
                   Get (listing_path (product_id base))])%list).
    { rewrite Ht3.
      pose proof (withTimeout_trace env (Get ("variants/" ++ bv)) w1) as H2.
      rewrite Hbase in H2. cbn [snd] in H2. rewrite H2.
      destruct (dedup_cases (cacheKey_of boy en mat)
                  (requestId_of (form request) (now w))
                  (after_load w (session_id session))) as [r [w1' [Hd' [Ht1 _]]]].
      rewrite Hd in Hd'. injection Hd' as _ <-. rewrite Ht1. cbn.
      rewrite <- !app_assoc. reflexivity. }
    split; [exact Hact|]. split; [exact Htr|].
    rewrite Hact. eexists. apply creation_path_posts.
  - intros s a pid boy en mat bi ei ar p wt key rid w resp w' Hpath Hused.
    rewrite creation_path_run in Hpath.
    destruct (create_variant env _ _ _ _ w) as [[[v|]|err] w1] eqn:Hcv.
    + destruct (persist_and_respond_run env s a pid boy en mat bi ei ar p wt key rid
                  (Js.toFixed_2 p) v w1) as [w2 [Hp _]].
      rewrite Hp in Hpath. injection Hpath as <- <-. discriminate.
    + discriminate.
    + destruct (creation_failed_run env err pid boy en mat p key rid w1)
        as [resp1 [w2 [Hf Hkind]]].
      rewrite Hf in Hpath. injection Hpath as <- <-.
      destruct Hkind as [Hnone | [Hae [rv [w3 [Hfind [Ht ->]]]]]].
      * rewrite Hnone in Hused. discriminate.
      * eexists. exists err, w1, w3, rv.
        split; [exact Hcv|]. split; [exact Hae|]. split; [exact Ht|].
        split; [exact Hfind | reflexivity].
Qed.

End Lookup.

(** *** The validated price *)


(** *** The route on concrete requests *)

Lemma the_request_accepted env_rest w :
  accepted (env_of sessions_s1 env_rest) the_request w proxy_session the_session
    "100" "120" "80" "pamuk" twenty.
Proof.
  unfold accepted. repeat split; try reflexivity.
  exists "20". repeat split; reflexivity.
Defined.



(** C4, as stated, fails.  The width "abc" does not parse as an integer
    (and "12cm" is read as 12, "-5" as -5); the request is not refused: the
    catalog is asked to create the variant, and the response is a success. *)
Lemma width_not_validated :
  Js.parseInt "abc" = Js.NaN /\
  Js.parseInt "12cm" = Js.of_Z 12 /\
  Js.parseInt "-5" = Js.of_Z (-5) /\
  exists resp,
    fst (action env_settled_abc (request_for "abc" "80" "pamuk" "20") world_idle)
      = Ok resp /\
    status resp = 200 /\ success (json resp) = true /\
    errorType (json resp) = None /\
    existsb is_post
      (trace (snd (action env_settled_abc (request_for "abc" "80" "pamuk" "20")
                     world_idle))) = true.
Proof.
  split; [reflexivity|]. split; [reflexivity|]. split; [reflexivity|].
  eexists. split; [vm_compute; reflexivity|].
  repeat split; vm_compute; reflexivity.
Qed.

(** C4: the theorem at a request whose width is empty. *)
Lemma empty_width_rejected :
  Js.truthy_opt (f_boy (form (request_for "" "80" "pamuk" "20"))) = false /\
  action env_settled (request_for "" "80" "pamuk" "20") world_idle =
    (Ok validation_response, after_load world_idle (Some "s1")).
Proof.
  split; [reflexivity|].
  apply (incomplete_form_rejected env_settled (request_for "" "80" "pamuk" "20")
           world_idle proxy_session the_session eq_refl eq_refl eq_refl
           (or_intror (or_introl eq_refl))).
Defined.



(** C10: the theorem at a catalog whose first listing fails although the
    variant exists: the create call is sent all the same, is refused with
    "already exists", and the second listing returns the variant. *)
Lemma flaky_listing_creates_again :
  exists data,
    trace (snd (action env_flaky_listing the_request world_idle)) =
      [LoadSession (Some "s1"); Get "variants/100"; Get "products/7/variants";
       Post "products/7/variants" data; Get "products/7/variants"] /\
    option_map usedExisting
      (match fst (action env_flaky_listing the_request world_idle) with
       | Ok r => Some (json r)
       | Threw _ => None
       end) = Some (Some true).
Proof.
  destruct (proj1 (proj2 (proj2 (lookup_failure_swallowed env_flaky_listing)))
              the_request world_idle proxy_session the_session
              "100" "120" "80" "pamuk" twenty
              (snd (dedup (cacheKey_of "120" "80" "pamuk")
                      (requestId_of (form the_request) (now world_idle))
                      (after_load world_idle (Some "s1"))))
              (with_variant base_variant)
              (snd (withTimeout env_flaky_listing (Get "variants/100")
                      (snd (dedup (cacheKey_of "120" "80" "pamuk")
                              (requestId_of (form the_request) (now world_idle))
                              (after_load world_idle (Some "s1"))))))
              base_variant)
    as [w3 [_ [_ [data [more Hmore]]]]].
  - unfold accepted. repeat split; try reflexivity.
    exists "20". repeat split; reflexivity.
  - vm_compute. reflexivity.
  - vm_compute. reflexivity.
  - reflexivity.
  - right. exists (http_error 503 []). vm_compute. reflexivity.
  - eexists. split; vm_compute; reflexivity.
Defined.

End CustomProductFacts.

(** ** More properties of the cleanup worker *)

Module CleanupWorkerExtra.

Import Sys SysFacts CleanupWorker CleanupWorkerView CleanupWorkerStats.
Import Invariants InvariantFacts ExtraView Scenarios MoreScenarios CleanupWorkerFacts.
Local Open Scope js_scope.

(** *** What a run may change *)

Lemma ws_loadSession env sid : preserves worker_step (loadSession env sid).
Proof.
  intros w. unfold worker_step. cbn.
  repeat split; auto using table_evolves_refl, log_grows_refl; lia.
Qed.

Lemma ws_admin env c : preserves worker_step (admin env c).
Proof.
  intros w. unfold admin, worker_step.
  destruct (outcome _); cbn;
    (repeat split; auto using table_evolves_refl, log_grows_refl; lia).
Qed.

Lemma ws_console_error label d : preserves worker_step (console_error label d).
Proof.
  intros w. unfold worker_step. cbn.
  repeat split; auto using table_evolves_refl, log_grows_refl; lia.
Qed.

Lemma ws_cleanupLog_create a p v m d :
  preserves worker_step (prisma_cleanupLog_create a p v m d).
Proof.
  intros w. unfold worker_step. cbn.
  repeat split; auto using table_evolves_refl; try lia. eexists. reflexivity.
Qed.

Lemma ws_update key f :
  (forall r, row_evolves r (f r)) ->
  preserves worker_step (prisma_temporaryProduct_update key f).
Proof.
  intros Hf w. unfold prisma_temporaryProduct_update.
  destruct (existsb _ _); [|apply worker_step_refl].
  unfold worker_step. cbn.
  repeat split; auto using table_evolves_update, log_grows_refl; lia.
Qed.

Lemma ws_set_recentErrors f :
  preserves worker_step (modify (fun w => set_recentErrors (f w) w)).
Proof.
  intros w. unfold worker_step. cbn.
  repeat split; auto using table_evolves_refl, log_grows_refl; lia.
Qed.

Ltac ws_leaf :=
  first [ apply ws_loadSession | apply ws_admin | apply ws_console_error
        | apply ws_cleanupLog_create | apply ws_set_recentErrors
        | apply ws_update; intros;
          first [apply set_deletedAt_evolves | apply set_cleanup_failure_evolves] ].

Ltac ws := preserves_with worker_step_refl worker_step_trans ws_leaf.

Lemma ws_trackError err ctx : preserves worker_step (trackError err ctx).
Proof. unfold trackError, sendAlarm. ws. Qed.

Lemma ws_logCleanupAction a p v m d :
  preserves worker_step (logCleanupAction a p v m d).
Proof. unfold logCleanupAction. ws. Qed.

Section WithEnv.

Variable env : Env.

Lemma ws_deleteTemporaryVariant item :
  preserves worker_step (deleteTemporaryVariant env item).
Proof. unfold deleteTemporaryVariant. ws. Qed.

Lemma ws_sweep_item item stats : preserves worker_step (sweep_item env item stats).
Proof.
  unfold sweep_item.
  apply (preserves_try_catch _ worker_step_trans).
  - apply (preserves_bind _ worker_step_trans); [apply ws_deleteTemporaryVariant|].
    intros _. apply (preserves_bind _ worker_step_trans);
      [apply ws_logCleanupAction | intros; apply (preserves_ret _ worker_step_refl)].
  - intros err. apply (preserves_bind _ worker_step_trans).
    + apply preserves_attempt.
      apply (preserves_bind _ worker_step_trans); [apply ws_trackError|]. intros _.
      apply (preserves_bind _ worker_step_trans);
        [apply ws_update, set_cleanup_failure_evolves | intros; apply ws_logCleanupAction].
    + intros. apply (preserves_ret _ worker_step_refl).
Qed.

Lemma ws_sweep_loop items : forall stats, preserves worker_step (sweep_loop env items stats).
Proof.
  induction items as [|item items IH]; intros stats; cbn [sweep_loop].
  - apply (preserves_ret _ worker_step_refl).
  - apply (preserves_bind _ worker_step_trans); [apply ws_sweep_item|].
    intros [st [e|]]; [apply (preserves_ret _ worker_step_refl) | apply IH].
Qed.

Lemma ws_daily_item item c : preserves worker_step (daily_item env item c).
Proof.
  unfold daily_item. destruct c as [cleaned errs].
  apply (preserves_try_catch _ worker_step_trans).
  - apply (preserves_bind _ worker_step_trans);
      [apply (preserves_Date_now _ worker_step_refl)|].
    intros t. cbv zeta. destruct (old_enough _).
    + apply (preserves_bind _ worker_step_trans); [apply ws_deleteTemporaryVariant|].
      intros. apply (preserves_ret _ worker_step_refl).
    + apply (preserves_ret _ worker_step_refl).
  - intros err. ws.
Qed.

Lemma ws_daily_loop items : forall c, preserves worker_step (daily_loop env items c).
Proof.
  induction items as [|item items IH]; intros c; cbn [daily_loop].
  - apply (preserves_ret _ worker_step_refl).
  - apply (preserves_bind _ worker_step_trans); [apply ws_daily_item | apply IH].
Qed.

Lemma worker_runs_keep_the_store_aux :
  forall w,
    worker_step w (snd (runCleanupPass env w)) /\
    worker_step w (snd (runDailyFullScan env w)).
Proof.
  intros w. split.
  - revert w. change (preserves worker_step (runCleanupPass env)).
    unfold runCleanupPass.
    apply (preserves_bind _ worker_step_trans);
      [apply (preserves_Date_now _ worker_step_refl)|]. intros t.
    apply (preserves_bind _ worker_step_trans);
      [apply (preserves_gets _ worker_step_refl)|]. intros toDelete.
    destruct toDelete as [|r0 rest].
    + apply (preserves_bind _ worker_step_trans);
        [apply ws_logCleanupAction | intros; apply (preserves_ret _ worker_step_refl)].
    + apply (preserves_bind _ worker_step_trans); [apply ws_sweep_loop|].
      intros [st [e|]].
      * apply (preserves_bind _ worker_step_trans); [apply ws_console_error|].
        intros _. apply (preserves_bind _ worker_step_trans);
          [apply ws_trackError | intros; apply (preserves_ret _ worker_step_refl)].
      * apply (preserves_bind _ worker_step_trans);
          [apply ws_logCleanupAction | intros; apply (preserves_ret _ worker_step_refl)].
  - revert w. change (preserves worker_step (runDailyFullScan env)).
    unfold runDailyFullScan.
    apply (preserves_try_catch _ worker_step_trans).
    + apply (preserves_bind _ worker_step_trans);
        [apply (preserves_gets _ worker_step_refl)|]. intros allRecords.
      apply (preserves_bind _ worker_step_trans); [apply ws_daily_loop|].
      intros c. apply ws_logCleanupAction.
    + intros err. apply (preserves_bind _ worker_step_trans);
        [apply ws_console_error | intros; apply ws_trackError].
Qed.

(** X1.  Whatever the collaborators answer, a frequent sweep and a daily
    full scan change the store only in these ways: no row is added, removed
    or moved; the descriptive columns of a row (ids, times of creation and
    of scheduled deletion, dimensions, price, the ordered flag, session)
    stay as they are; [cleanupAttempts] never decreases; [deletedAt] and
    [lastCleanupError], once set, stay set; the audit log only grows at its
    end; the clock does not go back; the request cache is not touched. *)
Theorem worker_runs_keep_the_store :
  forall w,
    worker_step w (snd (runCleanupPass env w)) /\
    worker_step w (snd (runDailyFullScan env w)).
Proof. exact worker_runs_keep_the_store_aux. Qed.



(** *** The counters of a sweep *)

Lemma count_action_app a w l w' :
  cleanupLog w' = (cleanupLog w ++ l)%list ->
  count_action a w' =
  count_action a w
  + Z.of_nat (List.length (filter (fun x => String.eqb (action x) a) l)).
Proof.
  intros H. unfold count_action. rewrite H, filter_app, length_app. lia.
Qed.







(** *** Failed deletions *)

Lemma Forall2_same {A} (P : A -> A -> Prop) l :
  (forall a, P a a) -> Forall2 P l l.
Proof. intros H. induction l; constructor; auto. Qed.

Lemma Forall2_of_map {A B C} (h : A -> B) (P : B -> C -> Prop) l : forall l',
  Forall2 P (map h l) l' -> Forall2 (fun a b => P (h a) b) l l'.
Proof.
  induction l as [|a l IH]; intros l' H; inversion H; subst; constructor; auto.
Qed.



(** What one turn of the sweep does to the table. *)
Lemma sweep_item_table item stats w :
  In (id item) (ids w) ->
  exists g,
    (forall r, row_evolves r (g r) /\ settled r (g r)) /\
    temporaryProduct (snd (sweep_item env item stats w)) =
    map (fun r => if String.eqb (id r) (id item) then g r else r)
        (temporaryProduct w).
Proof.
  intros Hin. destruct (primitive_failure env item w) as [e|] eqn:Hpf.
  - exists (set_cleanup_failure (failure_text e)). split.
    + intros r. split; [apply set_cleanup_failure_evolves|].
      right. cbn. split; [lia | discriminate].
    + now apply sweep_item_records_failure.
  - destruct (deleteTemporaryVariant_succeeds env item w Hpf Hin)
      as [w1 [Hrun [Htab _]]].
    exists (set_deletedAt (Some (now w1))). split.
    + intros r. split; [apply set_deletedAt_evolves|]. left. cbn. discriminate.
    + unfold sweep_item. erewrite try_catch_ok.
      2:{ erewrite bind_ok by exact Hrun.
          erewrite bind_ok by apply logCleanupAction_run. reflexivity. }
      cbn. exact Htab.
Qed.




(** *** The daily full scan *)

(** The age test: 24 hours are 86 400 000 ms. *)
Lemma old_enough_iff age : old_enough age = true <-> 86400000 <= age.
Proof.
  unfold old_enough. rewrite Qle_bool_iff.
  unfold Qle, Qdiv, Qmult, Qinv, inject_Z. cbn. lia.
Qed.

Lemma daily_step_refl w : daily_step w w.
Proof. unfold daily_step. auto. Qed.

Lemma daily_step_trans w1 w2 w3 :
  daily_step w1 w2 -> daily_step w2 w3 -> daily_step w1 w3.
Proof.
  intros (A1 & B1 & C1 & D1) (A2 & B2 & C2 & D2). unfold daily_step.
  repeat split; congruence.
Qed.

Lemma ds_loadSession sid : preserves daily_step (loadSession env sid).
Proof. intros w. unfold daily_step. cbn. auto. Qed.

Lemma ds_admin c : preserves daily_step (admin env c).
Proof. intros w. unfold admin, daily_step. destruct (outcome _); cbn; auto. Qed.

Lemma ds_mark key t :
  preserves daily_step (prisma_temporaryProduct_update key (set_deletedAt (Some t))).
Proof.
  intros w. unfold prisma_temporaryProduct_update.
  destruct (existsb _ _); [|apply daily_step_refl].
  unfold daily_step. cbn. rewrite !map_map.
  repeat split; apply map_ext; intros r; now destruct (String.eqb (id r) key).
Qed.

Lemma ds_deleteTemporaryVariant item :
  preserves daily_step (deleteTemporaryVariant env item).
Proof.
  unfold deleteTemporaryVariant.
  preserves_with daily_step_refl daily_step_trans
    ltac:(first [apply ds_loadSession | apply ds_admin | apply ds_mark]).
Qed.

Lemma daily_item_run item cleaned errs w :
  exists c' w',
    daily_item env item (cleaned, errs) w = (Ok c', w') /\
    recentErrors w' = recentErrors w /\
    cleanupLog w' = cleanupLog w /\
    map cleanupAttempts (temporaryProduct w') =
      map cleanupAttempts (temporaryProduct w) /\
    map lastCleanupError (temporaryProduct w') =
      map lastCleanupError (temporaryProduct w) /\
    cleaned <= fst c' /\ errs <= snd c' /\
    fst c' + snd c' <= cleaned + errs + 1 /\
    (old_enough (now w - createdAt item) = false -> c' = (cleaned, errs) /\ w' = w).
Proof.
  unfold daily_item, try_catch, Date_now. unfold bind at 1, gets. cbn iota beta.
  destruct (old_enough (now w - createdAt item)).
  - pose proof (ds_deleteTemporaryVariant item w) as (A & B & C & D).
    unfold bind.
    destruct (deleteTemporaryVariant env item w) as [[[]|e] w1]; cbn [snd] in *.
    + eexists. eexists. split; [reflexivity|]. cbn.
      repeat split; auto; try lia; discriminate.
    + eexists. eexists. split; [reflexivity|]. cbn.
      repeat split; auto; try lia; discriminate.
  - eexists. eexists. split; [reflexivity|]. cbn. repeat split; auto; lia.
Qed.

Lemma daily_loop_run items : forall cleaned errs w,
  exists c' w',
    daily_loop env items (cleaned, errs) w = (Ok c', w') /\
    daily_step w w' /\
    cleaned <= fst c' /\ errs <= snd c' /\
    fst c' + snd c' <= cleaned + errs + Z.of_nat (List.length items) /\
    ((forall item, In item items -> now w - createdAt item < 86400000) ->
     c' = (cleaned, errs) /\ w' = w).
Proof.
  induction items as [|item items IH]; intros cleaned errs w.
  - exists (cleaned, errs), w. cbn. repeat split; auto using daily_step_refl; lia.
  - destruct (daily_item_run item cleaned errs w)
      as [[c1 e1] [w1 (Hrun & A & B & C & D & Hc & He & Hsum & Hyoung)]].
    destruct (IH c1 e1 w1) as [c2 [w2 (Hrun2 & Hstep & Hc2 & He2 & Hsum2 & Hy2)]].
    exists c2, w2. cbn [daily_loop]. erewrite bind_ok by exact Hrun.
    split; [exact Hrun2|]. cbn [fst snd] in *.
    split; [eapply daily_step_trans; [|exact Hstep]; unfold daily_step; auto|].
    repeat split; try (cbn [List.length]; lia).
    + assert (Hno : old_enough (now w - createdAt item) = false).
      { destruct (old_enough _) eqn:E; [|reflexivity].
        apply old_enough_iff in E. specialize (H item (or_introl eq_refl)). lia. }
      destruct (Hyoung Hno) as [[= -> ->] ->].
      apply Hy2. intros x Hx. apply H. now right.
    + assert (Hno : old_enough (now w - createdAt item) = false).
      { destruct (old_enough _) eqn:E; [|reflexivity].
        apply old_enough_iff in E. specialize (H item (or_introl eq_refl)). lia. }
      destruct (Hyoung Hno) as [[= -> ->] ->].
      apply Hy2. intros x Hx. apply H. now right.
Qed.



(** *** The rows that a run leaves alone *)

Lemma sweep_loop_frame items : forall stats w,
  (forall item, In item items -> In (id item) (ids w)) ->
  Forall2 (fun r r' => r' = r \/ exists item, In item items /\ id item = id r)
    (temporaryProduct w)
    (temporaryProduct (snd (sweep_loop env items stats w))).
Proof.
  induction items as [|item items IH]; intros stats w Hids.
  - cbn. apply Forall2_same. now left.
  - destruct (sweep_item_run env item stats w (Hids item (or_introl eq_refl)))
      as [s1 [w1 [Hrun [_ [_ [Hid _]]]]]].
    destruct (sweep_item_table item stats w (Hids item (or_introl eq_refl)))
      as [g [Hg Htab]].
    rewrite Hrun in Htab. cbn [snd] in Htab.
    cbn [sweep_loop]. erewrite bind_ok by exact Hrun. cbn iota beta.
    assert (Hids1 : forall x, In x items -> In (id x) (ids w1)).
    { intros x Hx. rewrite Hid. apply Hids. now right. }
    specialize (IH s1 w1 Hids1). rewrite Htab in IH.
    apply Forall2_of_map in IH. eapply Forall2_impl; [|exact IH].
    cbn beta. intros r r' H.
    destruct (String.eqb (id r) (id item)) eqn:E.
    + right. exists item. split; [now left|]. apply String.eqb_eq in E. auto.
    + destruct H as [->|[x [Hx Hxid]]]; [now left|].
      right. exists x. split; [now right | exact Hxid].
Qed.

(** X20.  A sweep leaves every row exactly as it is unless the row has the
    id -- the primary key -- of a record that the sweep selected: a record
    that is ordered, already marked deleted or not yet due is never
    touched. *)
Theorem sweep_touches_selected_rows_only :
  forall w,
    Forall2
      (fun r r' =>
         r' = r \/
         exists item,
           In item (temporaryProduct w) /\ id item = id r /\
           deletedAt item = None /\ isOrdered item = false /\
           scheduledDeletionAt item <= now w)
      (temporaryProduct w) (temporaryProduct (snd (runCleanupPass env w))).
Proof.
  intros w. unfold runCleanupPass, Date_now.
  erewrite bind_ok by reflexivity. erewrite bind_ok by reflexivity.
  cbn [temporaryProduct].
  pose proof (fun item => proj1 (sweep_findMany_In (now w) (temporaryProduct w) item))
    as Hsel_spec.
  set (sel := sweep_findMany (now w) (temporaryProduct w)) in *.
  destruct sel as [|r0 sel'] eqn:Hsel.
  - erewrite bind_ok by apply logCleanupAction_run. cbn.
    apply Forall2_same. now left.
  - rewrite <- Hsel in *.
    assert (Hids : forall item, In item sel -> In (id item) (ids w)).
    { intros item Hin. apply Hsel_spec in Hin. unfold ids. apply in_map. apply Hin. }
    pose proof (sweep_loop_frame sel
                  {| checked := Z.of_nat (List.length sel); deleted := 0;
                     errors := 0; skipped := 0 |} w Hids) as Hloop.
    destruct (sweep_loop_run env sel
                {| checked := Z.of_nat (List.length sel); deleted := 0;
                   errors := 0; skipped := 0 |} w Hids)
      as [s1 [w1 [Hrun _]]].
    rewrite Hrun in Hloop. cbn [snd] in Hloop.
    erewrite bind_ok by exact Hrun. cbn iota beta.
    erewrite bind_ok by apply logCleanupAction_run. cbn.
    eapply Forall2_impl; [|exact Hloop]. cbn beta.
    intros r r' [->|[item [Hin Hid]]]; [now left|].
    right. exists item. apply Hsel_spec in Hin. tauto.
Qed.

Lemma daily_item_table item c w :
  In (id item) (ids w) ->
  exists w',
    snd (daily_item env item c w) = w' /\
    now w <= now w' /\
    ids w' = ids w /\
    (temporaryProduct w' = temporaryProduct w \/
     (86400000 <= now w - createdAt item /\
      exists t,
        temporaryProduct w' =
        map (fun r => if String.eqb (id r) (id item)
                      then set_deletedAt (Some t) r else r)
            (temporaryProduct w))).
Proof.
  intros Hin. destruct c as [cleaned errs].
  unfold daily_item, try_catch, Date_now. unfold bind at 1, gets.
  cbn iota beta.
  destruct (old_enough (now w - createdAt item)) eqn:E.
  - apply old_enough_iff in E.
    destruct (primitive_failure env item w) as [e|] eqn:Hpf.
    + destruct (deleteTemporaryVariant_fails env item w e Hpf)
        as [w1 [Hrun [Htab [_ [_ [_ [Hnow _]]]]]]].
      unfold bind. rewrite Hrun. eexists. split; [reflexivity|].
      cbn. unfold ids. cbn. rewrite Htab.
      split; [exact Hnow|]. split; [reflexivity | now left].
    + destruct (deleteTemporaryVariant_succeeds env item w Hpf Hin)
        as [w1 [Hrun [Htab [_ [_ [_ [Hnow _]]]]]]].
      unfold bind. rewrite Hrun. eexists. split; [reflexivity|].
      cbn [snd ret]. unfold ids. rewrite Htab.
      split; [exact Hnow|]. split; [apply map_id_update; reflexivity|].
      right. split; [exact E|]. exists (now w1). reflexivity.
  - eexists. split; [reflexivity|].
    cbn. split; [lia|]. split; [reflexivity | now left].
Qed.

Lemma daily_loop_frame items : forall c w,
  (forall item, In item items -> In (id item) (ids w)) ->
  now w <= now (snd (daily_loop env items c w)) /\
  Forall2
    (fun r r' =>
       r' = r \/
       (deletedAt r' <> None /\
        exists item,
          In item items /\ id item = id r /\
          86400000 <= now (snd (daily_loop env items c w)) - createdAt item))
    (temporaryProduct w)
    (temporaryProduct (snd (daily_loop env items c w))).
Proof.
  induction items as [|item items IH]; intros c w Hids.
  - cbn. split; [lia|]. apply Forall2_same. now left.
  - destruct c as [cleaned errs].
    destruct (daily_item_run item cleaned errs w) as [c1 [w1 [Hrun _]]].
    destruct (daily_item_table item (cleaned, errs) w (Hids item (or_introl eq_refl)))
      as (w1' & Hsnd & Hnow & Hid & Htab).
    rewrite Hrun in Hsnd. cbn [snd] in Hsnd. subst w1'.
    cbn [daily_loop]. erewrite bind_ok by exact Hrun.
    assert (Hids1 : forall x, In x items -> In (id x) (ids w1)).
    { intros x Hx. rewrite Hid. apply Hids. now right. }
    destruct (IH c1 w1 Hids1) as [Hnow2 Hall].
    split; [lia|].
    assert (Hlift : forall r r',
              (r' = r \/
               (deletedAt r' <> None /\
                exists x, In x items /\ id x = id r /\
                  86400000 <= now (snd (daily_loop env items c1 w1)) - createdAt x)) ->
              r' = r \/
              (deletedAt r' <> None /\
               exists x, In x (item :: items) /\ id x = id r /\
                 86400000 <= now (snd (daily_loop env items c1 w1)) - createdAt x)).
    { intros r r' [->|[Hd [x [Hx [Hxid Hage]]]]]; [now left|].
      right. split; [exact Hd|]. exists x. split; [now right | auto]. }
    destruct Htab as [Htab | [Hold [t Htab]]].
    + rewrite Htab in Hall. eapply Forall2_impl; [|exact Hall]. exact Hlift.
    + rewrite Htab in Hall. apply Forall2_of_map in Hall.
      eapply Forall2_impl; [|exact Hall]. cbn beta. intros r r' H.
      destruct (String.eqb (id r) (id item)) eqn:E; [|now apply Hlift].
      apply String.eqb_eq in E. right.
      destruct H as [->|[Hd [x [Hx [Hxid Hage]]]]].
      * split; [cbn; discriminate|]. exists item.
        split; [now left|]. split; [auto | lia].
      * split; [exact Hd|]. exists x. split; [now right | auto].
Qed.

(** X21.  The daily full scan leaves every row exactly as it is, or marks
    it deleted; and it marks only rows with the id -- the primary key --
    of a record that was live when the scan started and at least 24 hours
    old.  A record younger than that is never touched. *)
Theorem daily_scan_touches_old_live_rows_only :
  forall w,
    Forall2
      (fun r r' =>
         r' = r \/
         (deletedAt r' <> None /\
          exists item,
            In item (temporaryProduct w) /\ deletedAt item = None /\
            id item = id r /\
            86400000 <= now (snd (runDailyFullScan env w)) - createdAt item))
      (temporaryProduct w) (temporaryProduct (snd (runDailyFullScan env w))).
Proof.
  intros w. unfold runDailyFullScan.
  set (items := filter daily_where (temporaryProduct w)).
  assert (Hitems : forall item, In item items ->
                     In item (temporaryProduct w) /\ deletedAt item = None).
  { intros item Hin. apply filter_In in Hin. destruct Hin as [Hin Hw].
    split; [exact Hin|]. unfold daily_where, is_null in Hw.
    destruct (deletedAt item); [discriminate | reflexivity]. }
  assert (Hids : forall item, In item items -> In (id item) (ids w)).
  { intros item Hin. unfold ids. apply in_map. now apply Hitems. }
  destruct (daily_loop_run items 0 0 w) as [[c e] [w1 (Hrun & _)]].
  destruct (daily_loop_frame items (0, 0) w Hids) as [Hnow Hall].
  rewrite Hrun in Hnow, Hall. cbn [snd] in Hnow, Hall.
  erewrite try_catch_ok.
  2:{ erewrite bind_ok by reflexivity. cbn [temporaryProduct]. fold items.
      erewrite bind_ok by exact Hrun. apply logCleanupAction_run. }
  cbn. eapply Forall2_impl; [|exact Hall]. cbn beta.
  intros r r' [->|[Hd [x [Hx [Hxid Hage]]]]]; [now left|].
  right. split; [exact Hd|]. exists x. destruct (Hitems x Hx). auto.
Qed.

End WithEnv.

(** *** The tracker's window *)




(** X6.  Tracking an error prunes the older entries to those younger than
    five minutes and puts the new entry last, so the log grows by at most
    one entry and is never empty afterwards.  The alarm is not debounced:
    whenever two entries younger than five minutes are already there, the
    next error raises an alarm of its own, whatever was raised before. *)
Theorem tracker_prunes_and_fires_again :
  forall err ctx w,
    recentErrors (snd (trackError err ctx w)) =
      (filter (fresh_at (now w)) (recentErrors w) ++ [tracked_entry err ctx w])%list /\
    (List.length (recentErrors (snd (trackError err ctx w)))
       <= S (List.length (recentErrors w)))%nat /\
    ((2 <= List.length (filter (fresh_at (now w)) (recentErrors w)))%nat ->
     alarms (snd (trackError err ctx w)) =
       (alarms w ++
        [alarm_entry (now w)
           (filter (fresh_at (now w)) (recentErrors w)
            ++ [tracked_entry err ctx w])])%list).
Proof.
  intros err ctx w.
  assert (Hp : pruned err ctx w =
               (filter (fresh_at (now w)) (recentErrors w)
                ++ [tracked_entry err ctx w])%list).
  { unfold pruned. rewrite filter_app. f_equal.
    cbn [filter tracked_entry timestamp].
    destruct (Z.ltb_spec (now w - ERROR_WINDOW_MS) (now w)) as [_|H];
      [reflexivity | unfold ERROR_WINDOW_MS in H; lia]. }
  split; [|split].
  - rewrite trackError_run. cbn. exact Hp.
  - rewrite trackError_run. cbn. rewrite Hp, length_app. cbn.
    pose proof (filter_length_le (fresh_at (now w)) (recentErrors w)). lia.
  - intros Htwo. rewrite alarms_after_track. unfold alarm_due. rewrite Hp.
    rewrite length_app. cbn [List.length].
    destruct (Z.leb_spec ERROR_THRESHOLD
                (Z.of_nat (List.length (filter (fresh_at (now w)) (recentErrors w)) + 1)))
      as [_|H]; [reflexivity | unfold ERROR_THRESHOLD in H; lia].
Qed.

(** *** The stats query *)

Lemma insert_desc_perm r l : Permutation (insert_desc r l) (r :: l).
Proof.
  induction l as [|x l IH]; cbn; [reflexivity|].
  destruct (l_createdAt x <=? l_createdAt r); [reflexivity|].
  rewrite IH. apply perm_swap.
Qed.

Lemma insert_desc_sorted r l :
  StronglySorted newest_first l -> StronglySorted newest_first (insert_desc r l).
Proof.
  induction 1 as [|x l Hs IH Hall]; cbn.
  - constructor; constructor.
  - destruct (Z.leb_spec (l_createdAt x) (l_createdAt r)) as [Hle|Hgt].
    + constructor; [constructor; assumption|].
      constructor; [exact Hle|].
      rewrite Forall_forall in *. intros y Hy. specialize (Hall y Hy).
      unfold newest_first in *. lia.
    + constructor; [exact IH|].
      rewrite Forall_forall in *. intros y Hy.
      apply (Permutation_in _ (insert_desc_perm r l)) in Hy.
      destruct Hy as [<-|Hy]; [unfold newest_first; lia | now apply Hall].
Qed.

Lemma orderBy_desc_perm l : Permutation (orderBy_createdAt_desc l) l.
Proof.
  induction l as [|x l IH]; cbn; [reflexivity|].
  rewrite insert_desc_perm. now constructor.
Qed.

Lemma orderBy_desc_sorted l : StronglySorted newest_first (orderBy_createdAt_desc l).
Proof.
  induction l as [|x l IH]; cbn; [constructor|]. now apply insert_desc_sorted.
Qed.

Lemma In_firstn {A} n : forall (l : list A) x, In x (firstn n l) -> In x l.
Proof.
  induction n as [|n IH]; intros [|y l] x; cbn; try tauto.
  intros [->|H]; [now left | right; now apply IH].
Qed.

Lemma firstn_sorted {A} (R : A -> A -> Prop) n : forall l,
  StronglySorted R l -> StronglySorted R (firstn n l).
Proof.
  induction n as [|n IH]; intros l Hs; [constructor|].
  destruct l as [|x l]; [constructor|]. cbn. inversion Hs; subst.
  constructor; [now apply IH|].
  rewrite Forall_forall in *. intros y Hy. apply H2. eapply In_firstn, Hy.
Qed.


Lemma filter_split_length {A} (p q : A -> bool) l :
  List.length (filter p l) =
  (List.length (filter (fun x => p x && negb (q x)) l)
   + List.length (filter (fun x => p x && q x) l))%nat.
Proof.
  induction l as [|x l IH]; cbn; [reflexivity|].
  destruct (p x), (q x); cbn; lia.
Qed.

Lemma group_count_bump a b groups :
  group_count a (bump b groups) =
  group_count a groups + (if String.eqb b a then 1 else 0).
Proof.
  unfold group_count. induction groups as [|[c n] groups IH]; cbn.
  - destruct (String.eqb b a); reflexivity.
  - destruct (String.eqb c b) eqn:Ecb; cbn.
    + apply String.eqb_eq in Ecb. subst c.
      destruct (String.eqb b a); cbn; lia.
    + destruct (String.eqb c a) eqn:Eca; cbn; [|exact IH].
      destruct (String.eqb b a) eqn:Eba; [|lia].
      apply String.eqb_eq in Eca, Eba. subst. rewrite String.eqb_refl in Ecb.
      discriminate.
Qed.

Lemma group_count_fold a rows : forall groups,
  group_count a (fold_left (fun g r => bump (action r) g) rows groups) =
  group_count a groups
  + Z.of_nat (List.length (filter (fun r => String.eqb (action r) a) rows)).
Proof.
  induction rows as [|r rows IH]; intros groups; cbn; [lia|].
  rewrite IH, group_count_bump. destruct (String.eqb (action r) a); cbn; lia.
Qed.

Lemma bump_keys b groups :
  NoDup (map fst groups) -> Forall (fun g => 0 < snd g) groups ->
  NoDup (map fst (bump b groups)) /\ Forall (fun g => 0 < snd g) (bump b groups).
Proof.
  induction groups as [|[c n] groups IH]; cbn; intros Hnd Hpos.
  - split; [constructor; [intros [] | constructor] | constructor; [cbn; lia | constructor]].
  - inversion Hnd; subst. inversion Hpos; subst. cbn in *.
    destruct (String.eqb c b) eqn:Ecb; cbn.
    + split; [constructor; assumption | constructor; [cbn; lia | assumption]].
    + destruct (IH H2 H4) as [Hnd' Hpos'].
      split; [|constructor; assumption].
      constructor; [|exact Hnd'].
      intros Hin. apply H1. clear - Hin Ecb.
      induction groups as [|[d m] groups IHg]; cbn in *.
      * destruct Hin as [<-|[]]. now rewrite String.eqb_refl in Ecb.
      * destruct (String.eqb d b); cbn in *; [exact Hin|].
        destruct Hin as [Hin|Hin]; [now left | right; now apply IHg].
Qed.

Lemma groupBy_keys rows : forall groups,
  NoDup (map fst groups) -> Forall (fun g => 0 < snd g) groups ->
  NoDup (map fst (fold_left (fun g r => bump (action r) g) rows groups)) /\
  Forall (fun g => 0 < snd g) (fold_left (fun g r => bump (action r) g) rows groups).
Proof.
  induction rows as [|r rows IH]; intros groups Hnd Hpos; cbn; [auto|].
  destruct (bump_keys (action r) groups Hnd Hpos). now apply IH.
Qed.

(** X7.  The stats query reads and changes nothing.  Its list of recent
    errors holds at most ten entries, each an "error" entry of the audit
    log written in the last 24 hours, newest first.  Its groups are one per
    action, each with a positive count, and the count of an action is the
    number of log entries of the last 24 hours with that action.  Its
    pending count is the number of records that a sweep would select now
    plus the number of ordered records that are past due: ordered records
    are counted as pending although no sweep selects them. *)
Theorem stats_query_report :
  forall w,
    exists report,
      getCleanupStats w = (Ok report, w) /\
      lastRun report = now w /\
      (List.length (s_recentErrors report) <= 10)%nat /\
      (forall l, In l (s_recentErrors report) ->
         In l (cleanupLog w) /\ action l = "error" /\
         now w - DAY_MS <= l_createdAt l) /\
      StronglySorted newest_first (s_recentErrors report) /\
      NoDup (map fst (stats report)) /\
      Forall (fun g => 0 < snd g) (stats report) /\
      (forall a,
         group_count a (stats report) = entries_since (now w - DAY_MS) a (cleanupLog w)) /\
      pendingDeletion report =
        Z.of_nat (List.length (sweep_findMany (now w) (temporaryProduct w)))
        + Z.of_nat (List.length (filter (due_but_ordered (now w)) (temporaryProduct w))).
Proof.
  intros w. eexists. split; [cbv [getCleanupStats bind Date_now gets ret]; reflexivity|].
  cbn [lastRun s_recentErrors stats pendingDeletion].
  change (now w - 24 * 60 * 60 * 1000) with (now w - DAY_MS).
  refine (conj eq_refl (conj _ (conj _ (conj _ (conj _ (conj _ (conj _ _))))))).
  - unfold recent_error_logs. rewrite length_firstn. lia.
  - intros l Hin. unfold recent_error_logs in Hin. apply In_firstn in Hin.
    apply (Permutation_in _ (orderBy_desc_perm _)) in Hin.
    apply filter_In in Hin. destruct Hin as [Hin Hc].
    apply andb_prop in Hc. destruct Hc as [Ha Ht].
    apply String.eqb_eq in Ha. apply Z.leb_le in Ht. auto.
  - unfold recent_error_logs. apply firstn_sorted, orderBy_desc_sorted.
  - unfold groupBy_action. apply groupBy_keys; constructor.
  - unfold groupBy_action. apply groupBy_keys; constructor.
  - intros a. unfold groupBy_action, entries_since. rewrite group_count_fold.
    reflexivity.
  - unfold pending_count, sweep_findMany.
    rewrite (Permutation_length (orderBy_perm _)).
    rewrite (filter_split_length
               (fun r => is_null (deletedAt r) && (scheduledDeletionAt r <=? now w))
               isOrdered).
    rewrite Nat2Z.inj_add. f_equal.
    f_equal. f_equal. apply filter_ext. intros r. unfold sweep_where.
    destruct (is_null _), (scheduledDeletionAt r <=? now w), (isOrdered r);
      reflexivity.
Qed.

(** *** The daily schedule *)

(** X8.  With a fixed offset between the local clock and the epoch clock,
    the first daily full scan is set for the next time the local clock
    shows 03:00: the delay is more than 0 and at most 24 hours, and it
    ends at 03:00 local time.  At 03:00 sharp the scan is set for the next
    day. *)
Theorem first_daily_scan_at_next_three :
  forall offset t,
    0 < msUntilScheduled offset t <= DAY_MS /\
    (t + msUntilScheduled offset t + offset) mod DAY_MS = 3 * 60 * 60 * 1000 /\
    ((t + offset) mod DAY_MS = 3 * 60 * 60 * 1000 ->
     msUntilScheduled offset t = DAY_MS).
Proof.
  intros offset t. unfold msUntilScheduled, local_midnight,
    DAILY_CLEANUP_HOUR, DAILY_CLEANUP_MINUTE, DAY_MS.
  set (L := t + offset).
  pose proof (Z.mod_pos_bound L 86400000 eq_refl) as Hm.
  pose proof (Z.div_mod L 86400000) as Hd.
  change (24 * 60 * 60 * 1000) with 86400000 in *.
  set (m := L mod 86400000) in *.
  assert (Hq : L = 86400000 * (L / 86400000) + m) by (apply Hd; lia).
  cbv zeta.
  destruct (Z.leb_spec (L - m - offset + 3 * 60 * 60 * 1000 + 0 * 60 * 1000) t)
    as [Hle|Hgt].
  - split; [unfold L in *; lia|]. split; [|intros; unfold L in *; lia].
    symmetry. apply (Z.mod_unique_pos _ _ (L / 86400000 + 1)); unfold L in *; lia.
  - split; [unfold L in *; lia|]. split; [|intros; unfold L in *; lia].
    symmetry. apply (Z.mod_unique_pos _ _ (L / 86400000)); unfold L in *; lia.
Qed.

(** *** Concrete runs *)



(** X6, at a tracker that holds two errors of the last two minutes: the
    third error raises the alarm. *)
Lemma third_error_in_window_alarms :
  (2 <= List.length (filter (fresh_at (now world_two_errors))
                       (recentErrors world_two_errors)))%nat /\
  List.length
    (alarms (snd (trackError (Js.new_Error "e3") (CtxStage "c") world_two_errors)))
    = 1%nat.
Proof.
  assert (H : (2 <= List.length (filter (fresh_at (now world_two_errors))
                                   (recentErrors world_two_errors)))%nat)
    by (vm_compute; lia).
  split; [exact H|].
  rewrite (proj2 (proj2 (tracker_prunes_and_fires_again
                           (Js.new_Error "e3") (CtxStage "c") world_two_errors)) H).
  reflexivity.
Defined.

(** A sweep over one record that the catalog no longer has and one whose
    deletion fails: the first is marked deleted, the failure of the second
    is counted and recorded. *)
Example broken_record_is_counted :
  map cleanupAttempts (temporaryProduct (snd (runCleanupPass env_mixed world_mixed)))
    = [0; 1] /\
  map deletedAt (temporaryProduct (snd (runCleanupPass env_mixed world_mixed)))
    = [Some 10800020; None].
Proof. split; vm_compute; reflexivity. Qed.

End CleanupWorkerExtra.

(** ** app/routes/api.custom-product.js: further properties *)

Module CustomProductExtra.

Import Sys SysFacts CleanupWorker CleanupWorkerView.
Import CustomProduct CustomProductView CustomProductExtraView.
Import Invariants InvariantFacts Scenarios MoreScenarios.
Import CleanupWorkerFacts CustomProductFacts.
Local Open Scope js_scope.

(** *** The weight *)




(** *** The pruning of the cache *)

Lemma insert_oldest_first_perm kv l : Permutation (insert_oldest_first kv l) (kv :: l).
Proof.
  induction l as [|x l IH]; cbn; [reflexivity|].
  destruct (c_timestamp (snd kv) <=? c_timestamp (snd x)); [reflexivity|].
  rewrite IH. apply perm_swap.
Qed.

Lemma insert_oldest_first_sorted kv l :
  StronglySorted no_older l -> StronglySorted no_older (insert_oldest_first kv l).
Proof.
  induction 1 as [|x l Hs IH Hall]; cbn.
  - constructor; constructor.
  - destruct (Z.leb_spec (c_timestamp (snd kv)) (c_timestamp (snd x))) as [Hle|Hgt].
    + constructor; [constructor; assumption|].
      constructor; [exact Hle|].
      rewrite Forall_forall in *. intros y Hy. specialize (Hall y Hy).
      unfold no_older in *. lia.
    + constructor; [exact IH|].
      rewrite Forall_forall in *. intros y Hy.
      apply (Permutation_in _ (insert_oldest_first_perm kv l)) in Hy.
      destruct Hy as [<-|Hy]; [unfold no_older; lia | now apply Hall].
Qed.

Lemma sort_oldest_first_perm c : Permutation (sort_oldest_first c) c.
Proof.
  induction c as [|x c IH]; cbn; [reflexivity|].
  rewrite insert_oldest_first_perm. now constructor.
Qed.

Lemma sort_oldest_first_sorted c : StronglySorted no_older (sort_oldest_first c).
Proof.
  induction c as [|x c IH]; cbn; [constructor|].
  now apply insert_oldest_first_sorted.
Qed.

Lemma filter_filter {A} (f g : A -> bool) l :
  filter f (filter g l) = filter (fun x => g x && f x) l.
Proof.
  induction l as [|x l IH]; cbn; [reflexivity|].
  destruct (g x); cbn; [destruct (f x)|]; now rewrite IH.
Qed.

Lemma fold_delete_filter (ks : Cache) : forall m : Cache,
  fold_left (fun m kv => cache_delete (fst kv) m) ks m =
  filter (fun kv => negb (key_in (map fst ks) kv)) m.
Proof.
  induction ks as [|k ks IH]; intros m; cbn [fold_left map].
  - symmetry. apply forallb_filter_id. now apply forallb_forall.
  - rewrite IH. unfold cache_delete. rewrite filter_filter.
    apply filter_ext. intros x. unfold key_in. cbn [existsb].
    now rewrite negb_orb.
Qed.

Lemma key_in_spec keys kv : key_in keys kv = true <-> In (fst kv) keys.
Proof.
  unfold key_in. rewrite existsb_exists. split.
  - intros [k [Hin Hk]]. apply String.eqb_eq in Hk. now subst.
  - intros H. exists (fst kv). split; [exact H | apply String.eqb_refl].
Qed.

Lemma filter_perm {A} (f : A -> bool) l l' :
  Permutation l l' -> Permutation (filter f l) (filter f l').
Proof.
  induction 1; cbn.
  - constructor.
  - destruct (f x); [now constructor | assumption].
  - destruct (f x), (f y); try reflexivity. apply perm_swap.
  - etransitivity; eassumption.
Qed.

Lemma filter_none {A} (f : A -> bool) l :
  (forall x, In x l -> f x = false) -> filter f l = [].
Proof.
  induction l as [|x l IH]; cbn; intros H; [reflexivity|].
  rewrite (H x (or_introl eq_refl)). apply IH. intros y Hy. apply H. now right.
Qed.

Lemma filter_all {A} (f : A -> bool) l :
  (forall x, In x l -> f x = true) -> filter f l = l.
Proof.
  induction l as [|x l IH]; cbn; intros H; [reflexivity|].
  rewrite (H x (or_introl eq_refl)). f_equal. apply IH. intros y Hy. apply H. now right.
Qed.

Lemma NoDup_keys_filter (f : string * CacheEntry -> bool) c :
  NoDup (map fst c) -> NoDup (map fst (filter f c)).
Proof.
  induction c as [|x c IH]; cbn; intros H; [constructor|].
  inversion H; subst. destruct (f x); cbn.
  - constructor; [|now apply IH].
    intros Hin. apply H2. apply in_map_iff in Hin. destruct Hin as [y [Hy Hin]].
    apply filter_In in Hin. apply in_map_iff. exists y. tauto.
  - now apply IH.
Qed.

Lemma sorted_app_le {A} (R : A -> A -> Prop) l1 : forall l2,
  StronglySorted R (l1 ++ l2) -> forall a b, In a l1 -> In b l2 -> R a b.
Proof.
  induction l1 as [|x l1 IH]; intros l2 Hs a b Ha Hb; [contradiction|].
  cbn in Hs. inversion Hs; subst. destruct Ha as [<-|Ha].
  - rewrite Forall_forall in H2. apply H2. apply in_or_app. now right.
  - eapply IH; eassumption.
Qed.

(** The split of the live entries that the eviction makes. *)
Lemma eviction_split (live : Cache) :
  NoDup (map fst live) ->
  (200 <= List.length live)%nat ->
  let evicted := firstn 200 (sort_oldest_first live) in
  let kept := filter (fun kv => negb (key_in (map fst evicted) kv)) live in
  List.length evicted = 200%nat /\
  Permutation live (evicted ++ kept) /\
  (forall a b, In a evicted -> In b kept -> no_older a b).
Proof.
  intros Hnd Hlen evicted kept.
  set (sorted := sort_oldest_first live) in *.
  set (rest := skipn 200 sorted).
  assert (Hperm : Permutation sorted live) by apply sort_oldest_first_perm.
  assert (Hsplit : sorted = (evicted ++ rest)%list)
    by (symmetry; apply firstn_skipn).
  assert (Hnds : NoDup (map fst (evicted ++ rest))).
  { rewrite <- Hsplit. eapply Permutation_NoDup; [|exact Hnd].
    apply Permutation_map. symmetry. exact Hperm. }
  assert (Hkept : Permutation kept rest).
  { unfold kept. rewrite (filter_perm _ _ _ (Permutation_sym Hperm)).
    rewrite Hsplit, filter_app. rewrite filter_none, filter_all; [reflexivity| |].
    - intros x Hx. apply negb_true_iff.
      destruct (key_in (map fst evicted) x) eqn:E; [|reflexivity].
      apply key_in_spec in E. exfalso.
      rewrite map_app in Hnds. apply NoDup_app_remove_l in Hnds as Hr.
      clear - Hnds E Hx.
      induction (map fst evicted) as [|k ks IH]; [contradiction|].
      cbn in Hnds. inversion Hnds; subst. destruct E as [->|E].
      + apply H1. apply in_or_app. right. now apply in_map.
      + now apply IH.
    - intros x Hx. apply negb_false_iff. apply key_in_spec. now apply in_map. }
  split; [|split].
  - unfold evicted. rewrite length_firstn.
    rewrite (Permutation_length Hperm). lia.
  - rewrite Hkept, <- Hsplit. symmetry. exact Hperm.
  - intros a b Ha Hb. apply (Permutation_in _ Hkept) in Hb.
    eapply (sorted_app_le no_older evicted rest); try eassumption.
    rewrite <- Hsplit. apply sort_oldest_first_sorted.
Qed.

(** X10.  The pruning keeps only entries of the cache that are at most
    five seconds old.  When at most 1000 of these are left it keeps them
    all, in their order.  When more are left -- the keys of a cache are
    distinct -- it evicts exactly 200 of them, none younger than any entry
    that it keeps. *)
Theorem pruning_evicts_the_oldest :
  forall t c,
    (forall kv, In kv (cleanupCache_at t c) ->
       In kv c /\ t - c_timestamp (snd kv) <= CACHE_DURATION) /\
    ((List.length (filter (young t) c) <= 1000)%nat ->
     cleanupCache_at t c = filter (young t) c) /\
    ((1000 < List.length (filter (young t) c))%nat ->
     NoDup (map fst c) ->
     exists evicted,
       List.length evicted = 200%nat /\
       Permutation (filter (young t) c) (evicted ++ cleanupCache_at t c) /\
       (forall a b, In a evicted -> In b (cleanupCache_at t c) -> no_older a b)).
Proof.
  intros t c. unfold cleanupCache_at.
  fold (young t). set (live := filter (young t) c).
  change (Z.to_nat (Qfloor (inject_Z MAX_CACHE_SIZE * (2 # 10)))) with 200%nat.
  split; [|split].
  - intros kv Hin.
    assert (Hlive : In kv live).
    { destruct (MAX_CACHE_SIZE <? _); [|exact Hin].
      rewrite fold_delete_filter in Hin. apply filter_In in Hin. tauto. }
    apply filter_In in Hlive. destruct Hlive as [Hc Hy]. split; [exact Hc|].
    unfold young in Hy. apply negb_true_iff, Z.ltb_ge in Hy. exact Hy.
  - intros Hle. destruct (Z.ltb_spec MAX_CACHE_SIZE (Z.of_nat (List.length live)))
      as [H|_]; [unfold MAX_CACHE_SIZE in H; lia | reflexivity].
  - intros Hgt Hnd.
    destruct (Z.ltb_spec MAX_CACHE_SIZE (Z.of_nat (List.length live)))
      as [_|H]; [|unfold MAX_CACHE_SIZE in H; lia].
    rewrite fold_delete_filter.
    exists (firstn 200 (sort_oldest_first live)).
    apply eviction_split; [now apply NoDup_keys_filter | lia].
Qed.

(** *** The shape of the responses *)









Section Answers.

Variable env : Env.









End Answers.

(** *** What a run does to the cache *)

Lemma quiet_refl w : quiet w w.
Proof. repeat split. Qed.

Lemma quiet_trans w1 w2 w3 : quiet w1 w2 -> quiet w2 w3 -> quiet w1 w3.
Proof.
  intros (A1 & B1 & C1 & D1) (A2 & B2 & C2 & D2).
  repeat split; congruence.
Qed.

Lemma tables_kept_refl w : tables_kept w w.
Proof. repeat split. Qed.

Lemma tables_kept_trans w1 w2 w3 :
  tables_kept w1 w2 -> tables_kept w2 w3 -> tables_kept w1 w3.
Proof. intros (B1 & C1 & D1) (B2 & C2 & D2). repeat split; congruence. Qed.



Lemma quiet_tables {A} (m : M A) : preserves quiet m -> preserves tables_kept m.
Proof. intros H w. apply H. Qed.


Lemma q_loadSession env sid : preserves quiet (loadSession env sid).
Proof. intros w. repeat split. Qed.

Lemma q_admin env c : preserves quiet (admin env c).
Proof. intros w. unfold admin. destruct (outcome _); repeat split. Qed.

Lemma q_withTimeout env c : preserves quiet (withTimeout env c).
Proof.
  intros w. unfold withTimeout. destruct (API_TIMEOUT <=? _);
    [repeat split | apply q_admin].
Qed.

Lemma q_sleep ms : preserves quiet (sleep ms).
Proof. intros w. repeat split. Qed.

Lemma q_console_error label d : preserves quiet (console_error label d).
Proof. intros w. repeat split. Qed.

Ltac q_leaf :=
  first [ apply q_loadSession | apply q_admin | apply q_withTimeout
        | apply q_sleep | apply q_console_error ].

Ltac q := preserves_with quiet_refl quiet_trans q_leaf.

Lemma total_ret {A} (a : A) : total (ret a).
Proof. intros w. eexists. eexists. reflexivity. Qed.





Lemma total_bind {A B} (m : M A) (k : A -> M B) :
  total m -> (forall a, total (k a)) -> total (bind m k).
Proof.
  intros Hm Hk w. unfold bind. destruct (Hm w) as [a [w1 ->]]. apply Hk.
Qed.

Lemma cache_delete_idem key (c : Cache) :
  cache_delete key (cache_delete key c) = cache_delete key c.
Proof.
  unfold cache_delete. rewrite filter_filter. apply filter_ext.
  intros x. now rewrite andb_diag.
Qed.


Lemma cache_get_delete key (c : Cache) : cache_get key (cache_delete key c) = None.
Proof.
  unfold cache_get, cache_delete. induction c as [|kv c IH]; cbn; [reflexivity|].
  destruct (String.eqb (fst kv) key) eqn:E; cbn; [exact IH|].
  now rewrite E.
Qed.




Lemma cr_twice key w w1 w2 :
  cache_released key w w1 -> cache_released key w1 w2 -> cache_released key w w2.
Proof.
  unfold cache_released. intros H1 H2. rewrite H2, H1. apply cache_delete_idem.
Qed.






Lemma tk_requestCache_delete key : preserves tables_kept (requestCache_delete key).
Proof. intros w. repeat split. Qed.

Lemma tk_console_error label d : preserves tables_kept (console_error label d).
Proof. intros w. repeat split. Qed.

Section Frames.

Variable env : Env.

Lemma q_findExistingVariant pid boy en mat :
  preserves quiet (findExistingVariant env pid boy en mat).
Proof. unfold findExistingVariant. q. Qed.

Lemma q_poll_loop n vid p : forall i, preserves quiet (poll_loop env n vid p i).
Proof.
  induction n as [|n IH]; intros i; cbn [poll_loop].
  - apply (preserves_ret _ quiet_refl).
  - apply (preserves_bind _ quiet_trans).
    + unfold poll_once. q.
    + intros [v|]; [apply (preserves_ret _ quiet_refl) | apply IH].
Qed.

Lemma q_waitForVariantReady vid p n :
  preserves quiet (waitForVariantReady env vid p n).
Proof.
  unfold waitForVariantReady.
  apply (preserves_bind _ quiet_trans); [apply q_poll_loop|].
  intros r. q.
Qed.

Lemma q_manual_price_update nv ps : preserves quiet (manual_price_update env nv ps).
Proof. unfold manual_price_update. q. Qed.

Lemma q_create_variant pid data p ps : preserves quiet (create_variant env pid data p ps).
Proof.
  unfold create_variant.
  apply (preserves_bind _ quiet_trans); [apply q_withTimeout|].
  intros b. destruct (variant b); [|apply (preserves_throw _ quiet_refl)].
  apply (preserves_bind _ quiet_trans); [apply q_waitForVariantReady|].
  intros r. destruct (price_blank _);
    [apply q_manual_price_update | apply (preserves_ret _ quiet_refl)].
Qed.











End Frames.

(** *** The action as a whole *)

Section Whole.

Variable env : Env.

(** A request is accepted, or answered at once. *)
Lemma action_cases request w :
  (exists s a bv boy en mat p, accepted env request w s a bv boy en mat p) \/
  quiet w (snd (action env request w)).
Proof.
  unfold action, try_catch.
  destruct (proxy request) as [session|] eqn:Hp; [|right; repeat split].
  unfold bind at 1, loadSession. cbn iota beta.
  destruct (sessions env (trace w) (session_id session)) as [a|] eqn:Hs;
    [|right; repeat split].
  destruct (Js.truthy_opt (session_id a)) eqn:Hid; [|right; repeat split].
  cbn [negb]. unfold bind at 1, Date_now, gets. cbn iota beta.
  destruct (f_baseVariantId (form request)) as [bv|] eqn:Hbv;
    [|right; repeat split].
  destruct (f_boy (form request)) as [boy|] eqn:Hboy; [|right; repeat split].
  destruct (f_en (form request)) as [en|] eqn:Hen; [|right; repeat split].
  destruct (f_materyal (form request)) as [mat|] eqn:Hmat; [|right; repeat split].
  destruct (f_calculatedPrice (form request)) as [raw|] eqn:Hraw;
    [|right; repeat split].
  destruct (Js.truthy bv) eqn:Tbv; [|right; repeat split].
  destruct (Js.truthy boy) eqn:Tboy; [|right; repeat split].
  destruct (Js.truthy en) eqn:Ten; [|right; repeat split].
  destruct (Js.truthy mat) eqn:Tmat; [|right; repeat split].
  destruct (Js.truthy raw) eqn:Traw; [|right; repeat split].
  cbn [negb orb].
  destruct (validatePrice raw) as [err|p] eqn:Hval; [right; repeat split|].
  left. exists session, a, bv, boy, en, mat, p.
  unfold accepted. repeat split; try assumption.
  exists raw. repeat split; assumption.
Qed.

Lemma after_system_error (m : M Response) w :
  requestCache (snd (try_catch m on_system_error w)) = requestCache (snd (m w)) /\
  tables_kept (snd (m w)) (snd (try_catch m on_system_error w)).
Proof.
  unfold try_catch. destruct (m w) as [[r|e] w1]; cbn; repeat split.
Qed.




End Whole.

(** *** What a run records *)

Lemma parseInt_cases s : Js.parseInt s = Js.NaN \/ exists z, Js.parseInt s = Js.of_Z z.
Proof.
  unfold Js.parseInt. destruct (Js.sign_of _) as [neg s1].
  destruct (Js.digits s1 0 0) as [[v n] rest].
  destruct n; [now left | right; eexists; reflexivity].
Qed.

Lemma Qfloor_product x y : Qfloor (inject_Z x * inject_Z y) = x * y.
Proof. rewrite <- inject_Z_mult. apply Qfloor_Z. Qed.

Section Records.

Variable env : Env.

Ltac tk_leaf :=
  first [ apply quiet_tables; q_leaf
        | apply quiet_tables, q_findExistingVariant
        | apply tk_requestCache_delete | apply tk_console_error ].

Ltac tk := preserves_with tables_kept_refl tables_kept_trans tk_leaf.

Lemma tk_dedup key rid : preserves tables_kept (dedup key rid).
Proof.
  intros w. rewrite dedup_run. cbv zeta.
  destruct (cache_get key _) as [c|]; [destruct (_ <? 3000)|]; repeat split.
Qed.

Lemma tk_load_base_variant bv key : preserves tables_kept (load_base_variant env bv key).
Proof. unfold load_base_variant. tk. Qed.

Lemma tk_reuse_path ev pid p key rid :
  preserves tables_kept (reuse_path env ev pid p key rid).
Proof. unfold reuse_path. tk. Qed.

Lemma tk_creation_failed err pid boy en mat p key rid :
  preserves tables_kept (creation_failed env err pid boy en mat p key rid).
Proof. unfold creation_failed. tk. Qed.

(** What [persist_and_respond] does: it answers "created" in every case,
    and records the variant unless a number is missing. *)
Lemma persist_effect s a pid boy en mat bi ei ar p wt key rid ps v w :
  fst (persist_and_respond env s a pid boy en mat bi ei ar p wt key rid ps v w)
    = Ok (created_response v pid p wt ps rid) /\
  now (snd (persist_and_respond env s a pid boy en mat bi ei ar p wt key rid ps v w))
    = now w /\
  (tables_kept w
     (snd (persist_and_respond env s a pid boy en mat bi ei ar p wt key rid ps v w)) \/
   exists row entry b e a' q,
     bi = Js.Fin b /\ ei = Js.Fin e /\ ar = Js.Fin a' /\ p = Js.Fin q /\
     recorded w
       (snd (persist_and_respond env s a pid boy en mat bi ei ar p wt key rid ps v w))
       row entry /\
     productId row = Js.string_of_Z pid /\
     variantId row = Js.string_of_Z (v_id v) /\
     createdAt row = now w /\
     scheduledDeletionAt row = now w + 2 * 60 * 60 * 1000 /\
     deletedAt row = None /\ isOrdered row = false /\
     cleanupAttempts row = 0 /\ lastCleanupError row = None /\
     Sys.boy row = Qfloor b /\ Sys.en row = Qfloor e /\ Sys.area row = Qfloor a' /\
     Sys.calculatedPrice row = q /\ Sys.materyal row = mat /\
     sessionId row = session_id a /\
     Sys.action entry = "variant_created" /\
     l_createdAt entry = now w /\
     l_productId entry = Some (Js.string_of_Z pid) /\
     l_variantId entry = Some (Js.string_of_Z (v_id v))).
Proof.
  unfold persist_and_respond, bind, try_catch, Date_now, gets,
    prisma_temporaryProduct_create, prisma_cleanupLog_create, requestCache_delete,
    console_error, modify, throw, ret.
  destruct bi as [| | |b];
    try (solve [cbn; split; [reflexivity|]; split; [reflexivity|]; left;
                repeat split; reflexivity]).
  destruct ei as [| | |e];
    try (solve [cbn; split; [reflexivity|]; split; [reflexivity|]; left;
                repeat split; reflexivity]).
  destruct ar as [| | |a'];
    try (solve [cbn; split; [reflexivity|]; split; [reflexivity|]; left;
                repeat split; reflexivity]).
  destruct p as [| | |q];
    try (solve [cbn; split; [reflexivity|]; split; [reflexivity|]; left;
                repeat split; reflexivity]).
  cbn. split; [reflexivity|]. split; [reflexivity|]. right.
  eexists. eexists. exists b, e, a', q.
  repeat split.
Qed.

Lemma creation_path_tables s a pid boy en mat bi ei ar p wt key rid w :
  tables_kept w (snd (creation_path env s a pid boy en mat bi ei ar p wt key rid w)) \/
  exists v w0,
    tables_kept w w0 /\
    creation_path env s a pid boy en mat bi ei ar p wt key rid w =
    persist_and_respond env s a pid boy en mat bi ei ar p wt key rid
      (Js.toFixed_2 p) v w0.
Proof.
  rewrite creation_path_run.
  match goal with
  | |- context [create_variant env ?x ?d ?y ?z w] =>
      pose proof (q_create_variant env x d y z w) as [_ Hq];
      destruct (create_variant env x d y z w) as [[[v|]|err] w1]; cbn [snd] in Hq
  end.
  - right. exists v, w1. split; [exact Hq | reflexivity].
  - left. cbn. destruct Hq as (A & B & C). repeat split; assumption.
  - left. eapply tables_kept_trans; [exact Hq | apply tk_creation_failed].
Qed.

Lemma provision_tables s a bv boy en mat p rid w :
  tables_kept w (snd (provision env s a bv boy en mat p rid w)) \/
  exists base v w0,
    tables_kept w w0 /\
    provision env s a bv boy en mat p rid w =
    persist_and_respond env s a (product_id base) boy en mat
      (Js.parseInt boy) (Js.parseInt en)
      (Js.mul (Js.parseInt boy) (Js.parseInt en)) p
      (calculateWeight (Js.parseInt boy) (Js.parseInt en) mat)
      (cacheKey_of boy en mat) rid (Js.toFixed_2 p) v w0.
Proof.
  set (key := cacheKey_of boy en mat).
  remember (provision env s a bv boy en mat p rid w) as r eqn:Hr.
  unfold provision in Hr. fold (cacheKey_of boy en mat) in Hr. fold key in Hr.
  unfold bind at 1 in Hr.
  pose proof (tk_dedup key rid w) as H1.
  destruct (dedup key rid w) as [[[resp|]|e] w1]; cbn [snd] in H1;
    [left; subst r; exact H1 | | left; subst r; exact H1].
  unfold bind at 1 in Hr.
  pose proof (tk_load_base_variant bv key w1) as H2.
  destruct (load_base_variant env bv key w1) as [[[resp|base]|e] w2];
    cbn [snd] in H2;
    [left; subst r; eapply tables_kept_trans; eassumption |
    | left; subst r; eapply tables_kept_trans; eassumption].
  unfold bind at 1 in Hr.
  pose proof (quiet_tables _ (q_findExistingVariant env (product_id base) boy en mat) w2)
    as H3.
  destruct (findExistingVariant env (product_id base) boy en mat w2)
    as [[[ev|]|e] w3]; cbn [snd] in H3.
  - left. subst r. eapply tables_kept_trans; [|apply tk_reuse_path].
    eapply tables_kept_trans; [|exact H3].
    eapply tables_kept_trans; eassumption.
  - assert (H03 : tables_kept w w3).
    { eapply tables_kept_trans; [|exact H3].
      eapply tables_kept_trans; eassumption. }
    destruct (creation_path_tables s a (product_id base) boy en mat
                (Js.parseInt boy) (Js.parseInt en)
                (Js.mul (Js.parseInt boy) (Js.parseInt en)) p
                (calculateWeight (Js.parseInt boy) (Js.parseInt en) mat)
                key rid w3) as [Hk | (v & w0 & Hk & Heq)].
    + left. subst r. eapply tables_kept_trans; eassumption.
    + right. exists base, v, w0. split; [|subst r; exact Heq].
      eapply tables_kept_trans; eassumption.
  - left. subst r. eapply tables_kept_trans; [|exact H3].
    eapply tables_kept_trans; eassumption.
Qed.

Lemma action_tables request w :
  tables_kept w (snd (action env request w)) \/
  exists s a bv boy en mat p base v w0,
    accepted env request w s a bv boy en mat p /\
    tables_kept w w0 /\
    action env request w =
    persist_and_respond env s a (product_id base) boy en mat
      (Js.parseInt boy) (Js.parseInt en)
      (Js.mul (Js.parseInt boy) (Js.parseInt en)) p
      (calculateWeight (Js.parseInt boy) (Js.parseInt en) mat)
      (cacheKey_of boy en mat) (requestId_of (form request) (now w))
      (Js.toFixed_2 p) v w0.
Proof.
  destruct (action_cases env request w)
    as [(s & a & bv & boy & en & mat & p & Hacc) | [_ Hq]]; [|now left].
  rewrite (action_accepted env request w s a bv boy en mat p Hacc).
  destruct (provision_tables s a bv boy en mat p
              (requestId_of (form request) (now w)) (after_load w (session_id s)))
    as [Hk | (base & v & w0 & Hk & Heq)].
  - left. eapply tables_kept_trans; [|apply after_system_error].
    eapply tables_kept_trans; [|exact Hk]. repeat split.
  - right. exists s, a, bv, boy, en, mat, p, base, v, w0.
    split; [exact Hacc|]. split.
    + eapply tables_kept_trans; [|exact Hk]. repeat split.
    + unfold try_catch. rewrite Heq.
      pose proof (persist_effect s a (product_id base) boy en mat
                    (Js.parseInt boy) (Js.parseInt en)
                    (Js.mul (Js.parseInt boy) (Js.parseInt en)) p
                    (calculateWeight (Js.parseInt boy) (Js.parseInt en) mat)
                    (cacheKey_of boy en mat) (requestId_of (form request) (now w))
                    (Js.toFixed_2 p) v w0) as [Hok _].
      destruct (persist_and_respond _ _ _ _ _ _ _ _ _ _ _ _ _ _ _ _ w0)
        as [[r|e] w1]; [reflexivity | discriminate].
Qed.

(** X14.  A run of the action leaves the two tables and the tracker as
    they are, or -- only for an accepted request that is answered with
    "created" -- appends exactly one row and one "variant_created" log
    entry.  The row is live and not ordered, has no failed attempt, is
    created at the time of the answer and due two hours later; it carries
    the variant of the response, the admin session, and the width and
    height that [parseInt] read, with their product as the area.  A sweep
    selects the row from two hours after its creation on. *)
Theorem created_variant_is_recorded_once :
  forall request w,
    tables_kept w (snd (action env request w)) \/
    exists row entry resp s a bv boy en mat p,
      accepted env request w s a bv boy en mat p /\
      fst (action env request w) = Ok resp /\
      recorded w (snd (action env request w)) row entry /\
      status resp = 200 /\ usedExisting (json resp) = Some false /\
      option_map j_id (r_variant (json resp)) = Some (variantId row) /\
      option_map pj_id (r_product (json resp)) = Some (productId row) /\
      Sys.action entry = "variant_created" /\
      l_variantId entry = Some (variantId row) /\
      l_productId entry = Some (productId row) /\
      l_createdAt entry = createdAt row /\
      createdAt row = now (snd (action env request w)) /\
      scheduledDeletionAt row = createdAt row + 2 * 60 * 60 * 1000 /\
      deletedAt row = None /\ isOrdered row = false /\
      cleanupAttempts row = 0 /\ lastCleanupError row = None /\
      sessionId row = session_id a /\ Sys.materyal row = mat /\
      Js.parseInt boy = Js.of_Z (Sys.boy row) /\
      Js.parseInt en = Js.of_Z (Sys.en row) /\
      Sys.area row = Sys.boy row * Sys.en row /\
      p = Js.Fin (Sys.calculatedPrice row) /\
      (forall t,
         In row (sweep_findMany t (temporaryProduct (snd (action env request w))))
         <-> createdAt row + 2 * 60 * 60 * 1000 <= t).
Proof.
  intros request w.
  destruct (action_tables request w)
    as [Hk | (s & a & bv & boy & en & mat & p & base & v & w0 & Hacc & Hk & Heq)];
    [now left|].
  rewrite Heq.
  destruct (persist_effect s a (product_id base) boy en mat
              (Js.parseInt boy) (Js.parseInt en)
              (Js.mul (Js.parseInt boy) (Js.parseInt en)) p
              (calculateWeight (Js.parseInt boy) (Js.parseInt en) mat)
              (cacheKey_of boy en mat) (requestId_of (form request) (now w))
              (Js.toFixed_2 p) v w0)
    as [Hok [Hnow [Hkept | (row & entry & b & e & a' & q & Hb & He & Ha & Hp & Hrec
         & Fpid & Fvid & Fc & Fs & Fd & Fo & Fa & Fl & Fboy & Fen & Far & Fpr & Fm
         & Fsid & Eact & Ec & Epid & Evid)]]].
  { left. eapply tables_kept_trans; eassumption. }
  right. exists row, entry, (created_response v (product_id base) p
    (calculateWeight (Js.parseInt boy) (Js.parseInt en) mat) (Js.toFixed_2 p)
    (requestId_of (form request) (now w))), s, a, bv, boy, en, mat, p.
  destruct Hk as (K1 & K2 & K3). destruct Hrec as (R1 & R2 & R3).
  assert (Hzb : exists zb, Js.parseInt boy = Js.of_Z zb /\ b = inject_Z zb).
  { destruct (parseInt_cases boy) as [E | [z E]]; rewrite E in Hb;
      [discriminate|]. exists z. split; [exact E|]. now injection Hb. }
  assert (Hze : exists ze, Js.parseInt en = Js.of_Z ze /\ e = inject_Z ze).
  { destruct (parseInt_cases en) as [E | [z E]]; rewrite E in He;
      [discriminate|]. exists z. split; [exact E|]. now injection He. }
  destruct Hzb as [zb [Ezb ->]]. destruct Hze as [ze [Eze ->]].
  rewrite Qfloor_Z in Fboy, Fen.
  assert (Harea : Sys.area row = zb * ze).
  { rewrite Far. rewrite Ezb, Eze in Ha. cbn in Ha. injection Ha as <-.
    apply Qfloor_product. }
  split; [exact Hacc|]. split; [exact Hok|].
  split; [repeat split; congruence|].
  split; [reflexivity|]. split; [reflexivity|].
  split; [cbn; now rewrite Fvid|]. split; [cbn; now rewrite Fpid|].
  split; [exact Eact|]. split; [congruence|]. split; [congruence|].
  split; [congruence|]. split; [congruence|]. split; [congruence|].
  split; [exact Fd|]. split; [exact Fo|]. split; [exact Fa|]. split; [exact Fl|].
  split; [exact Fsid|]. split; [exact Fm|].
  split; [now rewrite Fboy|]. split; [now rewrite Fen|].
  split; [now rewrite Harea, Fboy, Fen|]. split; [now rewrite Fpr|].
  intros t. rewrite sweep_findMany_In, R1. split.
  - intros (_ & _ & _ & Hdue). lia.
  - intros Hdue. split; [apply in_or_app; right; now left|].
    split; [exact Fd|]. split; [exact Fo | lia].
Qed.

(** The usual request at a catalog whose price settles: the row is there. *)
Example the_request_is_recorded :
  List.length (temporaryProduct (snd (action env_settled the_request world_idle)))
    = 1%nat /\
  List.length (cleanupLog (snd (action env_settled the_request world_idle)))
    = 1%nat.
Proof. split; vm_compute; reflexivity. Qed.

End Records.

(** *** The reuse of an existing variant *)

Section Reuse.

Variable env : Env.


End Reuse.

(** *** The first read *)

Section FirstRead.

Variable env : Env.

(** X16.  When the first read of an accepted, admitted request -- the read
    of the base variant -- is not answered within ten seconds, the action
    answers 504 with the error type "timeout" ten seconds after the
    request came in.  It has made this one catalog call, has written
    nothing and has released the key. *)
Theorem slow_first_read_answers_504 request w s a bv boy en mat p :
  accepted env request w s a bv boy en mat p ->
  (forall c,
     cache_get (cacheKey_of boy en mat) (cleanupCache_at (now w) (requestCache w))
       = Some c ->
     3000 <= now w - c_timestamp c) ->
  API_TIMEOUT <=
    latency (rest env (trace w ++ [LoadSession (session_id s)])%list
               (Get ("variants/" ++ bv))) ->
  exists w',
    action env request w =
      (Ok (failure 504 "İstek zaman aşımına uğradı. Lütfen tekrar deneyin."
             "timeout" None None), w') /\
    trace w' =
      (trace w ++ [LoadSession (session_id s); Get ("variants/" ++ bv)])%list /\
    now w' = now w + API_TIMEOUT /\
    tables_kept w w' /\
    cache_get (cacheKey_of boy en mat) (requestCache w') = None.
Proof.
  intros Hacc Hold Hlate.
  rewrite (action_accepted env request w s a bv boy en mat p Hacc).
  unfold try_catch, provision. fold (cacheKey_of boy en mat).
  set (key := cacheKey_of boy en mat) in *.
  unfold bind at 1. rewrite dedup_run. cbv zeta.
  cbn [now requestCache after_load set_clock].
  set (pruned := cleanupCache_at (now w) (requestCache w)) in *.
  assert (Hadm :
    match cache_get key pruned with
    | Some c => (now w - c_timestamp c <? 3000) = false
    | None => True
    end).
  { destruct (cache_get key pruned) as [c|]; [|exact I].
    apply Z.ltb_ge. now apply Hold. }
  set (w0 := set_requestCache
               (cache_set key
                  {| c_timestamp := now w;
                     c_requestId := requestId_of (form request) (now w) |} pruned)
               (after_load w (session_id s))).
  assert (Htimeout : isTimeout (Js.new_Error timeout_message) = true)
    by (vm_compute; reflexivity).
  assert (Hrun :
    exists w',
      load_base_variant env bv key w0 =
        (Ok (inl (failure 504 "İstek zaman aşımına uğradı. Lütfen tekrar deneyin."
                    "timeout" None None)), w') /\
      trace w' =
        (trace w ++ [LoadSession (session_id s); Get ("variants/" ++ bv)])%list /\
      now w' = now w + API_TIMEOUT /\
      tables_kept w w' /\
      requestCache w' = cache_delete key (requestCache w0)).
  { unfold load_base_variant, bind at 1, reify, bind at 1.
    unfold withTimeout. unfold w0 at 1, after_load.
    cbn [trace set_requestCache set_clock].
    rewrite (proj2 (Z.leb_le _ _) Hlate).
    unfold bind, console_error, requestCache_delete, modify, ret.
    rewrite Htimeout.
    eexists. split; [reflexivity|]. unfold w0, after_load.
    cbn [snd trace now set_requestCache set_console set_clock
         temporaryProduct cleanupLog recentErrors requestCache].
    split; [now rewrite <- app_assoc|]. split; [reflexivity|].
    split; [repeat split | reflexivity]. }
  destruct Hrun as (w' & E & Ht & Hn & Htk & Hc).
  destruct (cache_get key pruned) as [c|].
  - rewrite Hadm. cbn iota beta. fold w0. unfold bind at 1. rewrite E.
    exists w'. repeat split; try assumption; try apply Htk.
    rewrite Hc. apply cache_get_delete.
  - cbn iota beta. fold w0. unfold bind at 1. rewrite E.
    exists w'. repeat split; try assumption; try apply Htk.
    rewrite Hc. apply cache_get_delete.
Qed.

Lemma the_request_admitted_when_idle :
  forall c,
    cache_get (cacheKey_of "120" "80" "pamuk")
      (cleanupCache_at (now world_idle) (requestCache world_idle)) = Some c ->
    3000 <= now world_idle - c_timestamp c.
Proof. intros c H. vm_compute in H. discriminate. Defined.

End FirstRead.

(** X16 at a catalog that takes 15 seconds for every answer. *)
Lemma slow_catalog_answers_504 :
  exists w',
    action env_slow the_request world_idle =
      (Ok (failure 504 "İstek zaman aşımına uğradı. Lütfen tekrar deneyin."
             "timeout" None None), w') /\
    trace w' = (trace world_idle ++ [LoadSession (Some "s1"); Get "variants/100"])%list /\
    now w' = now world_idle + API_TIMEOUT /\
    tables_kept world_idle w' /\
    cache_get "120-80-pamuk" (requestCache w') = None.
Proof.
  apply (slow_first_read_answers_504 env_slow the_request world_idle
           proxy_session the_session "100" "120" "80" "pamuk" twenty).
  - apply the_request_accepted.
  - apply the_request_admitted_when_idle.
  - vm_compute. discriminate.
Defined.

(** *** The time that the wait takes *)


Section Timing.

Variable env : Env.





End Timing.

(** *** The calls of a run *)

Section Budget.

Variable env : Env.
Variable f : Call -> bool.
Variables cg cp cpo : nat.
Hypothesis f_get : forall path, (cost f (Get path) <= cg)%nat.
Hypothesis f_put : forall path i price, (cost f (Put path i price) <= cp)%nat.
Hypothesis f_post : forall path data, (cost f (Post path data) <= cpo)%nat.
Hypothesis f_timer : forall ms, f (SetTimeout ms) = false.
Hypothesis f_load : forall sid, f (LoadSession sid) = false.

Lemma cl_refl w : calls_le f 0 w w.
Proof. exists []. split; [now rewrite app_nil_r | reflexivity]. Qed.

Lemma cl_trans a b w1 w2 w3 :
  calls_le f a w1 w2 -> calls_le f b w2 w3 -> calls_le f (a + b) w1 w3.
Proof.
  intros [c1 [E1 L1]] [c2 [E2 L2]]. exists (c1 ++ c2)%list. split.
  - now rewrite E2, E1, app_assoc.
  - rewrite filter_app, length_app. lia.
Qed.

Lemma cl_weaken a b w w' : (a <= b)%nat -> calls_le f a w w' -> calls_le f b w w'.
Proof. intros Hab [c [E L]]. exists c. split; [exact E | lia]. Qed.

Lemma cl_one c w w' :
  trace w' = (trace w ++ [c])%list -> calls_le f (cost f c) w w'.
Proof.
  intros E. exists [c]. split; [exact E|]. unfold cost. cbn.
  destruct (f c); cbn; lia.
Qed.

Lemma cl_same w w' : trace w' = trace w -> calls_le f 0 w w'.
Proof. intros E. exists []. split; [now rewrite app_nil_r | reflexivity]. Qed.

Lemma b_weaken {A} a b (m : M A) : (a <= b)%nat -> bounded f a m -> bounded f b m.
Proof. intros Hab H w. eapply cl_weaken; [exact Hab | apply H]. Qed.

Lemma b_ret {A} (x : A) : bounded f 0 (ret x).
Proof. intros w. apply cl_refl. Qed.

Lemma b_throw {A} e : bounded f 0 (@throw A e).
Proof. intros w. apply cl_refl. Qed.

Lemma b_gets {A} (g : World -> A) : bounded f 0 (gets g).
Proof. intros w. apply cl_refl. Qed.

Lemma b_modify g : (forall w, trace (g w) = trace w) -> bounded f 0 (modify g).
Proof. intros H w. apply cl_same, H. Qed.

Lemma b_bind {A B} a b (m : M A) (k : A -> M B) :
  bounded f a m -> (forall x, bounded f b (k x)) -> bounded f (a + b) (bind m k).
Proof.
  intros Hm Hk w. unfold bind. specialize (Hm w).
  destruct (m w) as [[x|e] w1]; cbn [snd] in *.
  - eapply cl_trans; [exact Hm | apply Hk].
  - eapply cl_weaken; [|exact Hm]. lia.
Qed.

Lemma b_try_catch {A} a b (m : M A) h :
  bounded f a m -> (forall e, bounded f b (h e)) -> bounded f (a + b) (try_catch m h).
Proof.
  intros Hm Hh w. unfold try_catch. specialize (Hm w).
  destruct (m w) as [[x|e] w1]; cbn [snd] in *.
  - eapply cl_weaken; [|exact Hm]. lia.
  - eapply cl_trans; [exact Hm | apply Hh].
Qed.

Lemma b_reify {A} a (m : M A) : bounded f a m -> bounded f a (reify m).
Proof.
  intros Hm w. unfold reify. specialize (Hm w).
  destruct (m w) as [[x|e] w1]; exact Hm.
Qed.

Lemma b_admin c : bounded f (cost f c) (admin env c).
Proof. intros w. apply cl_one, admin_trace. Qed.

Lemma b_withTimeout c : bounded f (cost f c) (withTimeout env c).
Proof. intros w. apply cl_one, withTimeout_trace. Qed.

Lemma b_get path : bounded f cg (withTimeout env (Get path)).
Proof. eapply b_weaken; [apply f_get | apply b_withTimeout]. Qed.

Lemma b_read path : bounded f cg (admin env (Get path)).
Proof. eapply b_weaken; [apply f_get | apply b_admin]. Qed.

Lemma b_sleep ms : bounded f 0 (sleep ms).
Proof.
  intros w. eapply cl_weaken; [|apply (cl_one (SetTimeout ms)); reflexivity].
  unfold cost. now rewrite f_timer.
Qed.

Lemma b_loadSession sid : bounded f 0 (loadSession env sid).
Proof.
  intros w. eapply cl_weaken; [|apply (cl_one (LoadSession sid)); reflexivity].
  unfold cost. now rewrite f_load.
Qed.

Lemma b_console_error label d : bounded f 0 (console_error label d).
Proof. apply b_modify. reflexivity. Qed.

Lemma b_requestCache_delete key : bounded f 0 (requestCache_delete key).
Proof. apply b_modify. reflexivity. Qed.

Lemma b_said {A} label d (x : A) : bounded f 0 (bind (console_error label d) (fun _ => ret x)).
Proof. apply (b_bind 0 0); [apply b_console_error | intros; apply b_ret]. Qed.

Lemma b_findExistingVariant pid boy en mat :
  bounded f cg (findExistingVariant env pid boy en mat).
Proof.
  unfold findExistingVariant.
  eapply b_weaken; [|apply (b_try_catch cg 0)].
  - lia.
  - eapply b_weaken; [|apply (b_bind cg 0); [apply b_get | intros; apply b_ret]]. lia.
  - intros e. apply b_said.
Qed.

Lemma b_poll_once vid p i : bounded f cg (poll_once env vid p i).
Proof.
  unfold poll_once.
  eapply b_weaken; [|apply (b_try_catch cg 0)].
  - lia.
  - eapply b_weaken; [|apply (b_bind 0 cg); [apply b_sleep|]]; [lia|].
    intros _. eapply b_weaken; [|apply (b_bind cg 0); [apply b_get|]]; [lia|].
    intros b. destruct (variant b) as [v|]; [|apply b_ret].
    destruct (price v); [|apply b_ret].
    destruct (Js.abs_diff_ltb _ _ _); apply b_ret.
  - intros e. apply b_said.
Qed.

Lemma b_poll_loop n vid p : forall i, bounded f (n * cg) (poll_loop env n vid p i).
Proof.
  induction n as [|n IH]; intros i; cbn [poll_loop].
  - apply b_ret.
  - eapply b_weaken; [|apply (b_bind cg (n * cg)); [apply b_poll_once|]]; [lia|].
    intros [v|]; [|apply IH].
    eapply b_weaken; [|apply b_ret]. lia.
Qed.

Lemma b_waitForVariantReady vid p :
  bounded f (9 * cg) (waitForVariantReady env vid p maxRetries_default).
Proof.
  unfold waitForVariantReady, maxRetries_default.
  eapply b_weaken; [|apply (b_bind (8 * cg) cg); [apply b_poll_loop|]]; [lia|].
  intros [v|]; [eapply b_weaken; [|apply b_ret]; lia|].
  eapply b_weaken; [|apply (b_try_catch cg 0)].
  - lia.
  - eapply b_weaken; [|apply (b_bind cg 0); [apply b_read | intros; apply b_ret]]. lia.
  - intros e. apply b_said.
Qed.

Lemma b_manual_price_update nv ps :
  bounded f (cp + cg) (manual_price_update env nv ps).
Proof.
  unfold manual_price_update.
  eapply b_weaken; [|apply (b_try_catch (cp + cg) 0)].
  - lia.
  - apply (b_bind cp cg).
    + eapply b_weaken; [apply f_put | apply b_admin].
    + intros _. eapply b_weaken; [|apply (b_bind 0 cg); [apply b_sleep|]]; [lia|].
      intros _. eapply b_weaken; [|apply (b_bind cg 0); [apply b_read|]]; [lia|].
      intros b. destruct (variant b); [apply b_ret | apply b_said].
  - intros e. apply b_said.
Qed.

(** A creation that throws has made the create call and nothing else. *)
Lemma create_variant_budget pid data p ps w :
  calls_le f
    match fst (create_variant env pid data p ps w) with
    | Threw _ => cpo
    | Ok _ => cpo + 10 * cg + cp
    end%nat
    w (snd (create_variant env pid data p ps w)).
Proof.
  unfold create_variant. unfold bind at 1 3.
  pose proof (b_withTimeout
                (Post ("products/" ++ Js.string_of_Z pid ++ "/variants") data) w) as H1.
  apply (cl_weaken _ cpo) in H1; [|apply f_post].
  destruct (withTimeout env (Post _ _) w) as [[b|e] w1]; cbn [snd] in H1;
    [|exact H1].
  destruct (variant b) as [created|]; [|exact H1].
  destruct (waitForVariantReady_run env (v_id created) p w1) as [r [w2 [Hrun _]]].
  pose proof (b_waitForVariantReady (v_id created) p w1) as H2.
  unfold bind at 1 2. rewrite Hrun in *. cbn [snd] in H2.
  set (nv := match r with Some x => x | None => created end).
  destruct (price_blank (price nv)).
  - destruct (manual_price_update_run env nv ps w2) as [r3 [w3 [tail [Hrun3 _]]]].
    pose proof (b_manual_price_update nv ps w2) as H3.
    rewrite Hrun3 in *. cbn [fst snd] in *.
    eapply cl_weaken; [|eapply cl_trans; [exact H1 | eapply cl_trans; [exact H2 | exact H3]]].
    lia.
  - cbn [fst snd ret].
    eapply cl_weaken; [|eapply cl_trans; [exact H1 | exact H2]]. lia.
Qed.

Lemma b_creation_failed err pid boy en mat p key rid :
  bounded f cg (creation_failed env err pid boy en mat p key rid).
Proof.
  unfold creation_failed.
  eapply b_weaken; [|apply (b_bind 0 cg); [apply b_console_error|]]; [lia|].
  intros _. eapply b_weaken; [|apply (b_bind 0 cg); [apply b_requestCache_delete|]];
    [lia|].
  intros _. eapply b_weaken; [|apply (b_bind cg 0)]; [lia | |].
  - destruct (already_exists err);
      [apply b_findExistingVariant | eapply b_weaken; [|apply b_ret]; lia].
  - intros [rv|]; apply b_ret.
Qed.

Lemma b_persist_and_respond s a pid boy en mat bi ei ar p wt key rid ps v :
  bounded f 0 (persist_and_respond env s a pid boy en mat bi ei ar p wt key rid ps v).
Proof.
  intros w.
  destruct (persist_and_respond_run env s a pid boy en mat bi ei ar p wt key rid ps v w)
    as [w' [Hrun Ht]].
  rewrite Hrun. apply cl_same, Ht.
Qed.

Lemma b_creation_path s a pid boy en mat bi ei ar p wt key rid :
  bounded f (cpo + 10 * cg + cp)
    (creation_path env s a pid boy en mat bi ei ar p wt key rid).
Proof.
  intros w. rewrite creation_path_run.
  match goal with
  | |- context [create_variant env ?x ?d ?y ?z w] =>
      pose proof (create_variant_budget x d y z w) as H;
      destruct (create_variant env x d y z w) as [[[v|]|err] w1]; cbn [fst snd] in H
  end.
  - eapply cl_weaken; [|eapply cl_trans; [exact H | apply b_persist_and_respond]]. lia.
  - cbn [snd]. eapply cl_weaken; [|eapply cl_trans; [exact H | apply cl_same]];
      [lia | reflexivity].
  - eapply cl_weaken; [|eapply cl_trans; [exact H | apply b_creation_failed]]. lia.
Qed.

Lemma b_reuse_path ev pid p key rid :
  bounded f (cp + cg) (reuse_path env ev pid p key rid).
Proof.
  unfold reuse_path.
  eapply b_weaken; [|apply (b_bind (cp + cg) 0)]; [lia | |].
  - apply b_reify. apply (b_bind cp cg).
    + eapply b_weaken; [apply f_put | apply b_withTimeout].
    + intros _. eapply b_weaken; [|apply (b_bind 0 cg); [apply b_sleep|]]; [lia|].
      intros _. eapply b_weaken; [|apply (b_bind cg 0); [apply b_read|]]; [lia|].
      intros b. apply (b_bind 0 0); [apply b_requestCache_delete | intros; apply b_ret].
  - intros [err|resp]; [|apply b_ret].
    apply (b_bind 0 0); [apply b_console_error|]. intros _.
    apply (b_bind 0 0); [apply b_requestCache_delete | intros; apply b_ret].
Qed.

Lemma b_load_base_variant bv key : bounded f cg (load_base_variant env bv key).
Proof.
  unfold load_base_variant.
  eapply b_weaken; [|apply (b_bind cg 0)]; [lia | |].
  - apply b_reify.
    eapply b_weaken; [|apply (b_bind cg 0); [apply b_get|]]; [lia|].
    intros b. destruct (variant b); [apply b_ret | apply b_throw].
  - intros [err|base]; [|apply b_ret].
    apply (b_bind 0 0); [apply b_console_error|]. intros _.
    apply (b_bind 0 0); [apply b_requestCache_delete | intros; apply b_ret].
Qed.

Lemma b_dedup key rid : bounded f 0 (dedup key rid).
Proof.
  intros w. destruct (dedup_cases key rid w) as [r [w' [Hrun [Ht _]]]].
  rewrite Hrun. apply cl_same, Ht.
Qed.

Lemma b_provision s a bv boy en mat p rid :
  bounded f (cpo + 12 * cg + cp) (provision env s a bv boy en mat p rid).
Proof.
  unfold provision.
  eapply b_weaken; [|apply (b_bind 0 (cpo + 12 * cg + cp)); [apply b_dedup|]]; [lia|].
  intros [resp|]; [eapply b_weaken; [|apply b_ret]; lia|].
  eapply b_weaken;
    [|apply (b_bind cg (cpo + 11 * cg + cp)); [apply b_load_base_variant|]]; [lia|].
  intros [resp|base]; [eapply b_weaken; [|apply b_ret]; lia|].
  eapply b_weaken;
    [|apply (b_bind cg (cpo + 10 * cg + cp)); [apply b_findExistingVariant|]]; [lia|].
  intros [ev|].
  - eapply b_weaken; [|apply b_reuse_path]. lia.
  - apply b_creation_path.
Qed.

Lemma b_action request :
  bounded f (cpo + 12 * cg + cp) (action env request).
Proof.
  unfold action.
  eapply b_weaken; [|apply (b_try_catch (cpo + 12 * cg + cp) 0)]; [lia | |].
  - destruct (proxy request) as [session|];
      [|eapply b_weaken; [|apply b_throw]; lia].
    eapply b_weaken;
      [|apply (b_bind 0 (cpo + 12 * cg + cp)); [apply b_loadSession|]]; [lia|].
    intros [adminSession|]; [|eapply b_weaken; [|apply b_ret]; lia].
    destruct (negb _); [eapply b_weaken; [|apply b_ret]; lia|].
    cbv zeta.
    eapply b_weaken;
      [|apply (b_bind 0 (cpo + 12 * cg + cp)); [apply b_gets|]]; [lia|].
    intros t.
    destruct (f_baseVariantId (form request)), (f_boy (form request)),
      (f_en (form request)), (f_materyal (form request)),
      (f_calculatedPrice (form request));
      try (eapply b_weaken; [|apply b_ret]; lia).
    destruct (_ || _); [eapply b_weaken; [|apply b_ret]; lia|].
    destruct (validatePrice _); [eapply b_weaken; [|apply b_ret]; lia|].
    apply b_provision.
  - intros e. apply b_said.
Qed.

End Budget.

(** X18.  Whatever happens, one run of the action only appends to the
    trace of calls, and sends at most one POST (it never creates two
    variants), at most one PUT, no DELETE, and at most 14 calls to the
    catalog in all: the read of the base variant, the listing, the create
    call, eight polls, the last read, and the price update with its
    read. *)
Theorem action_call_budget :
  forall env request w,
    exists calls,
      trace (snd (action env request w)) = (trace w ++ calls)%list /\
      (List.length (filter is_post calls) <= 1)%nat /\
      (List.length (filter is_put calls) <= 1)%nat /\
      filter is_delete calls = [] /\
      (List.length (filter is_rest calls) <= 14)%nat.
Proof.
  intros env request w.
  destruct (b_action env is_post 0 0 1) with (request := request) (w := w)
    as [c1 [E1 L1]]; try (intros; cbn; lia); try reflexivity.
  destruct (b_action env is_put 0 1 0) with (request := request) (w := w)
    as [c2 [E2 L2]]; try (intros; cbn; lia); try reflexivity.
  destruct (b_action env is_delete 0 0 0) with (request := request) (w := w)
    as [c3 [E3 L3]]; try (intros; cbn; lia); try reflexivity.
  destruct (b_action env is_rest 1 1 1) with (request := request) (w := w)
    as [c4 [E4 L4]]; try (intros; cbn; lia); try reflexivity.
  assert (c2 = c1) by (rewrite E1 in E2; now apply app_inv_head in E2).
  assert (c3 = c1) by (rewrite E1 in E3; now apply app_inv_head in E3).
  assert (c4 = c1) by (rewrite E1 in E4; now apply app_inv_head in E4).
  subst c2 c3 c4. exists c1. cbn in *.
  repeat split; try assumption; try lia.
  destruct (filter is_delete c1); [reflexivity | cbn in L3; lia].
Qed.

(** *** A creation that is answered too late *)

Section LateCreation.

Variable env : Env.

(** X22.  When the create call is not answered within ten seconds, the
    creation branch answers 504 with the error type "timeout" and the
    timer's message as details.  The create call has been sent all the
    same -- it is the one call of the branch -- but no row is written for
    the variant that the catalog may have created, so that no sweep will
    ever delete it; the key of the request is released. *)
Theorem late_creation_is_not_recorded
    s a pid boy en mat bi ei ar p wt key rid w :
  API_TIMEOUT <=
    latency
      (rest env (trace w)
         (Post (listing_path pid)
            (variantData_of pid boy en mat p wt (now w)
               (math_random env (trace w))))) ->
  exists w',
    creation_path env s a pid boy en mat bi ei ar p wt key rid w =
      (Ok (failure 504
             "Ürün oluşturma zaman aşımına uğradı. Lütfen tekrar deneyin."
             "timeout" None (Some timeout_message)), w') /\
    trace w' =
      (trace w ++
       [Post (listing_path pid)
          (variantData_of pid boy en mat p wt (now w)
             (math_random env (trace w)))])%list /\
    now w' = now w + API_TIMEOUT /\
    tables_kept w w' /\
    cache_released key w w'.
Proof.
  intros Hlate. rewrite creation_path_run.
  assert (Hcv :
    create_variant env pid
      (variantData_of pid boy en mat p wt (now w) (math_random env (trace w)))
      p (Js.toFixed_2 p) w =
    (Threw (Js.new_Error timeout_message),
     set_clock (now w + API_TIMEOUT)
       (trace w ++
        [Post (listing_path pid)
           (variantData_of pid boy en mat p wt (now w)
              (math_random env (trace w)))]) w)).
  { unfold create_variant, bind, withTimeout, listing_path in *.
    rewrite (proj2 (Z.leb_le _ _) Hlate). reflexivity. }
  rewrite Hcv.
  assert (Htimeout : isTimeout (Js.new_Error timeout_message) = true)
    by (vm_compute; reflexivity).
  unfold creation_failed, bind, console_error, requestCache_delete, modify, ret.
  cbn [already_exists Js.response Js.new_Error]. rewrite Htimeout.
  eexists. split; [reflexivity|]. repeat split.
Qed.

End LateCreation.

(** *** Concrete runs *)

Lemma distinct_sound keys : distinct keys = true -> NoDup keys.
Proof.
  induction keys as [|k rest IH]; cbn; intros H; [constructor|].
  apply andb_prop in H. destruct H as [Hk Hr]. constructor; [|now apply IH].
  intros Hin. apply negb_true_iff in Hk.
  assert (existsb (String.eqb k) rest = true); [|congruence].
  apply existsb_exists. exists k. split; [exact Hin | apply String.eqb_refl].
Qed.

(** X10, at the cache of 1001 entries that are all one second old: 200 are
    evicted and 801 kept. *)
Lemma crowded_cache_loses_200 :
  (1000 < List.length (filter (young 1000000) crowded_cache))%nat /\
  List.length (cleanupCache_at 1000000 crowded_cache) = 801%nat.
Proof.
  assert (Hbig : (1000 < List.length (filter (young 1000000) crowded_cache))%nat)
    by (vm_compute; lia).
  assert (Hnd : NoDup (map fst crowded_cache))
    by (apply distinct_sound; vm_compute; reflexivity).
  split; [exact Hbig|].
  destruct (proj2 (proj2 (pruning_evicts_the_oldest 1000000 crowded_cache)) Hbig Hnd)
    as [evicted [Hlen [Hperm _]]].
  apply Permutation_length in Hperm. rewrite length_app, Hlen in Hperm.
  assert (Hall : List.length (filter (young 1000000) crowded_cache) = 1001%nat)
    by (vm_compute; reflexivity).
  lia.
Defined.


(** The bound of 14 catalog calls is reached: the catalog shows the price
    0.00 at every read, so all eight polls, the last read and the price
    update with its read are made. *)
Example fourteen_calls_are_reached :
  List.length
    (filter is_rest (trace (snd (action env_zero_price the_request world_idle))))
    = 14%nat.
Proof. vm_compute. reflexivity. Qed.

(** X22, at a catalog that takes 12 seconds to create the variant: the
    request is answered 504 and no row is written. *)
Lemma slow_creation_leaves_no_row :
  fst (action env_slow_create the_request world_idle) =
    Ok (failure 504
          "Ürün oluşturma zaman aşımına uğradı. Lütfen tekrar deneyin."
          "timeout" None (Some timeout_message)) /\
  temporaryProduct (snd (action env_slow_create the_request world_idle)) = [] /\
  exists w0 w',
    creation_path env_slow_create proxy_session the_session 7 "120" "80" "pamuk"
      (Js.of_Z 120) (Js.of_Z 80) (Js.of_Z 9600) twenty
      (calculateWeight (Js.of_Z 120) (Js.of_Z 80) "pamuk") "120-80-pamuk" "req-1" w0
    = (Ok (failure 504
             "Ürün oluşturma zaman aşımına uğradı. Lütfen tekrar deneyin."
             "timeout" None (Some timeout_message)), w') /\
    tables_kept w0 w'.
Proof.
  split; [vm_compute; reflexivity|]. split; [vm_compute; reflexivity|].
  exists world_idle.
  destruct (late_creation_is_not_recorded env_slow_create proxy_session the_session
              7 "120" "80" "pamuk" (Js.of_Z 120) (Js.of_Z 80) (Js.of_Z 9600) twenty
              (calculateWeight (Js.of_Z 120) (Js.of_Z 80) "pamuk")
              "120-80-pamuk" "req-1" world_idle)
    as (w' & Hrun & _ & _ & Htk & _).
  - vm_compute. discriminate.
  - exists w'. split; [exact Hrun | exact Htk].
Defined.

End CustomProductExtra.
